(** * TruthTableGenerator: a shallow embedding of [truth.py]

    The development follows the layout of the Python source:

    - [Py]: the handful of built-in operations the program relies on
      (exceptions, [list.index], [list.insert], insertion-ordered [dict],
      [sorted], [str.replace], [random.choice], [random.shuffle]);
    - [Evaluator]: the class of the same name, parameterised by the host
      evaluator behind Python's [eval] built-in;
    - [PyBool]: the boolean fragment of Python expressions, used as a
      concrete host evaluator;
    - [ExpressionBuilder]: the class of the same name, its random draws made
      explicit arguments;
    - [Iteration], [TruthTable], [Main]: the iterator protocol of the
      evaluator, the table printed from it and the program's loop;
    - [Tokens]: what the token sequences of the builder are compared by.

    Definitions come first; the properties of the program follow. *)

From Stdlib Require Import List ZArith Lia Bool Arith Ascii String.
From Stdlib Require Import Permutation Sorting.Sorted DecimalString.
Import ListNotations.

Local Open Scope string_scope.
Local Open Scope list_scope.
Local Open Scope Z_scope.

(** ** Python built-ins *)

Module Py.

(** Exceptions the program can meet. *)
Inductive exn : Type :=
| AssertionError
| ValueError
| IndexError
| KeyError
| TypeError
| SyntaxError
| Unsupported.

(** A call either returns or raises. *)
Inductive result (A : Type) : Type :=
| OK (a : A)
| Raise (e : exn).

Arguments OK {A} a.
Arguments Raise {A} e.

Definition bind {A B : Type} (m : result A) (k : A -> result B) : result B :=
  match m with
  | OK a => k a
  | Raise e => Raise e
  end.

Section Lists.

Context {A : Type}.
Variable eq_dec : forall x y : A, {x = y} + {x <> y}.

(** Position of the first element equal to [x]. *)
Fixpoint position (x : A) (l : list A) : option nat :=
  match l with
  | [] => None
  | y :: l' =>
      if eq_dec y x then Some 0%nat else option_map S (position x l')
  end.

(** [l.index(x)]: raises [ValueError] when [x] is absent. *)
Definition list_index (x : A) (l : list A) : result Z :=
  match position x l with
  | Some n => OK (Z.of_nat n)
  | None => Raise ValueError
  end.

End Lists.

(** The slot at which [l.insert(i, x)] puts [x]: negative indices count
    from the end, and the index is clamped to [0 .. len(l)]. *)
Definition insert_slot (len i : Z) : nat :=
  Z.to_nat (if i <? 0 then Z.max 0 (len + i) else Z.min i len).

(** [l.insert(i, x)]. *)
Definition list_insert {A : Type} (i : Z) (x : A) (l : list A) : list A :=
  let k := insert_slot (Z.of_nat (List.length l)) i in
  firstn k l ++ x :: skipn k l.

(** Insertion at a position that is known to be a natural number. *)
Definition ins {A : Type} (k : nat) (x : A) (l : list A) : list A :=
  firstn k l ++ x :: skipn k l.

(** [l[i]]: raises [IndexError] out of range. *)
Definition list_get {A : Type} (l : list A) (i : Z) : result A :=
  let len := Z.of_nat (List.length l) in
  let k := if i <? 0 then len + i else i in
  if (k <? 0) || (len <=? k) then Raise IndexError
  else match nth_error l (Z.to_nat k) with
       | Some a => OK a
       | None => Raise IndexError
       end.

(** [l[i] = f(l[i])] for a non-negative position [i]. *)
Fixpoint list_modify {A : Type} (i : nat) (f : A -> A) (l : list A)
  : result (list A) :=
  match l, i with
  | [], _ => Raise IndexError
  | a :: l', O => OK (f a :: l')
  | a :: l', S i' => bind (list_modify i' f l') (fun r => OK (a :: r))
  end.

(** A [dict] with string keys keeps its keys in insertion order. *)
Definition dict (V : Type) : Type := list (string * V).

Fixpoint dict_find {V : Type} (k : string) (d : dict V) : option V :=
  match d with
  | [] => None
  | (k', v) :: d' => if String.eqb k' k then Some v else dict_find k d'
  end.

(** [d[k]]: raises [KeyError] when [k] is absent. *)
Definition dict_get {V : Type} (k : string) (d : dict V) : result V :=
  match dict_find k d with
  | Some v => OK v
  | None => Raise KeyError
  end.

(** [d[k] = v]: an existing key keeps its place, a new key goes last. *)
Fixpoint dict_set {V : Type} (k : string) (v : V) (d : dict V) : dict V :=
  match d with
  | [] => [(k, v)]
  | (k', v') :: d' =>
      if String.eqb k' k then (k', v) :: d' else (k', v') :: dict_set k v d'
  end.

(** [dict(pairs)]. *)
Definition dict_of_pairs {V : Type} (pairs : list (string * V)) : dict V :=
  fold_left (fun d kv => dict_set (fst kv) (snd kv) d) pairs [].

Definition dict_keys {V : Type} (d : dict V) : list string := map fst d.

Section Sorting.

Context {A : Type}.
Variable le : A -> A -> bool.

(** [sorted] is stable: an element goes before the first one that is not
    smaller than it, and elements are taken from the right. *)
Fixpoint sorted_insert (x : A) (l : list A) : list A :=
  match l with
  | [] => [x]
  | y :: l' => if le x y then x :: y :: l' else y :: sorted_insert x l'
  end.

Fixpoint sorted (l : list A) : list A :=
  match l with
  | [] => []
  | x :: l' => sorted_insert x (sorted l')
  end.

End Sorting.

(** [sorted(l, key=key)] for an integer key. *)
Definition sorted_by_key {A : Type} (key : A -> Z) (l : list A) : list A :=
  sorted (fun a b => key a <=? key b) l.

(** [sorted(l)] on strings: lexicographic order on code points. *)
Definition sorted_strings (l : list string) : list string :=
  sorted String.leb l.

(** [s.replace(old, new)] for a non-empty [old]: occurrences are found
    from left to right and do not overlap.  [skip] counts the characters of
    a match still to be dropped. *)
Fixpoint replace_from (skip : nat) (old new s : string) : string :=
  match s with
  | EmptyString => EmptyString
  | String c s' =>
      match skip with
      | S k => replace_from k old new s'
      | O =>
          if String.prefix old s
          then String.append new
                 (replace_from (Nat.pred (String.length old)) old new s')
          else String c (replace_from 0 old new s')
      end
  end.

Definition replace (old new s : string) : string := replace_from 0 old new s.

(** [s] with its first [k] characters dropped. *)
Fixpoint drop (k : nat) (s : string) : string :=
  match k, s with
  | O, _ => s
  | S _, EmptyString => EmptyString
  | S k', String _ s' => drop k' s'
  end.

(** What the documentation of [str.replace] says, as a relation: reading
    [s] from the left, a copy of [old] is traded for [new] wherever one
    starts, and any other character is kept. *)
Inductive replaced (old new : string) : string -> string -> Prop :=
| replaced_end : replaced old new EmptyString EmptyString
| replaced_match : forall s t,
    replaced old new s t ->
    replaced old new (String.append old s) (String.append new t)
| replaced_keep : forall c s t,
    String.prefix old (String c s) = false ->
    replaced old new s t ->
    replaced old new (String c s) (String c t).

(** [k] occurs in [s] as a substring. *)
Definition occurs (k s : string) : Prop :=
  exists a b, s = String.append a (String.append k b).

(** No character of [w] is a character of [new]. *)
Definition apart (w new : string) : Prop :=
  forall c, In c (list_ascii_of_string w) -> ~ In c (list_ascii_of_string new).

Definition apartb (w new : string) : bool :=
  forallb (fun c => negb (existsb (Ascii.eqb c) (list_ascii_of_string new)))
    (list_ascii_of_string w).

(** [random.choice(seq)] with the draw [r] made explicit: raises
    [IndexError] on an empty sequence. *)
Definition choice {A : Type} (r : nat) (seq : list A) : result A :=
  match seq with
  | [] => Raise IndexError
  | _ :: _ =>
      match nth_error seq (r mod List.length seq)%nat with
      | Some a => OK a
      | None => Raise IndexError
      end
  end.

(** Remove the element at position [k]. *)
Fixpoint remove_nth {A : Type} (k : nat) (l : list A) : list A :=
  match l, k with
  | [], _ => []
  | _ :: l', O => l'
  | a :: l', S k' => a :: remove_nth k' l'
  end.

(** [random.shuffle], its draws [rs] made explicit: the elements are drawn
    one at a time from those that remain.  Every ordering can be drawn. *)
Fixpoint shuffle_fuel {A : Type} (fuel : nat) (rs : nat -> nat) (l : list A)
  : list A :=
  match fuel with
  | O => l
  | S fuel' =>
      match l with
      | [] => []
      | a :: _ =>
          let k := (rs fuel' mod List.length l)%nat in
          nth k l a :: shuffle_fuel fuel' rs (remove_nth k l)
      end
  end.

Definition shuffle {A : Type} (rs : nat -> nat) (l : list A) : list A :=
  shuffle_fuel (List.length l) rs l.

End Py.

Import Py.

Notation "x <- m ;; k" := (bind m (fun x => k))
  (at level 61, m at next level, right associativity).

(** ** The evaluator *)

Module Evaluator.

(** What a row can hold: the 0/1 of a variable, the formatted result, and
    the [None] that goes under ["__builtins__"] in the globals. *)
Inductive cell : Type :=
| CInt (z : Z)
| CStr (s : string)
| CNone.

(** The host language behind [eval(source, globals)] and behind
    ["{1:^{0:d}}".format(width, value)]. *)
Record Host : Type := {
  pyobj : Type;
  host_eval : string -> dict cell -> result pyobj;
  host_format : nat -> pyobj -> result string
}.

(** The fields of an [Evaluator] instance; [py_expression] is the private
    [__expression]. *)
Record t : Type := {
  expression : string;
  py_expression : string;
  variables : list string;
  lines : list (dict cell)
}.

(** [Evaluator.__init__]. *)
Definition init (expression : string) (variables : list string) : t :=
  {| expression := expression;
     py_expression :=
       replace "AND" "and" (replace "NOT" "not" (replace "OR" "or" expression));
     variables := sorted_strings variables;
     lines := [] |}.

Definition with_lines (self : t) (l : list (dict cell)) : t :=
  {| expression := expression self;
     py_expression := py_expression self;
     variables := variables self;
     lines := l |}.

(** [1 if i & (1 << (n - j - 1)) else 0]. *)
Definition bit_value (i : nat) (n j : nat) : Z :=
  if Z.land (Z.of_nat i) (Z.shiftl 1 (Z.of_nat n - Z.of_nat j - 1)) =? 0
  then 0 else 1.

(** The inner loop: [self.lines[i][var] = ...] for each [(j, var)]. *)
Fixpoint assign_row (i n j : nat) (vars : list string)
  (lines : list (dict cell)) : result (list (dict cell)) :=
  match vars with
  | [] => OK lines
  | var :: vars' =>
      lines' <- list_modify i (dict_set var (CInt (bit_value i n j))) lines ;;
      assign_row i n (S j) vars' lines'
  end.

(** The same loop on one row: what row [i] holds once it is through. *)
Fixpoint assignment_from (i n j : nat) (vars : list string) (row : dict cell)
  : dict cell :=
  match vars with
  | [] => row
  | var :: vars' =>
      assignment_from i n (S j) vars'
        (dict_set var (CInt (bit_value i n j)) row)
  end.

Definition assignment (vars : list string) (i : nat) : dict cell :=
  assignment_from i (List.length vars) 0 vars [].

(** The globals handed to [eval] for row [i]. *)
Definition globals (vars : list string) (i : nat) : dict cell :=
  dict_set "__builtins__" CNone (assignment vars i).

(** One turn of the outer loop.  [copy.deepcopy] of a dict of integers is an
    independent dict with the same entries, so putting ["__builtins__"] in
    [globs] leaves [self.lines[i]] alone. *)
Definition eval_row (H : Host) (self : t) (i : nat)
  (lines : list (dict cell)) : result (list (dict cell)) :=
  let lines0 := lines ++ [[]] in
  lines1 <- assign_row i (List.length (variables self)) 0
              (variables self) lines0 ;;
  row <- list_get lines1 (Z.of_nat i) ;;
  let globs := dict_set "__builtins__" CNone row in
  evaluated <- host_eval H (py_expression self) globs ;;
  shown <- host_format H (String.length (expression self)) evaluated ;;
  list_modify i (dict_set " " (CStr shown)) lines1.

Fixpoint eval_loop (H : Host) (self : t) (range : list nat)
  (lines : list (dict cell)) : result (list (dict cell)) :=
  match range with
  | [] => OK lines
  | i :: range' =>
      lines' <- eval_row H self i lines ;;
      eval_loop H self range' lines'
  end.

(** [Evaluator.eval]: the instance after the call, or the exception that
    ended it. *)
Definition eval (H : Host) (self : t) : result t :=
  lines' <- eval_loop H self
              (seq 0 (2 ^ List.length (variables self))) [] ;;
  OK (with_lines self lines').

(** Row [i] of a finished table, and what the host said for it. *)
Definition row_done (H : Host) (self : t) (i : nat) (row : dict cell) : Prop :=
  exists r shown,
    host_eval H (py_expression self) (globals (variables self) i) = OK r
    /\ host_format H (String.length (expression self)) r = OK shown
    /\ row = dict_set " " (CStr shown) (assignment (variables self) i).

(** The host raised [x] on row [i]. *)
Definition row_raised (H : Host) (self : t) (i : nat) (x : exn) : Prop :=
  host_eval H (py_expression self) (globals (variables self) i) = Raise x
  \/ exists r,
       host_eval H (py_expression self) (globals (variables self) i) = OK r
       /\ host_format H (String.length (expression self)) r = Raise x.

End Evaluator.

(** ** The boolean fragment of Python expressions

    [eval] is handed the text after the keywords were put in lower case.
    The fragment below covers names, [not], [and], [or] and parentheses on
    one line of at most [max_tokens] tokens, which is what the builder
    writes; a text outside the fragment (other characters, line ends, the
    other reserved words, what Python would read as a call or as an empty
    tuple, a longer text) is reported as [Unsupported] instead of being
    given a made-up meaning. *)

Module PyBool.

Inductive token : Type :=
| TName (s : string)
| TAnd
| TOr
| TNot
| TLParen
| TRParen.

Inductive ast : Type :=
| Name (s : string)
| Not (e : ast)
| And (a b : ast)
| Or (a b : ast).

Inductive value : Type :=
| VInt (z : Z)
| VBool (b : bool)
| VStr (s : string)
| VNone.

(** Blanks inside a line; a line end is not one of them. *)
Definition is_space (c : ascii) : bool :=
  (Ascii.eqb c " " || Ascii.eqb c "009")%bool.

Definition is_alpha (c : ascii) : bool :=
  let n := nat_of_ascii c in
  ((65 <=? n) && (n <=? 90) || (97 <=? n) && (n <=? 122)
   || (n =? 95))%nat%bool.

Definition is_digit (c : ascii) : bool :=
  let n := nat_of_ascii c in ((48 <=? n) && (n <=? 57))%nat%bool.

(** Reserved words other than [and], [or], [not], and [__debug__], which
    is a constant and not a name that is looked up. *)
Definition other_keywords : list string :=
  ["False"; "None"; "True"; "as"; "assert"; "async"; "await"; "break";
   "class"; "continue"; "def"; "del"; "elif"; "else"; "except"; "finally";
   "for"; "from"; "global"; "if"; "import"; "in"; "is"; "lambda";
   "nonlocal"; "pass"; "raise"; "return"; "try"; "while"; "with"; "yield";
   "__debug__"].

Definition word_token (w : string) : result token :=
  if String.eqb w "and" then OK TAnd
  else if String.eqb w "or" then OK TOr
  else if String.eqb w "not" then OK TNot
  else if existsb (String.eqb w) other_keywords then Raise Unsupported
  else OK (TName w).

(** [word] holds the identifier being read, last character first. *)
Definition flush (word : list ascii) (k : result (list token))
  : result (list token) :=
  match word with
  | [] => k
  | _ :: _ =>
      t <- word_token (string_of_list_ascii (rev word)) ;;
      ts <- k ;;
      OK (t :: ts)
  end.

Fixpoint lex (word : list ascii) (s : string) : result (list token) :=
  match s with
  | EmptyString => flush word (OK [])
  | String c s' =>
      if is_space c then flush word (lex [] s')
      else if Ascii.eqb c "(" then
        flush word (ts <- lex [] s' ;; OK (TLParen :: ts))
      else if Ascii.eqb c ")" then
        flush word (ts <- lex [] s' ;; OK (TRParen :: ts))
      else if is_alpha c then lex (c :: word) s'
      else if is_digit c then
        match word with
        | [] => Raise Unsupported
        | _ :: _ => lex (c :: word) s'
        end
      else Raise Unsupported
  end.

(** Recursive descent on [or_test], [and_test], [not_test] and atoms. *)
Fixpoint parse_or (fuel : nat) (ts : list token) : option (ast * list token) :=
  match fuel with
  | O => None
  | S fuel' =>
      match parse_and fuel' ts with
      | Some (a, TOr :: ts') =>
          match parse_or fuel' ts' with
          | Some (b, rest) => Some (Or a b, rest)
          | None => None
          end
      | other => other
      end
  end
with parse_and (fuel : nat) (ts : list token) : option (ast * list token) :=
  match fuel with
  | O => None
  | S fuel' =>
      match parse_not fuel' ts with
      | Some (a, TAnd :: ts') =>
          match parse_and fuel' ts' with
          | Some (b, rest) => Some (And a b, rest)
          | None => None
          end
      | other => other
      end
  end
with parse_not (fuel : nat) (ts : list token) : option (ast * list token) :=
  match fuel with
  | O => None
  | S fuel' =>
      match ts with
      | TNot :: ts' =>
          match parse_not fuel' ts' with
          | Some (a, rest) => Some (Not a, rest)
          | None => None
          end
      | TName s :: ts' => Some (Name s, ts')
      | TLParen :: ts' =>
          match parse_or fuel' ts' with
          | Some (a, TRParen :: rest) => Some (a, rest)
          | _ => None
          end
      | _ => None
      end
  end.

(** With these tokens Python also reads a call, [f ( x )], and the empty
    tuple, [( )]: a ["("] right after a name or a [")"], or right before a
    [")"]. *)
Definition opens_other (a b : token) : bool :=
  match a, b with
  | TName _, TLParen | TRParen, TLParen | TLParen, TRParen => true
  | _, _ => false
  end.

Fixpoint beyond_fragment (ts : list token) : bool :=
  match ts with
  | a :: (b :: _) as ts' => opens_other a b || beyond_fragment ts'
  | _ => false
  end.

(** Texts longer than this are left out: the limits Python puts on
    nesting are far away. *)
Definition max_tokens : nat := 100.

(** A token sequence that is not an expression of the fragment is a syntax
    error, unless it can be an expression beyond the fragment. *)
Definition parse (ts : list token) : result ast :=
  if (max_tokens <? List.length ts)%nat then Raise Unsupported
  else
    match parse_or (3 * List.length ts + 3) ts with
    | Some (a, []) => OK a
    | _ => if beyond_fragment ts then Raise Unsupported else Raise SyntaxError
    end.

Definition of_cell (c : Evaluator.cell) : value :=
  match c with
  | Evaluator.CInt z => VInt z
  | Evaluator.CStr s => VStr s
  | Evaluator.CNone => VNone
  end.

Definition truthy (v : value) : bool :=
  match v with
  | VInt z => negb (z =? 0)
  | VBool b => b
  | VStr s => negb (String.eqb s "")
  | VNone => false
  end.

(** A name that is not in the globals is looked for in the built-ins.
    With [None] under ["__builtins__"], as [Evaluator.eval] has it, that
    look-up raises [TypeError]; the built-ins themselves are outside the
    fragment. *)
Definition missing_name (globs : dict Evaluator.cell) : result value :=
  match dict_find "__builtins__" globs with
  | Some Evaluator.CNone => Raise TypeError
  | _ => Raise Unsupported
  end.

(** [and] and [or] return one of their operands and leave the right one
    alone when the left one decides. *)
Fixpoint run (globs : dict Evaluator.cell) (e : ast) : result value :=
  match e with
  | Name s =>
      match dict_find s globs with
      | Some c => OK (of_cell c)
      | None => missing_name globs
      end
  | Not a => v <- run globs a ;; OK (VBool (negb (truthy v)))
  | And a b => v <- run globs a ;; if truthy v then run globs b else OK v
  | Or a b => v <- run globs a ;; if truthy v then OK v else run globs b
  end.

(** The names in an expression. *)
Fixpoint names (e : ast) : list string :=
  match e with
  | Name s => [s]
  | Not a => names a
  | And a b | Or a b => names a ++ names b
  end.

(** The names the evaluation of [e] looks up on [globs], in the order it
    comes to them: the right operand of [and] and [or] counts when the left
    one was evaluated and did not decide. *)
Fixpoint reached (globs : dict Evaluator.cell) (e : ast) : list string :=
  match e with
  | Name s => [s]
  | Not a => reached globs a
  | And a b =>
      reached globs a
      ++ match run globs a with
         | OK v => if truthy v then reached globs b else []
         | Raise _ => []
         end
  | Or a b =>
      reached globs a
      ++ match run globs a with
         | OK v => if truthy v then [] else reached globs b
         | Raise _ => []
         end
  end.

Definition py_eval (source : string) (globs : dict Evaluator.cell)
  : result value :=
  ts <- lex [] source ;;
  e <- parse ts ;;
  run globs e.

Definition spaces (n : nat) : string :=
  string_of_list_ascii (repeat " "%char n).

(** [format(s, "^width")]: the odd space goes to the right. *)
Definition center (width : nat) (s : string) : string :=
  let pad := (width - String.length s)%nat in
  let left := (pad / 2)%nat in
  String.append (spaces left) (String.append s (spaces (pad - left))).

Definition decimal (z : Z) : string := NilEmpty.string_of_int (Z.to_int z).

(** With an alignment in the format spec, a [bool] is written as the
    integer it is. *)
Definition py_format (width : nat) (v : value) : result string :=
  match v with
  | VInt z => OK (center width (decimal z))
  | VBool b => OK (center width (if b then "1" else "0"))
  | VStr s => OK (center width s)
  | VNone => Raise TypeError
  end.

Definition host : Evaluator.Host :=
  {| Evaluator.pyobj := value;
     Evaluator.host_eval := py_eval;
     Evaluator.host_format := py_format |}.

End PyBool.

(** ** The expression builder *)

Module ExpressionBuilder.

(** The fields of an [ExpressionBuilder] instance; [not_expr] is the pair
    (negated variable, precedence). *)
Record t : Type := {
  paren_count : Z;
  variables : list string;
  operators : list string;
  not_expr : string * Z;
  parentheses : dict Z;
  expression : list string
}.

Definition with_expression (self : t) (e : list string) : t :=
  {| paren_count := paren_count self;
     variables := variables self;
     operators := operators self;
     not_expr := not_expr self;
     parentheses := parentheses self;
     expression := e |}.

Definition with_parentheses (self : t) (p : dict Z) : t :=
  {| paren_count := paren_count self;
     variables := variables self;
     operators := operators self;
     not_expr := not_expr self;
     parentheses := p;
     expression := expression self |}.

(** The random draws of [__init__]. *)
Record draws : Type := {
  variables_order : nat -> nat;
  operators_order : nat -> nat;
  not_variable : nat;
  not_precedence : nat
}.

(** [__generate_not_subexpression]. *)
Definition generate_not_subexpression (d : draws) (variables : list string)
  : result (string * Z) :=
  v <- choice (not_variable d) variables ;;
  OK (v, Z.of_nat (not_precedence d mod 2)).

(** [__generate_variables_order] and [__generate_operator_order]. *)
Definition generate_variables_order (d : draws) (choices : list string)
  : list string :=
  shuffle (variables_order d) choices.

Definition generate_operator_order (d : draws) (operators : list string)
  : list string :=
  shuffle (operators_order d) operators.

(** [ExpressionBuilder.__init__]; the [assert] is its first statement. *)
Definition init (variables operators : list string) (paren_count : Z)
  (d : draws) : result t :=
  if Nat.eqb (List.length variables) (List.length operators + 1) then
    let vs := generate_variables_order d variables in
    let os := generate_operator_order d operators in
    ne <- generate_not_subexpression d vs ;;
    OK {| paren_count := paren_count;
          variables := vs;
          operators := os;
          not_expr := ne;
          parentheses := [];
          expression := [] |}
  else Raise AssertionError.

Definition pair_dec (x y : string * Z) : {x = y} + {x <> y}.
Proof. decide equality; [apply Z.eq_dec | apply string_dec]. Defined.

Definition index_of (x : string) (e : list string) : result Z :=
  list_index string_dec x e.

(** [map(lambda var: (var, self.expression.index(var)), self.variables)]. *)
Fixpoint index_pairs (vars : list string) (e : list string)
  : result (list (string * Z)) :=
  match vars with
  | [] => OK []
  | v :: vars' =>
      i <- index_of v e ;;
      rest <- index_pairs vars' e ;;
      OK ((v, i) :: rest)
  end.

(** [__generate_indices_of_variables]. *)
Definition generate_indices_of_variables (self : t) : result (dict Z) :=
  pairs <- index_pairs (variables self) (expression self) ;;
  OK (dict_of_pairs (sorted_by_key snd pairs)).

(** The first loop of [build]: [insert(2 * i + 1, operator)]. *)
Definition interleave (ops : list string) (e : list string) : list string :=
  fold_left
    (fun e io => list_insert (2 * Z.of_nat (fst io) + 1) (snd io) e)
    (combine (seq 0 (List.length ops)) ops) e.

(** The two inserts that push ["NOT"] and its ["("]. *)
Definition push_not (self : t) : result t :=
  i <- index_of (fst (not_expr self)) (expression self) ;;
  let e1 := list_insert i "NOT" (expression self) in
  j <- index_of "NOT" e1 ;;
  OK (with_expression self (list_insert (j + 1) "(" e1)).

(** Closing the parenthesis of the NOT, after the indices were taken. *)
Definition close_not (self : t) : result t :=
  p <- generate_indices_of_variables self ;;
  let self := with_parentheses self p in
  if snd (not_expr self) =? 0 then
    let parens : list (string * Z) := p in
    v <- dict_get (fst (not_expr self)) p ;;
    position <- list_index pair_dec (fst (not_expr self), v) parens ;;
    if position =? Z.of_nat (List.length parens) - 1 then
      OK (with_expression self (expression self ++ [")"]))
    else
      nxt <- list_get parens (position + 1) ;;
      let right := fst nxt in
      ri <- dict_get right p ;;
      OK (with_expression self (list_insert (ri + 1) ")" (expression self)))
  else
    j <- index_of "NOT" (expression self) ;;
    OK (with_expression self (list_insert (j + 3) ")" (expression self))).

(** [__generate_parentheses_positions], with the draw [r]. *)
Definition generate_parentheses_positions (r : nat) (p : dict Z)
  : result (string * string) :=
  left <- choice r (removelast (dict_keys p)) ;;
  let parens : list (string * Z) := p in
  lv <- dict_get left p ;;
  k <- list_index pair_dec (left, lv) parens ;;
  nxt <- list_get parens (k + 1) ;;
  OK (left, fst nxt).

(** [__insert_parentheses].  Its [parentheses] argument is the object held
    in [self.parentheses], so the updates below are seen through both. *)
Definition insert_parentheses (self : t) (left right : string) : result t :=
  let p := parentheses self in
  p <- (if String.eqb right (fst (not_expr self))
        then v <- dict_get right p ;; OK (dict_set right (v + 2) p)
        else OK p) ;;
  v <- dict_get right p ;;
  let p := dict_set right (v + 1) p in
  let self := with_parentheses self p in
  lv <- dict_get left p ;;
  around <- (if lv =? 0
             then rv <- dict_get right p ;;
                  OK (Z.of_nat (List.length (expression self)) - 1 <=? rv)
             else OK false) ;;
  if (around : bool) then OK self
  else
    rv <- dict_get right p ;;
    let e1 := list_insert rv ")" (expression self) in
    lv <- dict_get left p ;;
    OK (with_expression self (list_insert lv "(" e1)).

(** One turn of the last loop of [build]. *)
Definition add_group (r : nat) (self : t) : result t :=
  p <- generate_indices_of_variables self ;;
  v <- dict_get (fst (not_expr self)) p ;;
  let p := dict_set (fst (not_expr self)) (v - 2) p in
  let self := with_parentheses self p in
  lr <- generate_parentheses_positions r p ;;
  insert_parentheses self (fst lr) (snd lr).

(** [count] turns, the [k]-th one drawing [rs k]. *)
Fixpoint add_groups (rs : nat -> nat) (k count : nat) (self : t) : result t :=
  match count with
  | O => OK self
  | S count' =>
      self' <- add_group (rs k) self ;;
      add_groups rs (S k) count' self'
  end.

(** [ExpressionBuilder.build]; [rs] holds the draws of the extra groups. *)
Definition build (rs : nat -> nat) (self : t) : result t :=
  let self0 :=
    with_expression self (interleave (operators self) (variables self)) in
  self1 <- push_not self0 ;;
  self2 <- close_not self1 ;;
  add_groups rs 0 (Z.to_nat (paren_count self)) self2.

(** [__str__]. *)
Definition to_string (self : t) : string :=
  String.concat " " (expression self).

(** Running depth of the parentheses: [None] once it drops below zero. *)
Fixpoint depth (d : nat) (e : list string) : option nat :=
  match e with
  | [] => Some d
  | tok :: e' =>
      if String.eqb tok "(" then depth (S d) e'
      else if String.eqb tok ")" then
        match d with
        | O => None
        | S d' => depth d' e'
        end
      else depth d e'
  end.

Definition balanced (e : list string) : Prop := depth 0 e = Some 0%nat.

(** Index of the [")"] that closes a ["("] whose inside starts at [e],
    counted from [pos]; [d] parentheses are open inside. *)
Fixpoint closing (d pos : nat) (e : list string) : option nat :=
  match e with
  | [] => None
  | tok :: e' =>
      if String.eqb tok "(" then closing (S d) (S pos) e'
      else if String.eqb tok ")" then
        match d with
        | O => Some pos
        | S d' => closing d' (S pos) e'
        end
      else closing d (S pos) e'
  end.

(** A group spans the whole sequence when the ["("] at index 0 is closed
    by a [")"] at the last index. *)
Definition group_spans_all (e : list string) : bool :=
  match e with
  | tok :: e' =>
      String.eqb tok "("
      && match closing 0 1 e' with
         | Some i => Nat.eqb i (List.length e')
         | None => false
         end
  | [] => false
  end.

(** Tokens with a meaning of their own. *)
Definition reserved (tok : string) : Prop :=
  tok = "NOT" \/ tok = "(" \/ tok = ")".

Definition is_operator (tok : string) : Prop := tok = "AND" \/ tok = "OR".

Definition is_variable (tok : string) : Prop :=
  ~ reserved tok /\ ~ is_operator tok.

(** What the data model asks of the arguments of the constructor. *)
Definition valid_input (variables operators : list string) : Prop :=
  NoDup variables /\ Forall is_variable variables
  /\ Forall is_operator operators.

(** An instance whose fields meet the data model. *)
Record well_formed (self : t) : Prop := {
  wf_nodup : NoDup (variables self);
  wf_variables : Forall is_variable (variables self);
  wf_operators : Forall is_operator (operators self);
  wf_not : In (fst (not_expr self)) (variables self)
}.

(** Two instances that differ in [parentheses] and [expression] only. *)
Definition same_input (self self' : t) : Prop :=
  paren_count self' = paren_count self
  /\ variables self' = variables self
  /\ operators self' = operators self
  /\ not_expr self' = not_expr self.

(** The index [e.index(v)] gives when [v] is in [e]. *)
Definition idx (e : list string) (v : string) : Z :=
  match position string_dec v e with
  | Some n => Z.of_nat n
  | None => 0
  end.

(** The dict that maps each of [vs], in this order, to [g]. *)
Definition graph (g : string -> Z) (vs : list string) : dict Z :=
  map (fun v => (v, g v)) vs.

Definition upd (g : string -> Z) (k : string) (x : Z) (v : string) : Z :=
  if String.eqb k v then x else g v.

Definition memb (vs : list string) (tok : string) : bool :=
  if in_dec string_dec tok vs then true else false.

(** The variables of a token sequence, in the order they come. *)
Definition vars_of (vs : list string) (e : list string) : list string :=
  filter (memb vs) e.

Definition increasing (g : string -> Z) (vs : list string) : Prop :=
  StronglySorted (fun a b => g a < g b) vs.

Definition plain (tok : string) : Prop := tok <> "(" /\ tok <> ")".

(** The one ["NOT"], its ["("] and the negated variable side by side. *)
Definition shape (nv : string) (e : list string) : Prop :=
  exists pre post,
    e = pre ++ "NOT" :: "(" :: nv :: post
    /\ ~ In "NOT" pre /\ ~ In nv pre /\ ~ In "NOT" post.

(** What holds of the token sequence from the closing of the NOT on. *)
Record built (self : t) : Prop := {
  built_vars : vars_of (variables self) (expression self) = variables self;
  built_balanced : balanced (expression self);
  built_shape : shape (fst (not_expr self)) (expression self)
}.

(** The instance of [main], with the draws of [__init__] fixed. *)
Definition abc (pc : Z) (nv : string) (prec : Z) : t :=
  {| paren_count := pc;
     variables := ["A"; "B"; "C"];
     operators := ["AND"; "OR"];
     not_expr := (nv, prec);
     parentheses := [];
     expression := [] |}.

(** Draws that leave the two lists in the order given. *)
Definition first_draws (nv prec : nat) : draws :=
  {| variables_order := fun _ => 0%nat;
     operators_order := fun _ => 0%nat;
     not_variable := nv;
     not_precedence := prec |}.

End ExpressionBuilder.

(** ** Iterating over an evaluator *)

Module Iteration.

Import Evaluator.

(** How a turn of the iterator, or the printing of a table, can fail:
    [self.n] was never set, a built-in raised, or the model ran out of
    turns. *)
Inductive failure : Type :=
| AttributeError
| Builtin (e : exn)
| OutOfFuel.

(** What [__next__] does: return a line, or raise. *)
Inductive step : Type :=
| Yield (line : string)
| StopIteration
| Fail (f : failure).

(** An [Evaluator] object with its attribute [n]; [None] before the first
    [__iter__]. *)
Record instance : Type := {
  self : Evaluator.t;
  n : option Z
}.

Definition fresh (ev : Evaluator.t) : instance := {| self := ev; n := None |}.

(** [str(val)] for what a row holds. *)
Definition cell_str (c : cell) : string :=
  match c with
  | CInt z => PyBool.decimal z
  | CStr s => s
  | CNone => "None"
  end.

(** [" | ".join(str(val) for _, val in row.items())]. *)
Definition row_text (row : dict cell) : string :=
  String.concat " | " (map (fun kv => cell_str (snd kv)) row).

(** [Evaluator.__iter__]. *)
Definition iter (o : instance) : instance := {| self := self o; n := Some 0 |}.

(** [Evaluator.__next__]. *)
Definition next (o : instance) : step * instance :=
  match n o with
  | None => (Fail AttributeError, o)
  | Some k =>
      if k <? Z.of_nat (List.length (lines (self o))) then
        match list_get (lines (self o)) k with
        | OK row => (Yield (row_text row), {| self := self o; n := Some (k + 1) |})
        | Raise e => (Fail (Builtin e), o)
        end
      else (StopIteration, o)
  end.

(** The loop of a consumer such as [str.join]: [next] until
    [StopIteration]. *)
Fixpoint drain (fuel : nat) (o : instance) : (list string + failure) * instance :=
  match fuel with
  | O => (inr OutOfFuel, o)
  | S fuel' =>
      match next o with
      | (Yield line, o1) =>
          match drain fuel' o1 with
          | (inl rest, o2) => (inl (line :: rest), o2)
          | (inr f, o2) => (inr f, o2)
          end
      | (StopIteration, o1) => (inl [], o1)
      | (Fail f, o1) => (inr f, o1)
      end
  end.

(** Going through [iter(o)] to the end; one turn more than there are rows
    is all it can take. *)
Definition collect (o : instance) : (list string + failure) * instance :=
  drain (S (List.length (lines (self o)))) (iter o).

End Iteration.

(** ** The table *)

Module TruthTable.

Import Evaluator.

(** The instance holds the evaluator object. *)
Record t : Type := { evaluator : Iteration.instance }.

(** [TruthTable.__init__]. *)
Definition init (evaluator : Iteration.instance) : t :=
  {| evaluator := evaluator |}.

(** [" | ".join(variables) + " | " + expression]: the first line. *)
Definition header (ev : Evaluator.t) : string :=
  String.append (String.concat " | " (variables ev))
    (String.append " | " (expression ev)).

(** ["-" * k]. *)
Definition dashes (k : Z) : string :=
  string_of_list_ascii (repeat "-"%char (Z.to_nat k)).

(** The second line. *)
Definition rule (ev : Evaluator.t) : string :=
  dashes (Z.of_nat (List.length (variables ev)) * 3 + 5
          + Z.of_nat (String.length (expression ev))).

Definition newline : string := String "010"%char EmptyString.

(** [TruthTable.__str__]: the text, and the evaluator object as the
    iteration leaves it. *)
Definition to_string (self : t) : (string + Iteration.failure) * t :=
  let ev := Iteration.self (evaluator self) in
  match Iteration.collect (evaluator self) with
  | (inl rows, o) =>
      (inl (String.append (header ev)
              (String.append newline
                 (String.append (rule ev)
                    (String.append newline (String.concat newline rows))))),
       {| evaluator := o |})
  | (inr f, o) => (inr f, {| evaluator := o |})
  end.

End TruthTable.

(** The values the boolean fragment gives on a row of 0s and 1s. *)
Definition bit_like (v : PyBool.value) : Prop :=
  v = PyBool.VInt 0 \/ v = PyBool.VInt 1 \/ (exists b, v = PyBool.VBool b)
  \/ v = PyBool.VNone.

(** ** The program *)

Module Main.

(** One turn of the loop of [main]: the text handed to [print], with the
    draws of the constructor and of [build]; [turn_from] is the turn from
    [expression.build()] on. *)
Definition turn_from (H : Evaluator.Host) (rs : nat -> nat)
  (expression : ExpressionBuilder.t) : string + Iteration.failure :=
  match ExpressionBuilder.build rs expression with
  | Raise e => inr (Iteration.Builtin e)
  | OK expression =>
      let evaluator :=
        Evaluator.init (ExpressionBuilder.to_string expression)
          (ExpressionBuilder.variables expression) in
      match Evaluator.eval H evaluator with
      | Raise e => inr (Iteration.Builtin e)
      | OK evaluator =>
          fst (TruthTable.to_string
                 (TruthTable.init (Iteration.fresh evaluator)))
      end
  end.

Definition turn (H : Evaluator.Host) (d : ExpressionBuilder.draws)
  (rs : nat -> nat) : string + Iteration.failure :=
  match ExpressionBuilder.init ["A"; "B"; "C"] ["AND"; "OR"] 2 d with
  | Raise e => inr (Iteration.Builtin e)
  | OK expression => turn_from H rs expression
  end.

(** [main]: ten turns, each with draws of its own; the texts printed, or
    the failure that ended the program. *)
Fixpoint turns (H : Evaluator.Host)
  (draws : nat -> ExpressionBuilder.draws * (nat -> nat)) (k count : nat)
  : list string + Iteration.failure :=
  match count with
  | O => inl []
  | S count' =>
      match turn H (fst (draws k)) (snd (draws k)) with
      | inr f => inr f
      | inl text =>
          match turns H draws (S k) count' with
          | inl rest => inl (text :: rest)
          | inr f => inr f
          end
      end
  end.

Definition main (H : Evaluator.Host)
  (draws : nat -> ExpressionBuilder.draws * (nat -> nat))
  : list string + Iteration.failure :=
  turns H draws 0 10.

End Main.

(** ** Token sequences *)

Module Tokens.

(** Variables and operators in turns: [v0 op0 v1 op1 ...]. *)
Fixpoint chain (vs ops : list string) : list string :=
  match vs, ops with
  | v :: vs', o :: ops' => v :: o :: chain vs' ops'
  | _, _ => vs
  end.

Definition reservedb (tok : string) : bool :=
  String.eqb tok "NOT" || String.eqb tok "(" || String.eqb tok ")".

(** The sequence without ["NOT"], ["("] and [")"]. *)
Definition strip (e : list string) : list string :=
  filter (fun tok => negb (reservedb tok)) e.

(** [e'] is [e] with [k] pairs of parentheses more, nothing else changed. *)
Definition pairs_added (k : nat) (e e' : list string) : Prop :=
  List.length e' = (List.length e + 2 * k)%nat
  /\ strip e' = strip e
  /\ count_occ string_dec e' "(" = (count_occ string_dec e "(" + k)%nat
  /\ count_occ string_dec e' ")" = (count_occ string_dec e ")" + k)%nat.

End Tokens.

(** * Properties *)

(** ** Facts about the built-ins *)

Module PyFacts.

Section SortedFacts.

Context {A : Type}.
Variable le : A -> A -> bool.

Local Abbreviation R := (fun a b : A => le a b = true).

Lemma sorted_insert_perm (x : A) (l : list A) :
  Permutation (x :: l) (sorted_insert le x l).
Proof.
  induction l as [|y l IH]; simpl; [reflexivity|].
  destruct (le x y); [reflexivity|].
  rewrite perm_swap. now apply perm_skip.
Qed.

Lemma sorted_perm (l : list A) : Permutation l (sorted le l).
Proof.
  induction l as [|x l IH]; simpl; [constructor|].
  rewrite <- sorted_insert_perm. now apply perm_skip.
Qed.

(** A list that is in order already is left as it is. *)
Lemma sorted_in_order (l : list A) : Sorted R l -> sorted le l = l.
Proof.
  induction 1 as [|x l Hs IH Hhd]; simpl; [reflexivity|].
  rewrite IH. destruct Hhd as [|y l' Hxy]; simpl; [reflexivity|].
  cbv beta in Hxy. now rewrite Hxy.
Qed.

Hypothesis le_total : forall a b, le a b = true \/ le b a = true.
Hypothesis le_trans : forall a b c, R a b -> R b c -> R a c.

Lemma sorted_insert_strongly (x : A) (l : list A) :
  StronglySorted R l -> StronglySorted R (sorted_insert le x l).
Proof.
  induction 1 as [|y l Hs IH Hall]; simpl.
  - repeat constructor.
  - destruct (le x y) eqn:Hxy.
    + constructor; [now constructor|].
      constructor; [exact Hxy|].
      eapply Forall_impl; [|exact Hall]. intros z Hz. now apply le_trans with y.
    + constructor; [exact IH|].
      assert (Hyx : R y x) by (destruct (le_total x y); [congruence|assumption]).
      rewrite <- (sorted_insert_perm x l). now constructor.
Qed.

Lemma sorted_strongly (l : list A) : StronglySorted R (sorted le l).
Proof.
  induction l as [|x l IH]; simpl; [constructor|].
  now apply sorted_insert_strongly.
Qed.

Hypothesis le_antisym : forall a b, R a b -> R b a -> a = b.

Lemma strongly_sorted_head_least (a : A) (l : list A) (b : A) :
  StronglySorted R (a :: l) -> In b (a :: l) -> R a b.
Proof.
  intros Hs Hin. apply StronglySorted_inv in Hs as [_ Hall].
  destruct Hin as [<-|Hin].
  - destruct (le_total a a); assumption.
  - rewrite Forall_forall in Hall. now apply Hall.
Qed.

(** Two ordered lists with the same elements are the same list. *)
Lemma strongly_sorted_unique (l1 l2 : list A) :
  StronglySorted R l1 -> StronglySorted R l2 -> Permutation l1 l2 -> l1 = l2.
Proof.
  revert l2. induction l1 as [|a l1 IH]; intros l2 H1 H2 Hp.
  - now apply Permutation_nil in Hp.
  - destruct l2 as [|b l2].
    + symmetry in Hp. now apply Permutation_nil in Hp.
    + assert (a = b) as <-.
      { apply le_antisym.
        - apply (strongly_sorted_head_least a l1 b H1).
          apply (Permutation_in b (Permutation_sym Hp)). now left.
        - apply (strongly_sorted_head_least b l2 a H2).
          apply (Permutation_in a Hp). now left. }
      f_equal. apply IH.
      * now apply StronglySorted_inv in H1.
      * now apply StronglySorted_inv in H2.
      * now apply Permutation_cons_inv in Hp.
Qed.

Lemma sorted_perm_eq (l1 l2 : list A) :
  Permutation l1 l2 -> sorted le l1 = sorted le l2.
Proof.
  intros Hp. apply strongly_sorted_unique; try apply sorted_strongly.
  rewrite <- (sorted_perm l1), <- (sorted_perm l2). exact Hp.
Qed.

End SortedFacts.

(** The order of [String.leb] is transitive. *)
Lemma ascii_compare_lt_trans (a b c : ascii) :
  Ascii.compare a b = Lt -> Ascii.compare b c = Lt -> Ascii.compare a c = Lt.
Proof.
  unfold Ascii.compare. rewrite !N.compare_lt_iff. apply N.lt_trans.
Qed.

Lemma string_compare_lt_trans (s1 s2 s3 : string) :
  String.compare s1 s2 = Lt -> String.compare s2 s3 = Lt ->
  String.compare s1 s3 = Lt.
Proof.
  revert s2 s3. induction s1 as [|a s1 IH]; intros [|b s2] [|c s3]; simpl;
    try congruence.
  destruct (Ascii.compare a b) eqn:Hab; try discriminate;
    destruct (Ascii.compare b c) eqn:Hbc; try discriminate; intros H12 H23.
  - apply Ascii.compare_eq_iff in Hab, Hbc. subst.
    rewrite (proj2 (N.compare_eq_iff _ _) eq_refl : Ascii.compare c c = Eq).
    now apply IH with s2.
  - apply Ascii.compare_eq_iff in Hab. subst. now rewrite Hbc.
  - apply Ascii.compare_eq_iff in Hbc. subst. now rewrite Hab.
  - now rewrite (ascii_compare_lt_trans a b c).
Qed.

Lemma string_leb_trans (s1 s2 s3 : string) :
  String.leb s1 s2 = true -> String.leb s2 s3 = true -> String.leb s1 s3 = true.
Proof.
  unfold String.leb.
  destruct (String.compare s1 s2) eqn:H12; try discriminate;
    destruct (String.compare s2 s3) eqn:H23; try discriminate; intros _ _.
  - apply String.compare_eq_iff in H12, H23. subst.
    destruct (String.compare s3 s3) eqn:H; try reflexivity.
    pose proof (String.compare_antisym s3 s3) as Ha. rewrite H in Ha.
    discriminate.
  - apply String.compare_eq_iff in H12. subst. now rewrite H23.
  - apply String.compare_eq_iff in H23. subst. now rewrite H12.
  - now rewrite (string_compare_lt_trans s1 s2 s3).
Qed.

Lemma shuffle_fuel_perm {A : Type} (rs : nat -> nat) (fuel : nat) (l : list A) :
  Permutation l (shuffle_fuel fuel rs l).
Proof.
  revert l. induction fuel as [|fuel IH]; intros l; simpl; [reflexivity|].
  destruct l as [|a l]; [reflexivity|].
  set (k := (rs fuel mod List.length (a :: l))%nat).
  assert (Hk : (k < List.length (a :: l))%nat)
    by (apply Nat.mod_upper_bound; discriminate).
  assert (Hrm : forall (k : nat) (m : list A) (d : A),
             (k < List.length m)%nat ->
             Permutation m (nth k m d :: remove_nth k m)).
  { clear. intros k m. revert k. induction m as [|x m IHm]; intros k d Hk.
    - simpl in Hk. lia.
    - destruct k as [|k]; simpl; [reflexivity|].
      rewrite perm_swap. apply perm_skip. apply IHm. simpl in Hk. lia. }
  rewrite (Hrm k (a :: l) a Hk) at 1. apply perm_skip, IH.
Qed.

Lemma shuffle_perm {A : Type} (rs : nat -> nat) (l : list A) :
  Permutation l (shuffle rs l).
Proof. apply shuffle_fuel_perm. Qed.

End PyFacts.

Module ReplaceFacts.

Lemma append_assoc (a b c : string) :
  String.append (String.append a b) c = String.append a (String.append b c).
Proof. induction a as [|x a IH]; simpl; [reflexivity|now rewrite IH]. Qed.

Lemma occurs_trans (k v s : string) : occurs k v -> occurs v s -> occurs k s.
Proof.
  intros (a & b & ->) (a' & b' & ->).
  exists (String.append a' a), (String.append b b').
  now rewrite !append_assoc.
Qed.

Lemma prefix_occurs (k s : string) : String.prefix k s = true -> occurs k s.
Proof.
  revert s. induction k as [|c k IH]; intros s H.
  - exists EmptyString, s. reflexivity.
  - destruct s as [|c' s]; simpl in H; [discriminate|].
    destruct (ascii_dec c c') as [<-|]; [|discriminate].
    destruct (IH s H) as (a & b & ->).
    destruct a as [|x a].
    + exists EmptyString, b. reflexivity.
    + (* a prefix starts at the front *)
      clear IH. revert H. generalize (String.append (String x a) (String.append k b)).
      intros s H. clear x a b.
      assert (Hs : exists b, s = String.append k b).
      { revert s H. induction k as [|d k IHk]; intros s H.
        - now exists s.
        - destruct s as [|d' s]; simpl in H; [discriminate|].
          destruct (ascii_dec d d') as [<-|]; [|discriminate].
          destruct (IHk s H) as (b & ->). now exists b. }
      destruct Hs as (b & ->). exists EmptyString, b. reflexivity.
Qed.

Lemma drop_append (a s : string) : drop (String.length a) (String.append a s) = s.
Proof. induction a as [|c a IH]; simpl; [now destruct s|exact IH]. Qed.

Lemma prefix_append (a s : string) : String.prefix a (String.append a s) = true.
Proof.
  induction a as [|c a IH]; simpl; [now destruct s|].
  destruct (ascii_dec c c); [exact IH|congruence].
Qed.

Lemma prefix_split (a s : string) :
  String.prefix a s = true -> s = String.append a (drop (String.length a) s).
Proof.
  revert s. induction a as [|c a IH]; intros s H; simpl.
  - now destruct s.
  - destruct s as [|c' s]; simpl in H; [discriminate|].
    destruct (ascii_dec c c') as [<-|]; [|discriminate].
    f_equal. now apply IH.
Qed.

Lemma drop_length (k : nat) (s : string) :
  (String.length (drop k s) <= String.length s)%nat.
Proof.
  revert s. induction k as [|k IH]; intros [|c s]; simpl; auto.
Qed.

Lemma replace_from_drop (old new : string) (k : nat) (s : string) :
  replace_from k old new s = replace old new (drop k s).
Proof.
  revert k. induction s as [|c s IH]; intros [|k]; try reflexivity.
  simpl. apply IH.
Qed.

Lemma replace_cons (old new : string) (c : ascii) (s : string) :
  replace old new (String c s) =
  if String.prefix old (String c s)
  then String.append new
         (replace old new (drop (Nat.pred (String.length old)) s))
  else String c (replace old new s).
Proof.
  unfold replace at 1. cbn [replace_from]. now rewrite replace_from_drop.
Qed.

(** [replace] does what the relation describes. *)
Lemma replace_replaced (old new s : string) :
  old <> EmptyString -> replaced old new s (replace old new s).
Proof.
  intros Hold.
  remember (String.length s) as n eqn:Hn.
  revert s Hn. induction n as [n IH] using lt_wf_ind. intros s Hn.
  destruct s as [|c s]; [constructor|].
  rewrite replace_cons.
  destruct (String.prefix old (String c s)) eqn:Hp.
  - pose proof (prefix_split _ _ Hp) as Hs.
    assert (Hd : drop (String.length old) (String c s)
                 = drop (Nat.pred (String.length old)) s)
      by (destruct old; [congruence|reflexivity]).
    rewrite Hd in Hs.
    remember (drop (Nat.pred (String.length old)) s) as r eqn:Hr.
    rewrite Hs. apply replaced_match.
    apply (IH (String.length r)); [|reflexivity].
    subst n r. simpl. pose proof (drop_length (Nat.pred (String.length old)) s).
    lia.
  - apply replaced_keep; [exact Hp|].
    apply (IH (String.length s)); [subst n; simpl; lia|reflexivity].
Qed.

Lemma apartb_apart (w new : string) : apartb w new = true -> apart w new.
Proof.
  unfold apartb, apart. rewrite forallb_forall. intros H c Hc Hin.
  specialize (H c Hc). apply negb_true_iff in H.
  assert (existsb (Ascii.eqb c) (list_ascii_of_string new) = true); [|congruence].
  apply existsb_exists. exists c. split; [exact Hin|apply Ascii.eqb_refl].
Qed.

Section Replaced.

Variables old new : string.
Hypothesis new_nonempty : new <> EmptyString.

(** A word that shares no character with [new] and starts the result
    starts the source, at a place where no match begins. *)
Lemma replaced_prefix (s t : string) :
  replaced old new s t ->
  forall w, w <> EmptyString -> apart w new -> String.prefix w t = true ->
  String.prefix w s = true /\ (old <> EmptyString -> String.prefix old s = false).
Proof.
  induction 1 as [|s t Hr IH|c s t Hp Hr IH]; intros w Hw Hap Hpre.
  - destruct w; [congruence|discriminate].
  - exfalso. destruct w as [|x w]; [congruence|].
    destruct new as [|y new']; [congruence|].
    simpl in Hpre. destruct (ascii_dec x y) as [<-|]; [|discriminate].
    apply (Hap x); simpl; now left.
  - destruct w as [|x w]; [congruence|].
    simpl in Hpre. destruct (ascii_dec x c) as [<-|]; [|discriminate].
    split; [|intros _; exact Hp].
    simpl. destruct (ascii_dec x x); [|congruence].
    destruct w as [|y w]; [now destruct s|].
    apply IH; [discriminate| |exact Hpre].
    intros d Hd. apply Hap. simpl. right. exact Hd.
Qed.

Lemma occurs_past (w t : string) :
  w <> EmptyString -> apart w new ->
  forall n, (exists m, new = String.append m n) ->
  occurs w (String.append n t) -> occurs w t.
Proof.
  intros Hw Hap n. induction n as [|y n IH]; intros Hsuf Hocc; [exact Hocc|].
  destruct Hocc as (a & b & Heq).
  destruct a as [|x a].
  - exfalso. destruct w as [|x w]; [congruence|].
    simpl in Heq. injection Heq as -> _.
    apply (Hap x); [simpl; now left|].
    destruct Hsuf as (m & ->). clear. induction m; simpl; auto.
  - simpl in Heq. injection Heq as _ Heq.
    apply IH.
    + destruct Hsuf as (m & ->). exists (String.append m (String y EmptyString)).
      now rewrite append_assoc.
    + now exists a, b.
Qed.

(** Where such a word occurs in the result, it occurs in the source, at a
    place where no match begins. *)
Lemma replaced_occurs (s t : string) :
  replaced old new s t ->
  forall w, w <> EmptyString -> apart w new -> occurs w t ->
  exists a s', s = String.append a s' /\ String.prefix w s' = true
               /\ (old <> EmptyString -> String.prefix old s' = false).
Proof.
  induction 1 as [|s t Hr IH|c s t Hp Hr IH]; intros w Hw Hap Hocc.
  - destruct Hocc as (a & b & Heq). destruct a; destruct w; try congruence;
      discriminate.
  - apply occurs_past in Hocc; [|exact Hw|exact Hap|now exists EmptyString].
    destruct (IH w Hw Hap Hocc) as (a & s' & -> & H1 & H2).
    exists (String.append old a), s'. rewrite append_assoc. auto.
  - destruct Hocc as (a & b & Heq). destruct a as [|x a].
    + assert (Hpre : String.prefix w (String c t) = true).
      { simpl in Heq. rewrite Heq. apply prefix_append. }
      destruct (replaced_prefix _ _ (replaced_keep old new c s t Hp Hr) w Hw Hap Hpre)
        as [H1 H2].
      exists EmptyString, (String c s). auto.
    + simpl in Heq. injection Heq as <- Heq.
      destruct (IH w Hw Hap) as (a' & s' & -> & H1 & H2); [now exists a, b|].
      exists (String c a'), s'. auto.
Qed.

Lemma replaced_keeps_out (s t w : string) :
  replaced old new s t -> w <> EmptyString -> apart w new ->
  occurs w t -> occurs w s.
Proof.
  intros Hr Hw Hap Hocc.
  destruct (replaced_occurs s t Hr w Hw Hap Hocc) as (a & s' & -> & H1 & _).
  apply occurs_trans with s'; [now apply prefix_occurs|].
  exists a, EmptyString. clear. induction a; simpl; [|now f_equal].
  induction s'; simpl; now f_equal.
Qed.

Lemma replaced_removes (s t : string) :
  replaced old new s t -> old <> EmptyString -> apart old new -> ~ occurs old t.
Proof.
  intros Hr Hold Hap Hocc.
  destruct (replaced_occurs s t Hr old Hold Hap Hocc) as (a & s' & -> & H1 & H2).
  rewrite (H2 Hold) in H1. discriminate.
Qed.

End Replaced.

End ReplaceFacts.

Module ListFacts.

Lemma ins_beyond {A : Type} (k : nat) (x : A) (l : list A) :
  (List.length l <= k)%nat -> ins k x l = l ++ [x].
Proof.
  intros Hk. unfold ins. now rewrite firstn_all2, skipn_all2 by lia.
Qed.

Lemma list_insert_ins {A : Type} (i : Z) (x : A) (l : list A) :
  0 <= i -> list_insert i x l = ins (Z.to_nat i) x l.
Proof.
  intros Hi. unfold list_insert, insert_slot.
  rewrite (proj2 (Z.ltb_ge i 0)) by lia.
  destruct (Z_le_gt_dec i (Z.of_nat (List.length l))) as [Hle|Hgt].
  - now rewrite Z.min_l by lia.
  - rewrite Z.min_r, Nat2Z.id by lia. fold (ins (List.length l) x l).
    rewrite !ins_beyond by lia. reflexivity.
Qed.

Lemma ins_app_l {A : Type} (k : nat) (x : A) (l1 l2 : list A) :
  (k <= List.length l1)%nat -> ins k x (l1 ++ l2) = ins k x l1 ++ l2.
Proof.
  intros Hk. unfold ins. rewrite firstn_app, skipn_app.
  replace (k - List.length l1)%nat with 0%nat by lia. simpl.
  now rewrite app_nil_r, <- app_assoc.
Qed.

Lemma ins_app_r {A : Type} (k : nat) (x : A) (l1 l2 : list A) :
  (List.length l1 <= k)%nat ->
  ins k x (l1 ++ l2) = l1 ++ ins (k - List.length l1) x l2.
Proof.
  intros Hk. unfold ins. rewrite firstn_app, skipn_app.
  rewrite firstn_all2, skipn_all2 by lia. simpl. now rewrite <- app_assoc.
Qed.

Lemma ins_length {A : Type} (k : nat) (x : A) (l : list A) :
  List.length (ins k x l) = S (List.length l).
Proof.
  unfold ins. rewrite length_app. simpl.
  rewrite <- (firstn_skipn k l) at 3. rewrite length_app. lia.
Qed.

Lemma in_ins {A : Type} (k : nat) (x y : A) (l : list A) :
  In y (ins k x l) <-> y = x \/ In y l.
Proof.
  unfold ins. rewrite in_app_iff. simpl.
  rewrite <- (firstn_skipn k l) at 3. rewrite in_app_iff. intuition congruence.
Qed.

Lemma filter_ins {A : Type} (f : A -> bool) (k : nat) (x : A) (l : list A) :
  f x = false -> filter f (ins k x l) = filter f l.
Proof.
  intros Hx. unfold ins. rewrite filter_app. simpl. rewrite Hx.
  rewrite <- filter_app. now rewrite firstn_skipn.
Qed.

Section Position.

Context {A : Type}.
Variable eq_dec : forall x y : A, {x = y} + {x <> y}.

Lemma position_app (x : A) (l1 l2 : list A) :
  ~ In x l1 -> position eq_dec x (l1 ++ x :: l2) = Some (List.length l1).
Proof.
  induction l1 as [|y l1 IH]; intros Hin; simpl.
  - destruct (eq_dec x x); [reflexivity|congruence].
  - destruct (eq_dec y x) as [->|Hne]; [exfalso; apply Hin; now left|].
    rewrite IH; [reflexivity|]. intros H. apply Hin. now right.
Qed.

Lemma position_split (x : A) (l : list A) (n : nat) :
  position eq_dec x l = Some n ->
  exists l1 l2, l = l1 ++ x :: l2 /\ List.length l1 = n /\ ~ In x l1.
Proof.
  revert n. induction l as [|y l IH]; intros n H; simpl in H; [discriminate|].
  destruct (eq_dec y x) as [->|Hne].
  - injection H as <-. exists [], l. auto.
  - destruct (position eq_dec x l) as [m|]; [|discriminate].
    injection H as <-. destruct (IH m eq_refl) as (l1 & l2 & -> & Hl & Hin).
    exists (y :: l1), l2. repeat split; simpl; [congruence|].
    intros [H|H]; [congruence|contradiction].
Qed.

Lemma position_in (x : A) (l : list A) :
  In x l -> exists n, position eq_dec x l = Some n.
Proof.
  induction l as [|y l IH]; intros Hin; [destruct Hin|]. simpl.
  destruct (eq_dec y x) as [Heq|Hne]; [now exists 0%nat|].
  destruct IH as (n & ->); [destruct Hin; [congruence|assumption]|].
  now exists (S n).
Qed.

Lemma position_nth (x : A) (l : list A) (n : nat) :
  position eq_dec x l = Some n -> nth_error l n = Some x.
Proof.
  intros H. destruct (position_split x l n H) as (l1 & l2 & -> & <- & _).
  now rewrite nth_error_app2, Nat.sub_diag by lia.
Qed.

Lemma position_nodup (l : list A) (k : nat) (x : A) :
  NoDup l -> nth_error l k = Some x -> position eq_dec x l = Some k.
Proof.
  intros Hnd Hk. destruct (nth_error_split l k Hk) as (l1 & l2 & -> & <-).
  apply position_app. apply NoDup_remove_2 in Hnd.
  intros H. apply Hnd. apply in_or_app. now left.
Qed.

End Position.

End ListFacts.

Module DictFacts.

Import ExpressionBuilder.
Import ListFacts.

Lemma graph_keys (g : string -> Z) (vs : list string) :
  dict_keys (graph g vs) = vs.
Proof.
  unfold dict_keys, graph. rewrite map_map. simpl. apply map_id.
Qed.

Lemma graph_find (g : string -> Z) (vs : list string) (v : string) :
  In v vs -> dict_find v (graph g vs) = Some (g v).
Proof.
  induction vs as [|w vs IH]; intros Hin; [destruct Hin|]. simpl.
  destruct (String.eqb w v) eqn:Hw.
  - apply String.eqb_eq in Hw. now subst.
  - apply IH. destruct Hin as [->|H]; [|exact H].
    now rewrite String.eqb_refl in Hw.
Qed.

Lemma graph_get (g : string -> Z) (vs : list string) (v : string) :
  In v vs -> dict_get v (graph g vs) = OK (g v).
Proof. intros H. unfold dict_get. now rewrite graph_find. Qed.

Lemma graph_ext (g g' : string -> Z) (vs : list string) :
  (forall v, In v vs -> g v = g' v) -> graph g vs = graph g' vs.
Proof.
  intros H. unfold graph. apply map_ext_in. intros v Hv. now rewrite H.
Qed.

Lemma graph_set (g : string -> Z) (vs : list string) (k : string) (x : Z) :
  NoDup vs -> In k vs -> dict_set k x (graph g vs) = graph (upd g k x) vs.
Proof.
  induction vs as [|w vs IH]; intros Hnd Hin; [destruct Hin|].
  apply NoDup_cons_iff in Hnd as [Hw Hnd]. simpl. unfold upd at 1.
  destruct (String.eqb w k) eqn:Hwk.
  - apply String.eqb_eq in Hwk. subst w. rewrite String.eqb_refl.
    f_equal. apply graph_ext. intros v Hv. unfold upd.
    destruct (String.eqb k v) eqn:Hkv; [|reflexivity].
    apply String.eqb_eq in Hkv. subst. contradiction.
  - rewrite String.eqb_sym, Hwk. f_equal. apply IH; [exact Hnd|].
    destruct Hin as [->|H]; [|exact H]. now rewrite String.eqb_refl in Hwk.
Qed.

Lemma graph_position (g : string -> Z) (vs : list string) (v : string) :
  position ExpressionBuilder.pair_dec (v, g v) (graph g vs)
  = position string_dec v vs.
Proof.
  induction vs as [|w vs IH]; [reflexivity|].
  change (graph g (w :: vs)) with ((w, g w) :: graph g vs). cbn [position].
  destruct (ExpressionBuilder.pair_dec (w, g w) (v, g v)) as [Heq|Hne];
    destruct (string_dec w v) as [->|Hwv]; try reflexivity.
  - congruence.
  - congruence.
  - now rewrite IH.
Qed.

Lemma graph_list_get (g : string -> Z) (vs : list string) (k : nat) (w : string) :
  nth_error vs k = Some w -> list_get (graph g vs) (Z.of_nat k) = OK (w, g w).
Proof.
  intros Hk. unfold list_get.
  assert (Hlen : (k < List.length vs)%nat) by (apply nth_error_Some; congruence).
  unfold graph. rewrite length_map.
  rewrite !(proj2 (Z.ltb_ge (Z.of_nat k) 0)) by lia.
  rewrite (proj2 (Z.leb_gt _ _)) by lia. simpl.
  now rewrite Nat2Z.id, nth_error_map, Hk.
Qed.

Lemma dict_set_fresh {V : Type} (k : string) (v : V) (d : dict V) :
  ~ In k (dict_keys d) -> dict_set k v d = d ++ [(k, v)].
Proof.
  induction d as [|[k' v'] d IH]; intros Hin; simpl; [reflexivity|].
  destruct (String.eqb k' k) eqn:Hk.
  - apply String.eqb_eq in Hk. subst. exfalso. apply Hin. now left.
  - f_equal. apply IH. intros H. apply Hin. now right.
Qed.

Lemma dict_of_pairs_nodup {V : Type} (pairs : list (string * V)) :
  NoDup (map fst pairs) -> dict_of_pairs pairs = pairs.
Proof.
  unfold dict_of_pairs.
  assert (H : forall acc : dict V,
             NoDup (map fst (acc ++ pairs)) ->
             fold_left (fun d kv => dict_set (fst kv) (snd kv) d) pairs acc
             = acc ++ pairs).
  { induction pairs as [|[k v] pairs IH]; intros acc Hnd; simpl.
    - now rewrite app_nil_r.
    - rewrite dict_set_fresh.
      + rewrite IH; rewrite <- app_assoc; [reflexivity|exact Hnd].
      + rewrite map_app in Hnd. simpl in Hnd.
        apply NoDup_remove_2 in Hnd. intros H. apply Hnd.
        apply in_or_app. now left. }
  intros Hnd. now apply (H []).
Qed.

End DictFacts.

(** ** The evaluator *)

Module EvaluatorFacts.

Import Evaluator.

Lemma list_modify_last {A : Type} (f : A -> A) (l : list A) (d : A) :
  list_modify (List.length l) f (l ++ [d]) = OK (l ++ [f d]).
Proof.
  induction l as [|a l IH]; simpl; [reflexivity|]. now rewrite IH.
Qed.

Lemma list_get_last {A : Type} (l : list A) (d : A) :
  list_get (l ++ [d]) (Z.of_nat (List.length l)) = OK d.
Proof.
  unfold list_get. rewrite length_app. simpl List.length.
  rewrite !(proj2 (Z.ltb_ge (Z.of_nat (List.length l)) 0)) by lia.
  rewrite (proj2 (Z.leb_gt _ _)) by lia.
  simpl. rewrite Nat2Z.id, nth_error_app2, Nat.sub_diag by lia. reflexivity.
Qed.

Lemma assign_row_last (n j : nat) (vars : list string)
  (l : list (dict cell)) (d : dict cell) :
  assign_row (List.length l) n j vars (l ++ [d])
  = OK (l ++ [assignment_from (List.length l) n j vars d]).
Proof.
  revert j d. induction vars as [|v vars IH]; intros j d; simpl;
    [reflexivity|].
  rewrite list_modify_last. simpl. apply IH.
Qed.

(** One turn of the loop appends the finished row. *)
Lemma eval_row_last (H : Host) (self : t) (l : list (dict cell)) :
  eval_row H self (List.length l) l
  = (evaluated <- host_eval H (py_expression self)
                    (globals (variables self) (List.length l)) ;;
     shown <- host_format H (String.length (expression self)) evaluated ;;
     OK (l ++ [dict_set " " (CStr shown)
                 (assignment (variables self) (List.length l))])).
Proof.
  unfold eval_row. rewrite assign_row_last. simpl bind at 1.
  rewrite list_get_last. simpl bind at 1. fold (assignment (variables self) (List.length l)).
  fold (globals (variables self) (List.length l)).
  destruct (host_eval H _ _) as [r|x]; simpl; [|reflexivity].
  destruct (host_format H _ r) as [shown|x]; simpl; [|reflexivity].
  apply list_modify_last.
Qed.

Lemma eval_loop_from (H : Host) (self : t) (m : nat) :
  forall l : list (dict cell),
  match eval_loop H self (seq (List.length l) m) l with
  | OK l' =>
      List.length l' = (List.length l + m)%nat
      /\ (forall i, (i < List.length l)%nat -> nth_error l' i = nth_error l i)
      /\ (forall i, (List.length l <= i < List.length l + m)%nat ->
            exists row, nth_error l' i = Some row /\ row_done H self i row)
  | Raise x =>
      exists i, (List.length l <= i < List.length l + m)%nat
                /\ row_raised H self i x
  end.
Proof.
  induction m as [|m IH]; intros l; simpl.
  - split; [lia|]. split; [reflexivity|]. intros i Hi. lia.
  - rewrite eval_row_last.
    destruct (host_eval H _ _) as [r|x] eqn:Hev; simpl.
    2:{ exists (List.length l). split; [lia|now left]. }
    destruct (host_format H _ r) as [shown|x] eqn:Hfmt; simpl.
    2:{ exists (List.length l). split; [lia|right; now exists r]. }
    set (row := dict_set " " (CStr shown) (assignment (variables self) (List.length l))).
    specialize (IH (l ++ [row])).
    rewrite length_app in IH. simpl List.length in IH.
    replace (List.length l + 1)%nat with (S (List.length l)) in IH by lia.
    destruct (eval_loop H self (seq (S (List.length l)) m) (l ++ [row]))
      as [l'|x].
    + destruct IH as (Hlen & Hold & Hnew). repeat split; [lia| |].
      * intros i Hi. rewrite Hold by lia. now rewrite nth_error_app1.
      * intros i Hi. destruct (Nat.eq_dec i (List.length l)) as [->|Hne].
        -- exists row. split.
           ++ rewrite Hold by lia.
              now rewrite nth_error_app2, Nat.sub_diag by lia.
           ++ now exists r, shown.
        -- apply Hnew. lia.
    + destruct IH as (i & Hi & Hr). exists i. split; [lia|exact Hr].
Qed.

(** [eval] either fills the table or stops on the host's exception. *)
Lemma eval_outcome (H : Host) (self : t) :
  match eval H self with
  | OK self' =>
      self' = with_lines self (lines self')
      /\ List.length (lines self') = (2 ^ List.length (variables self))%nat
      /\ (forall i, (i < 2 ^ List.length (variables self))%nat ->
            exists row, nth_error (lines self') i = Some row
                        /\ row_done H self i row)
  | Raise x =>
      exists i, (i < 2 ^ List.length (variables self))%nat
                /\ row_raised H self i x
  end.
Proof.
  unfold eval.
  pose proof (eval_loop_from H self (2 ^ List.length (variables self)) []) as Hl.
  simpl List.length in Hl.
  destruct (eval_loop H self _ []) as [l'|x]; simpl.
  - destruct Hl as (Hlen & _ & Hnew). repeat split; [exact Hlen|].
    intros i Hi. apply Hnew. lia.
  - destruct Hl as (i & Hi & Hr). exists i. split; [lia|exact Hr].
Qed.

Lemma dict_find_set {V : Type} (k k' : string) (v : V) (d : dict V) :
  dict_find k (dict_set k' v d)
  = if String.eqb k' k then Some v else dict_find k d.
Proof.
  induction d as [|[k0 v0] d IH]; simpl.
  - reflexivity.
  - destruct (String.eqb k0 k') eqn:H0; simpl.
    + apply String.eqb_eq in H0. subst k0.
      destruct (String.eqb k' k); reflexivity.
    + destruct (String.eqb k0 k) eqn:H1; [|exact IH].
      apply String.eqb_eq in H1. subst k0. now rewrite String.eqb_sym, H0.
Qed.




End EvaluatorFacts.

Module HostFacts.

Import Evaluator PyFacts EvaluatorFacts.

(** [eval] raises exactly when the host does on some row. *)
Lemma eval_raises_iff (H : Host) (self : t) :
  (exists x, eval H self = Raise x)
  <-> (exists i x, (i < 2 ^ List.length (variables self))%nat
                   /\ row_raised H self i x).
Proof.
  pose proof (eval_outcome H self) as Ho. split.
  - intros (x & He). rewrite He in Ho. destruct Ho as (i & Hi & Hr).
    now exists i, x.
  - intros (i & x & Hi & Hr).
    destruct (eval H self) as [self'|x']; [|now exists x'].
    exfalso. destruct Ho as (_ & _ & Hrow).
    destruct (Hrow i Hi) as (row & _ & r & shown & Hev & Hfmt & _).
    destruct Hr as [Hr|(r' & Hev' & Hfmt')]; [congruence|].
    rewrite Hev in Hev'. injection Hev' as <-. congruence.
Qed.

(** The keys of a row are the variables, and they hold integers. *)
Lemma assignment_from_none (i n : nat) (vars : list string) (s : string) :
  forall (j : nat) (d : dict cell),
  dict_find s (assignment_from i n j vars d) = None
  <-> ~ In s vars /\ dict_find s d = None.
Proof.
  induction vars as [|w vars IH]; intros j d; cbn [assignment_from In].
  - tauto.
  - rewrite IH, dict_find_set.
    destruct (String.eqb w s) eqn:Hw.
    + apply String.eqb_eq in Hw. split; [intros (_ & Hd); discriminate|].
      intros (Hn & _). exfalso. apply Hn. now left.
    + apply String.eqb_neq in Hw. tauto.
Qed.

Lemma assignment_from_cell (i n : nat) (vars : list string) (s : string)
  (c : cell) :
  forall (j : nat) (d : dict cell),
  dict_find s (assignment_from i n j vars d) = Some c ->
  (exists z, c = CInt z) \/ dict_find s d = Some c.
Proof.
  induction vars as [|w vars IH]; intros j d Hc; cbn [assignment_from] in Hc.
  - now right.
  - apply IH in Hc. destruct Hc as [Hc|Hc]; [now left|].
    rewrite dict_find_set in Hc.
    destruct (String.eqb w s); [|now right].
    injection Hc as <-. left. eauto.
Qed.

(** What the globals of a row hold. *)
Lemma globals_builtins (vars : list string) (i : nat) :
  dict_find "__builtins__" (globals vars i) = Some CNone.
Proof. unfold globals. now rewrite dict_find_set, String.eqb_refl. Qed.

Lemma globals_none (vars : list string) (i : nat) (s : string) :
  dict_find s (globals vars i) = None
  <-> s <> "__builtins__" /\ ~ In s vars.
Proof.
  unfold globals, assignment. rewrite dict_find_set.
  destruct (String.eqb "__builtins__" s) eqn:Hs.
  - apply String.eqb_eq in Hs. split; [discriminate|].
    intros (Hn & _). now symmetry in Hs.
  - apply String.eqb_neq in Hs. rewrite assignment_from_none.
    cbn [dict_find]. split.
    + intros (Hn & _). split; [|exact Hn]. intros ->. now apply Hs.
    + intros (_ & Hn). now split.
Qed.

Lemma globals_holds_none (vars : list string) (i : nat) (s : string) :
  dict_find s (globals vars i) = Some CNone -> s = "__builtins__".
Proof.
  unfold globals, assignment. rewrite dict_find_set.
  destruct (String.eqb "__builtins__" s) eqn:Hs.
  - apply String.eqb_eq in Hs. now intros _.
  - intros Hc. apply assignment_from_cell in Hc.
    destruct Hc as [(z & Hz)|Hc]; discriminate.
Qed.

(** The evaluation of an expression raises exactly when it comes to a name
    the globals do not hold; with [None] for the built-ins that is a
    [TypeError]. *)
Lemma run_outcome (g : dict cell) (a : PyBool.ast) :
  dict_find "__builtins__" g = Some CNone ->
  match PyBool.run g a with
  | OK _ => forall s, In s (PyBool.reached g a) -> dict_find s g <> None
  | Raise x =>
      x = TypeError
      /\ exists s, In s (PyBool.reached g a) /\ dict_find s g = None
  end.
Proof.
  intros Hb.
  induction a as [s|a IH|a IHa b IHb|a IHa b IHb];
    cbn [PyBool.run PyBool.reached].
  - destruct (dict_find s g) as [c|] eqn:Hc.
    + intros s' [<-|[]]. congruence.
    + unfold PyBool.missing_name. rewrite Hb. split; [reflexivity|].
      exists s. split; [now left|exact Hc].
  - destruct (PyBool.run g a) as [v|x]; cbn [bind]; exact IH.
  - destruct (PyBool.run g a) as [v|x]; cbn [bind].
    + destruct (PyBool.truthy v).
      * destruct (PyBool.run g b) as [w|y].
        -- intros s Hs. apply in_app_or in Hs. destruct Hs; auto.
        -- destruct IHb as (-> & s & Hs & Hn). split; [reflexivity|].
           exists s. split; [apply in_or_app; now right|exact Hn].
      * intros s Hs. rewrite app_nil_r in Hs. auto.
    + destruct IHa as (-> & s & Hs & Hn). split; [reflexivity|].
      exists s. split; [apply in_or_app; now left|exact Hn].
  - destruct (PyBool.run g a) as [v|x]; cbn [bind].
    + destruct (PyBool.truthy v).
      * intros s Hs. rewrite app_nil_r in Hs. auto.
      * destruct (PyBool.run g b) as [w|y].
        -- intros s Hs. apply in_app_or in Hs. destruct Hs; auto.
        -- destruct IHb as (-> & s & Hs & Hn). split; [reflexivity|].
           exists s. split; [apply in_or_app; now right|exact Hn].
    + destruct IHa as (-> & s & Hs & Hn). split; [reflexivity|].
      exists s. split; [apply in_or_app; now left|exact Hn].
Qed.

Lemma reached_names (g : dict cell) (a : PyBool.ast) (s : string) :
  In s (PyBool.reached g a) -> In s (PyBool.names a).
Proof.
  induction a as [s'|a IH|a IHa b IHb|a IHa b IHb];
    cbn [PyBool.reached PyBool.names]; auto.
  - intros Hs. apply in_app_or in Hs. apply in_or_app.
    destruct Hs as [Hs|Hs]; [left; auto|right].
    destruct (PyBool.run g a) as [v|x]; [|destruct Hs].
    destruct (PyBool.truthy v); [auto|destruct Hs].
  - intros Hs. apply in_app_or in Hs. apply in_or_app.
    destruct Hs as [Hs|Hs]; [left; auto|right].
    destruct (PyBool.run g a) as [v|x]; [|destruct Hs].
    destruct (PyBool.truthy v); [destruct Hs|auto].
Qed.

(** [None] can only come from a name that holds it. *)
Lemma run_none (g : dict cell) (a : PyBool.ast) :
  PyBool.run g a = OK PyBool.VNone ->
  exists s, In s (PyBool.names a) /\ dict_find s g = Some CNone.
Proof.
  induction a as [s|a IH|a IHa b IHb|a IHa b IHb];
    cbn [PyBool.run PyBool.names]; intros Hv.
  - destruct (dict_find s g) as [c|] eqn:Hc.
    + injection Hv as Hv. destruct c; try discriminate Hv.
      exists s. split; [now left|exact Hc].
    + unfold PyBool.missing_name in Hv.
      destruct (dict_find "__builtins__" g) as [[| |]|]; discriminate.
  - destruct (PyBool.run g a) as [v|x]; cbn [bind] in Hv; discriminate.
  - destruct (PyBool.run g a) as [v|x]; cbn [bind] in Hv; [|discriminate].
    destruct (PyBool.truthy v).
    + destruct (IHb Hv) as (s & Hs & Hc). exists s.
      split; [apply in_or_app; now right|exact Hc].
    + injection Hv as ->. destruct (IHa eq_refl) as (s & Hs & Hc). exists s.
      split; [apply in_or_app; now left|exact Hc].
  - destruct (PyBool.run g a) as [v|x]; cbn [bind] in Hv; [|discriminate].
    destruct (PyBool.truthy v).
    + injection Hv as ->. destruct (IHa eq_refl) as (s & Hs & Hc). exists s.
      split; [apply in_or_app; now left|exact Hc].
    + destruct (IHb Hv) as (s & Hs & Hc). exists s.
      split; [apply in_or_app; now right|exact Hc].
Qed.

(** On a text of the fragment a row raises when the evaluation does: the
    value of an expression that does not name [__builtins__] can be
    formatted. *)
Lemma row_raised_run (e : string) (vs : list string)
  (ts : list PyBool.token) (a : PyBool.ast) (i : nat) (x : exn) :
  PyBool.lex [] (py_expression (init e vs)) = OK ts ->
  PyBool.parse ts = OK a ->
  ~ In "__builtins__" (PyBool.names a) ->
  row_raised PyBool.host (init e vs) i x
  <-> PyBool.run (globals (variables (init e vs)) i) a = Raise x.
Proof.
  intros Hlex Hparse Hnb. unfold row_raised.
  cbn [host_eval host_format PyBool.host]. unfold PyBool.py_eval.
  rewrite Hlex. cbn [bind]. rewrite Hparse. cbn [bind].
  split; [|now left].
  intros [Hr|(r & Hr & Hf)]; [exact Hr|]. exfalso.
  destruct r; try discriminate Hf.
  destruct (run_none _ _ Hr) as (s & Hs & Hc).
  apply globals_holds_none in Hc. subst s. contradiction.
Qed.

End HostFacts.

Module EvaluatorSpec.

Import Evaluator PyFacts ReplaceFacts EvaluatorFacts HostFacts.




(** C5.  Whatever order the generator shuffled the names into, the
    evaluator's variable list is the ascending ordering of the names
    supplied: it is in order, holds the same names, and is the list got
    from the names as they were given. *)
Theorem variables_sorted (e : string) (vs : list string) (rs : nat -> nat) :
  let self := init e (shuffle rs vs) in
  StronglySorted (fun a b => String.leb a b = true) (variables self)
  /\ Permutation vs (variables self)
  /\ variables self = variables (init e vs).
Proof.
  simpl. unfold sorted_strings. split; [|split].
  - apply sorted_strongly; [apply String.leb_total|apply string_leb_trans].
  - rewrite <- sorted_perm. apply shuffle_perm.
  - apply sorted_perm_eq;
      [apply String.leb_total|apply string_leb_trans|apply String.leb_antisym|].
    symmetry. apply shuffle_perm.
Qed.


(** C8, as amended.  There is no check of the text against the variable
    list and no error kind of the evaluator's own: [eval] passes on what
    Python's evaluation raises.  On the fragment of [not], [and], [or] and
    parentheses, a text that is not an expression makes [eval] raise
    [SyntaxError]; a text that is one makes it raise exactly when on some
    row the evaluation comes to a name outside the variable list, and then
    it is a [TypeError]. *)
Theorem eval_fails_on_fragment (e : string) (vs : list string)
  (ts : list PyBool.token) :
  PyBool.lex [] (py_expression (init e vs)) = OK ts ->
  (PyBool.parse ts = Raise SyntaxError ->
   eval PyBool.host (init e vs) = Raise SyntaxError)
  /\ (forall a,
        PyBool.parse ts = OK a -> ~ In "__builtins__" (PyBool.names a) ->
        (forall x, eval PyBool.host (init e vs) = Raise x -> x = TypeError)
        /\ ((exists x, eval PyBool.host (init e vs) = Raise x)
            <-> exists i s,
                  (i < 2 ^ List.length vs)%nat
                  /\ In s (PyBool.reached
                             (globals (variables (init e vs)) i) a)
                  /\ ~ In s vs)).
Proof.
  intros Hlex.
  assert (Hperm : Permutation vs (variables (init e vs)))
    by apply sorted_perm.
  assert (Hlen : List.length (variables (init e vs)) = List.length vs)
    by (symmetry; now apply Permutation_length).
  pose proof (eval_outcome PyBool.host (init e vs)) as Ho.
  rewrite Hlen in Ho.
  split.
  - intros Hparse.
    assert (Hrow : forall i,
              host_eval PyBool.host (py_expression (init e vs))
                (globals (variables (init e vs)) i) = Raise SyntaxError).
    { intros i. cbn [host_eval PyBool.host]. unfold PyBool.py_eval.
      rewrite Hlex. cbn [bind]. now rewrite Hparse. }
    destruct (eval PyBool.host (init e vs)) as [self'|x].
    + destruct Ho as (_ & _ & Hdone).
      assert (H0 : (0 < 2 ^ List.length vs)%nat)
        by (apply Nat.neq_0_lt_0, Nat.pow_nonzero; discriminate).
      destruct (Hdone 0%nat H0) as (row & _ & r & shown & Hev & _).
      rewrite Hrow in Hev. discriminate.
    + destruct Ho as (i & _ & [Hr|(r & Hr & _)]); rewrite Hrow in Hr;
        [now injection Hr as <-|discriminate].
  - intros a Hparse Hnb.
    assert (Hraise : forall i x,
              row_raised PyBool.host (init e vs) i x ->
              x = TypeError
              /\ exists s,
                   In s (PyBool.reached
                           (globals (variables (init e vs)) i) a)
                   /\ ~ In s vs).
    { intros i x Hr.
      apply (row_raised_run e vs ts a i x Hlex Hparse Hnb) in Hr.
      pose proof (run_outcome (globals (variables (init e vs)) i) a
                    (globals_builtins _ _)) as Hrun.
      rewrite Hr in Hrun. destruct Hrun as (-> & s & Hs & Hn).
      split; [reflexivity|]. exists s. split; [exact Hs|].
      apply globals_none in Hn. destruct Hn as (_ & Hn).
      intros Hin. apply Hn. now apply (Permutation_in _ Hperm). }
    split.
    + intros x Hx. rewrite Hx in Ho. destruct Ho as (i & _ & Hr).
      now apply (Hraise i x).
    + rewrite eval_raises_iff, Hlen. split.
      * intros (i & x & Hi & Hr). destruct (Hraise i x Hr) as (_ & s & Hs).
        now exists i, s.
      * intros (i & s & Hi & Hs & Hn).
        pose proof (run_outcome (globals (variables (init e vs)) i) a
                      (globals_builtins _ _)) as Hrun.
        destruct (PyBool.run (globals (variables (init e vs)) i) a)
          as [v|x] eqn:Hr.
        -- exfalso. apply (Hrun s Hs). apply globals_none. split.
           ++ intros ->. apply Hnb. now apply reached_names in Hs.
           ++ intros Hin. apply Hn.
              now apply (Permutation_in _ (Permutation_sym Hperm)).
        -- exists i, x. split; [exact Hi|].
           now apply (row_raised_run e vs ts a i x Hlex Hparse Hnb).
Qed.

(** A reached unknown name, and a text that is not an expression. *)
Lemma eval_fails_on_fragment_witness :
  (PyBool.lex [] (py_expression (init "A AND Z" ["A"]))
   = OK [PyBool.TName "A"; PyBool.TAnd; PyBool.TName "Z"]
   /\ PyBool.parse [PyBool.TName "A"; PyBool.TAnd; PyBool.TName "Z"]
      = OK (PyBool.And (PyBool.Name "A") (PyBool.Name "Z"))
   /\ ~ In "__builtins__"
          (PyBool.names (PyBool.And (PyBool.Name "A") (PyBool.Name "Z")))
   /\ eval PyBool.host (init "A AND Z" ["A"]) = Raise TypeError
   /\ (forall x, eval PyBool.host (init "A AND Z" ["A"]) = Raise x ->
                 x = TypeError)
   /\ ((exists x, eval PyBool.host (init "A AND Z" ["A"]) = Raise x)
       <-> exists i s,
             (i < 2 ^ List.length ["A"])%nat
             /\ In s (PyBool.reached
                        (globals (variables (init "A AND Z" ["A"])) i)
                        (PyBool.And (PyBool.Name "A") (PyBool.Name "Z")))
             /\ ~ In s ["A"]))
  /\ (PyBool.lex [] (py_expression (init "A AND" ["A"]))
      = OK [PyBool.TName "A"; PyBool.TAnd]
      /\ PyBool.parse [PyBool.TName "A"; PyBool.TAnd] = Raise SyntaxError
      /\ eval PyBool.host (init "A AND" ["A"]) = Raise SyntaxError).
Proof.
  assert (Hnb : ~ In "__builtins__"
                  (PyBool.names
                     (PyBool.And (PyBool.Name "A") (PyBool.Name "Z"))))
    by (intros [H|[H|[]]]; discriminate).
  split.
  - split; [reflexivity|]. split; [reflexivity|]. split; [exact Hnb|].
    split; [reflexivity|].
    exact (proj2 (eval_fails_on_fragment "A AND Z" ["A"] _ eq_refl)
             _ eq_refl Hnb).
  - split; [reflexivity|]. split; [reflexivity|].
    exact (proj1 (eval_fails_on_fragment "A AND" ["A"] _ eq_refl) eq_refl).
Defined.

(** C8, counterexample.  [Z] is not among the variables and stands in the
    text, yet [eval] returns both rows: [and] never reaches [Z]. *)
Lemma unknown_name_not_reported :
  occurs "Z" "A AND NOT ( A ) AND Z" /\ ~ In "Z" ["A"]
  /\ eval PyBool.host (init "A AND NOT ( A ) AND Z" ["A"])
     = OK {| expression := "A AND NOT ( A ) AND Z";
             py_expression := "A and not ( A ) and Z";
             variables := ["A"];
             lines := [[("A", CInt 0); (" ", CStr "          0          ")];
                       [("A", CInt 1); (" ", CStr "          0          ")]] |}.
Proof.
  split; [|split].
  - exists "A AND NOT ( A ) AND ", "". reflexivity.
  - intros [H|[]]. discriminate.
  - reflexivity.
Qed.

(** C10.  The text handed to the host is the expression after the three
    replacements, in this order; it holds none of the three keywords, so a
    variable whose name holds one of them is not in the text under its
    name. *)
Theorem keywords_rewritten (e : string) (vs : list string) :
  let text := py_expression (init e vs) in
  (exists t1 t2,
     replaced "OR" "or" e t1 /\ replaced "NOT" "not" t1 t2
     /\ replaced "AND" "and" t2 text)
  /\ forall v,
       occurs "OR" v \/ occurs "NOT" v \/ occurs "AND" v -> ~ occurs v text.
Proof.
  simpl.
  set (t1 := replace "OR" "or" e).
  set (t2 := replace "NOT" "not" t1).
  set (t3 := replace "AND" "and" t2).
  assert (H1 : replaced "OR" "or" e t1) by (apply replace_replaced; discriminate).
  assert (H2 : replaced "NOT" "not" t1 t2) by (apply replace_replaced; discriminate).
  assert (H3 : replaced "AND" "and" t2 t3) by (apply replace_replaced; discriminate).
  split; [now exists t1, t2|].
  assert (Hor : ~ occurs "OR" t3).
  { intros Ho.
    apply (replaced_keeps_out "AND" "and") with (s := t2) in Ho;
      [|discriminate|exact H3|discriminate|now apply apartb_apart].
    apply (replaced_keeps_out "NOT" "not") with (s := t1) in Ho;
      [|discriminate|exact H2|discriminate|now apply apartb_apart].
    revert Ho. apply (replaced_removes "OR" "or") with (s := e);
      [discriminate|exact H1|discriminate|now apply apartb_apart]. }
  assert (Hnot : ~ occurs "NOT" t3).
  { intros Ho.
    apply (replaced_keeps_out "AND" "and") with (s := t2) in Ho;
      [|discriminate|exact H3|discriminate|now apply apartb_apart].
    revert Ho. apply (replaced_removes "NOT" "not") with (s := t1);
      [discriminate|exact H2|discriminate|now apply apartb_apart]. }
  assert (Hand : ~ occurs "AND" t3).
  { apply (replaced_removes "AND" "and") with (s := t2);
      [discriminate|exact H3|discriminate|now apply apartb_apart]. }
  intros v [Hk|[Hk|Hk]] Hv.
  - apply Hor. now apply occurs_trans with v.
  - apply Hnot. now apply occurs_trans with v.
  - apply Hand. now apply occurs_trans with v.
Qed.

(** The variable [ORANGE] is looked for as [orANGE]. *)
Lemma keywords_rewritten_witness :
  (occurs "OR" "ORANGE" \/ occurs "NOT" "ORANGE" \/ occurs "AND" "ORANGE")
  /\ py_expression (init "ORANGE AND B" ["ORANGE"; "B"]) = "orANGE and B"
  /\ ~ occurs "ORANGE" (py_expression (init "ORANGE AND B" ["ORANGE"; "B"])).
Proof.
  assert (H : occurs "OR" "ORANGE" \/ occurs "NOT" "ORANGE"
              \/ occurs "AND" "ORANGE")
    by (left; exists "", "ANGE"; reflexivity).
  split; [exact H|]. split; [reflexivity|].
  exact (proj2 (keywords_rewritten "ORANGE AND B" ["ORANGE"; "B"]) "ORANGE" H).
Defined.

End EvaluatorSpec.

(** ** The expression builder *)

Module IndexFacts.

Import ListFacts DictFacts PyFacts ExpressionBuilder.

Lemma idx_nonneg (e : list string) (v : string) : 0 <= idx e v.
Proof. unfold idx. destruct (position string_dec v e); lia. Qed.

Lemma idx_position (e : list string) (v : string) :
  In v e -> position string_dec v e = Some (Z.to_nat (idx e v)).
Proof.
  intros Hin. unfold idx. destruct (position_in string_dec v e Hin) as (n & ->).
  now rewrite Nat2Z.id.
Qed.

Lemma idx_nth (e : list string) (v : string) :
  In v e -> nth_error e (Z.to_nat (idx e v)) = Some v.
Proof. intros Hin. apply (position_nth string_dec). now apply idx_position. Qed.

Lemma idx_lt_length (e : list string) (v : string) :
  In v e -> idx e v < Z.of_nat (List.length e).
Proof.
  intros Hin. pose proof (idx_nth e v Hin) as H.
  assert (Z.to_nat (idx e v) < List.length e)%nat
    by (apply nth_error_Some; congruence).
  pose proof (idx_nonneg e v). lia.
Qed.

Lemma idx_app (a b : list string) (v : string) :
  ~ In v a -> idx (a ++ v :: b) v = Z.of_nat (List.length a).
Proof. intros Hin. unfold idx. now rewrite position_app. Qed.

Lemma idx_cons_ne (t : string) (e : list string) (w : string) :
  w <> t -> In w e -> idx (t :: e) w = 1 + idx e w.
Proof.
  intros Hne Hin. unfold idx. cbn [position].
  destruct (string_dec t w) as [->|_]; [congruence|].
  destruct (position_in string_dec w e Hin) as (n & ->). cbn [option_map].
  lia.
Qed.

Lemma index_of_idx (e : list string) (v : string) :
  In v e -> index_of v e = OK (idx e v).
Proof.
  intros Hin. unfold index_of, list_index, idx.
  now destruct (position_in string_dec v e Hin) as (n & ->).
Qed.

Lemma strongly_sorted_impl {A : Type} (R R' : A -> A -> Prop) (l : list A) :
  (forall a b, In a l -> In b l -> R a b -> R' a b) ->
  StronglySorted R l -> StronglySorted R' l.
Proof.
  intros Himp Hs. induction Hs as [|a l Hs IH Hall]; constructor.
  - apply IH. intros x y Hx Hy. apply Himp; now right.
  - rewrite Forall_forall in *. intros b Hb.
    apply Himp; [now left|now right|now apply Hall].
Qed.

Lemma memb_true (vs : list string) (tok : string) :
  memb vs tok = true <-> In tok vs.
Proof. unfold memb. destruct (in_dec string_dec tok vs); intuition congruence. Qed.

Lemma memb_false (vs : list string) (tok : string) :
  memb vs tok = false <-> ~ In tok vs.
Proof. unfold memb. destruct (in_dec string_dec tok vs); intuition congruence. Qed.

Lemma vars_of_self (vs : list string) : vars_of vs vs = vs.
Proof.
  unfold vars_of. apply forallb_filter_id. apply forallb_forall.
  intros v Hv. now apply memb_true.
Qed.

Lemma vars_of_in (vs e : list string) (v : string) :
  vars_of vs e = vs -> In v vs -> In v e.
Proof.
  intros H Hv. rewrite <- H in Hv. unfold vars_of in Hv.
  now apply filter_In in Hv.
Qed.

Lemma vars_of_ins (vs e : list string) (k : nat) (tok : string) :
  ~ In tok vs -> vars_of vs (ins k tok e) = vars_of vs e.
Proof. intros H. apply filter_ins. now apply memb_false. Qed.

(** The variables of a sequence come in the order of their indices. *)
Lemma filter_increasing (f : string -> bool) (e vs : list string) :
  filter f e = vs -> NoDup vs -> increasing (idx e) vs.
Proof.
  revert vs. induction e as [|t e IH]; intros vs Hf Hnd; simpl in Hf.
  - subst. constructor.
  - assert (Hshift : forall l, incl l (filter f e) -> ~ In t l ->
                       increasing (idx e) l -> increasing (idx (t :: e)) l).
    { intros l Hincl Ht. apply strongly_sorted_impl. intros a b Ha Hb Hab.
      rewrite !idx_cons_ne; try lia.
      - intros ->. contradiction.
      - apply Hincl in Hb. now apply filter_In in Hb.
      - intros ->. contradiction.
      - apply Hincl in Ha. now apply filter_In in Ha. }
    destruct (f t) eqn:Hft.
    + subst vs. apply NoDup_cons_iff in Hnd as [Ht Hnd]. constructor.
      * apply Hshift; [apply incl_refl|exact Ht|now apply IH].
      * rewrite Forall_forall. intros b Hb.
        change (idx (t :: e) t) with (idx ([] ++ t :: e) t).
        rewrite (idx_app [] e t) by (intros []). cbn [List.length Z.of_nat].
        rewrite idx_cons_ne.
        -- pose proof (idx_nonneg e b). lia.
        -- intros ->. contradiction.
        -- now apply filter_In in Hb.
    + subst vs. apply Hshift; [apply incl_refl| |now apply IH].
      intros Ht. apply filter_In in Ht. destruct Ht. congruence.
Qed.

Lemma index_pairs_graph (vs e : list string) :
  (forall v, In v vs -> In v e) -> index_pairs vs e = OK (graph (idx e) vs).
Proof.
  induction vs as [|v vs IH]; intros Hin; simpl; [reflexivity|].
  rewrite index_of_idx by (apply Hin; now left). simpl.
  rewrite IH by (intros w Hw; apply Hin; now right). reflexivity.
Qed.

Lemma increasing_sorted (g : string -> Z) (vs : list string) :
  increasing g vs ->
  Sorted (fun a b : string * Z => (snd a <=? snd b) = true) (graph g vs).
Proof.
  induction 1 as [|a l Hs IH Hall]; simpl; constructor; [exact IH|].
  destruct l as [|b l]; simpl; constructor. simpl.
  apply Forall_inv in Hall. lia.
Qed.

(** With distinct variables laid out in [e], the dict of indices lists the
    variables in their order, each with its index. *)
Lemma generate_indices_graph (self : t) :
  NoDup (variables self) ->
  vars_of (variables self) (expression self) = variables self ->
  generate_indices_of_variables self
  = OK (graph (idx (expression self)) (variables self)).
Proof.
  intros Hnd Hv. unfold generate_indices_of_variables.
  rewrite index_pairs_graph by (intros v; now apply vars_of_in).
  simpl. f_equal. unfold sorted_by_key. rewrite sorted_in_order.
  - apply dict_of_pairs_nodup. fold (dict_keys (graph (idx (expression self)) (variables self))).
    now rewrite graph_keys.
  - apply increasing_sorted. apply (filter_increasing (memb (variables self)));
      assumption.
Qed.

End IndexFacts.

Module ShapeFacts.

Import ExpressionBuilder.
Import ListFacts DictFacts PyFacts IndexFacts.

Lemma depth_app (d : nat) (l1 l2 : list string) :
  depth d (l1 ++ l2)
  = match depth d l1 with
    | Some d1 => depth d1 l2
    | None => None
    end.
Proof.
  revert d. induction l1 as [|tok l1 IH]; intros d; simpl; [reflexivity|].
  destruct (String.eqb tok "("); [apply IH|].
  destruct (String.eqb tok ")"); [|apply IH].
  destruct d; [reflexivity|apply IH].
Qed.

Lemma depth_succ (d d' : nat) (l : list string) :
  depth d l = Some d' -> depth (S d) l = Some (S d').
Proof.
  revert d. induction l as [|tok l IH]; intros d; simpl.
  - congruence.
  - destruct (String.eqb tok "("); [apply IH|].
    destruct (String.eqb tok ")"); [|apply IH].
    destruct d; [discriminate|apply IH].
Qed.

Lemma depth_plain (d : nat) (l : list string) :
  Forall plain l -> depth d l = Some d.
Proof.
  induction 1 as [|tok l [Ho Hc] Hl IH]; simpl; [reflexivity|].
  apply String.eqb_neq in Ho, Hc. now rewrite Ho, Hc.
Qed.

(** Putting a pair of parentheses around a stretch keeps the balance. *)
Lemma depth_wrap (d d' : nat) (a b c : list string) :
  depth d (a ++ b ++ c) = Some d' ->
  depth d (a ++ "(" :: b ++ ")" :: c) = Some d'.
Proof.
  rewrite !depth_app. destruct (depth d a) as [da|]; [|discriminate].
  simpl. rewrite !depth_app.
  destruct (depth da b) as [db|] eqn:Hb; [|discriminate].
  rewrite (depth_succ _ _ _ Hb). simpl. auto.
Qed.

Lemma ins_ins (P Q : nat) (x y : string) (e : list string) :
  (P <= Q)%nat -> (P <= List.length e)%nat ->
  ins P x (ins Q y e)
  = firstn P e ++ x :: firstn (Q - P) (skipn P e)
      ++ y :: skipn (Q - P) (skipn P e).
Proof.
  intros HPQ HP.
  assert (Ha : List.length (firstn P e) = P) by (rewrite length_firstn; lia).
  rewrite <- (firstn_skipn P e) at 1.
  rewrite ins_app_r by lia. rewrite Ha.
  rewrite ins_app_l by lia. rewrite ins_beyond by lia.
  rewrite <- app_assoc. reflexivity.
Qed.

Lemma balanced_wrap (P Q : nat) (e : list string) :
  (P <= Q)%nat -> (P <= List.length e)%nat -> balanced e ->
  balanced (ins P "(" (ins Q ")" e)).
Proof.
  intros HPQ HP Hb. rewrite ins_ins by assumption. unfold balanced.
  apply depth_wrap. now rewrite !firstn_skipn.
Qed.

Section Shape.

Variable nv : string.
Hypothesis nv_not : nv <> "NOT".
Hypothesis nv_open : nv <> "(".

Lemma shape_idx (e : list string) :
  shape nv e ->
  idx e nv = idx e "NOT" + 2
  /\ nth_error e (Z.to_nat (idx e "NOT")) = Some "NOT"
  /\ nth_error e (Z.to_nat (idx e "NOT") + 1) = Some "("
  /\ nth_error e (Z.to_nat (idx e "NOT") + 2) = Some nv.
Proof.
  intros (pre & post & -> & Hn & Hv & _).
  rewrite (idx_app pre _ "NOT" Hn), Nat2Z.id.
  change (pre ++ "NOT" :: "(" :: nv :: post)
    with (pre ++ ["NOT"; "("] ++ nv :: post).
  rewrite app_assoc, idx_app.
  - rewrite length_app. simpl List.length. split; [lia|].
    rewrite <- app_assoc. simpl app.
    rewrite !nth_error_app2 by lia.
    replace (List.length pre - List.length pre)%nat with 0%nat by lia.
    replace (List.length pre + 1 - List.length pre)%nat with 1%nat by lia.
    replace (List.length pre + 2 - List.length pre)%nat with 2%nat by lia.
    auto.
  - intros H. apply in_app_or in H. destruct H as [H|[H|[H|[]]]];
      [contradiction|congruence|congruence].
Qed.

(** A token put in before the ["NOT"] or after the negated variable
    leaves ["NOT"], ["("] and the variable side by side. *)
Lemma shape_ins (e : list string) (tok : string) (k : nat) :
  shape nv e -> tok <> "NOT" -> tok <> nv ->
  (k <= Z.to_nat (idx e "NOT") \/ Z.to_nat (idx e "NOT") + 3 <= k)%nat ->
  shape nv (ins k tok e)
  /\ idx (ins k tok e) "NOT"
     = idx e "NOT" + (if (k <=? Z.to_nat (idx e "NOT"))%nat then 1 else 0).
Proof.
  intros (pre & post & -> & Hn & Hv & Hp) Ht1 Ht2.
  rewrite (idx_app pre _ "NOT" Hn), Nat2Z.id. intros [Hk|Hk].
  - rewrite ins_app_l by lia.
    assert (Hn' : ~ In "NOT" (ins k tok pre))
      by (rewrite in_ins; intros [H|H]; [congruence|contradiction]).
    split.
    + exists (ins k tok pre), post. repeat split; [exact Hn'| |exact Hp].
      rewrite in_ins. intros [H|H]; [congruence|contradiction].
    + rewrite (idx_app _ _ "NOT" Hn'), ins_length.
      rewrite (proj2 (Nat.leb_le _ _) Hk). lia.
  - change (pre ++ "NOT" :: "(" :: nv :: post)
      with (pre ++ ["NOT"; "("; nv] ++ post).
    rewrite app_assoc, ins_app_r by (rewrite length_app; simpl; lia).
    rewrite <- app_assoc. simpl app. split.
    + eexists pre, _. repeat split; [exact Hn|exact Hv|].
      rewrite in_ins. intros [H|H]; [congruence|contradiction].
    + rewrite (idx_app _ _ "NOT" Hn).
      rewrite (proj2 (Nat.leb_gt _ _)) by lia. lia.
Qed.

(** Any other token sits before the ["NOT"] or after the variable. *)
Lemma shape_away (e : list string) (v : string) :
  shape nv e -> In v e -> v <> "NOT" -> v <> "(" -> v <> nv ->
  idx e v < idx e "NOT" \/ idx e "NOT" + 3 <= idx e v.
Proof.
  intros Hs Hin H1 H2 H3.
  destruct (shape_idx e Hs) as (_ & Hn0 & Hn1 & Hn2).
  pose proof (idx_nth e v Hin) as Hv.
  pose proof (idx_nonneg e v). pose proof (idx_nonneg e "NOT").
  destruct (Z_lt_ge_dec (idx e v) (idx e "NOT")) as [Hlt|Hge]; [now left|].
  destruct (Z_le_gt_dec (idx e "NOT" + 3) (idx e v)) as [Hle|Hgt]; [now right|].
  exfalso.
  assert (Hc : idx e v = idx e "NOT" \/ idx e v = idx e "NOT" + 1
               \/ idx e v = idx e "NOT" + 2) by lia.
  destruct Hc as [Hc|[Hc|Hc]]; rewrite Hc in Hv.
  - congruence.
  - rewrite Z2Nat.inj_add in Hv by lia.
    change (Z.to_nat 1) with 1%nat in Hv. congruence.
  - rewrite Z2Nat.inj_add in Hv by lia.
    change (Z.to_nat 2) with 2%nat in Hv. congruence.
Qed.

Lemma shape_not_once (e : list string) :
  shape nv e -> count_occ string_dec e "NOT" = 1%nat.
Proof.
  intros (pre & post & -> & Hn & _ & Hp).
  rewrite count_occ_app. simpl.
  rewrite (proj1 (count_occ_not_In string_dec pre "NOT") Hn).
  destruct (string_dec "(" "NOT"); [discriminate|].
  destruct (string_dec nv "NOT"); [contradiction|].
  now rewrite (proj1 (count_occ_not_In string_dec post "NOT") Hp).
Qed.

End Shape.

End ShapeFacts.

Module BuildFacts.

Import ExpressionBuilder.
Import ListFacts DictFacts PyFacts IndexFacts ShapeFacts.

Lemma same_input_refl (self : t) : same_input self self.
Proof. now repeat split. Qed.

Lemma same_input_trans (s1 s2 s3 : t) :
  same_input s1 s2 -> same_input s2 s3 -> same_input s1 s3.
Proof. unfold same_input. intuition congruence. Qed.

Lemma well_formed_same (self self' : t) :
  same_input self self' -> well_formed self -> well_formed self'.
Proof.
  intros (_ & Hv & Ho & Hn) [H1 H2 H3 H4].
  constructor; rewrite ?Hv, ?Ho, ?Hn; assumption.
Qed.

Lemma variable_token (self : t) (v : string) :
  well_formed self -> In v (variables self) ->
  v <> "NOT" /\ v <> "(" /\ v <> ")".
Proof.
  intros Hwf Hv. pose proof (wf_variables self Hwf) as Hall.
  rewrite Forall_forall in Hall. destruct (Hall v Hv) as [Hr _].
  unfold reserved in Hr. intuition.
Qed.

Lemma reserved_not_variable (self : t) (tok : string) :
  well_formed self -> reserved tok -> ~ In tok (variables self).
Proof.
  intros Hwf Hr Hin. destruct (variable_token self tok Hwf Hin) as (H1 & H2 & H3).
  destruct Hr as [Hr|[Hr|Hr]]; contradiction.
Qed.

Lemma operator_not_variable (self : t) (tok : string) :
  well_formed self -> is_operator tok -> ~ In tok (variables self).
Proof.
  intros Hwf Ho Hin. pose proof (wf_variables self Hwf) as Hall.
  rewrite Forall_forall in Hall. destruct (Hall tok Hin) as [_ Hn]. contradiction.
Qed.

Lemma operator_not_reserved (tok : string) : is_operator tok -> ~ reserved tok.
Proof. intros [-> | ->] [H|[H|H]]; discriminate. Qed.

Lemma forall_firstn {A : Type} (P : A -> Prop) (k : nat) (l : list A) :
  Forall P l -> Forall P (firstn k l) /\ Forall P (skipn k l).
Proof.
  intros H. rewrite <- (firstn_skipn k l) in H. now apply Forall_app in H.
Qed.

(** The chain of variables and operators. *)
Lemma interleave_tokens (ops e : list string) (tok : string) :
  In tok (interleave ops e) -> In tok e \/ In tok ops.
Proof.
  unfold interleave.
  assert (H : forall (ios : list (nat * string)) e,
             In tok (fold_left
                       (fun e io =>
                          list_insert (2 * Z.of_nat (fst io) + 1) (snd io) e)
                       ios e) ->
             In tok e \/ In tok (map snd ios)).
  { induction ios as [|[i o] ios IH]; intros e0 Hin;
      cbn [fold_left fst snd map] in *; [now left|].
    apply IH in Hin. destruct Hin as [Hin|Hin]; [|now right; right].
    rewrite list_insert_ins in Hin by lia. apply in_ins in Hin.
    destruct Hin as [->|Hin]; [right; now left|now left]. }
  intros Hin. apply H in Hin. destruct Hin as [Hin|Hin]; [now left|right].
  apply in_map_iff in Hin. destruct Hin as ([i o] & <- & Hin).
  now apply in_combine_r in Hin.
Qed.

Lemma interleave_vars (vs ops e : list string) :
  (forall o, In o ops -> ~ In o vs) ->
  vars_of vs (interleave ops e) = vars_of vs e.
Proof.
  unfold interleave. intros Hops.
  assert (H : forall (ios : list (nat * string)) e,
             (forall io, In io ios -> ~ In (snd io) vs) ->
             vars_of vs (fold_left
                           (fun e io =>
                              list_insert (2 * Z.of_nat (fst io) + 1) (snd io) e)
                           ios e)
             = vars_of vs e).
  { induction ios as [|[i o] ios IH]; intros e0 Hio; cbn [fold_left fst snd];
      [reflexivity|].
    rewrite IH by (intros io Hin; apply Hio; now right).
    rewrite list_insert_ins by lia. apply vars_of_ins.
    apply (Hio (i, o)). now left. }
  apply H. intros [i o] Hin. apply in_combine_r in Hin. now apply Hops.
Qed.

Lemma increasing_nth (g : string -> Z) (vs : list string) (k k' : nat)
  (a b : string) :
  increasing g vs -> nth_error vs k = Some a -> nth_error vs k' = Some b ->
  (k < k')%nat -> g a < g b.
Proof.
  intros Hs. revert k k'.
  induction Hs as [|x l Hs IH Hall]; intros k k' Ha Hb Hlt.
  - destruct k; discriminate.
  - destruct k' as [|k']; [lia|]. simpl in Hb. destruct k as [|k]; simpl in Ha.
    + injection Ha as ->. rewrite Forall_forall in Hall. apply Hall.
      eapply nth_error_In, Hb.
    + apply (IH k k'); [assumption|assumption|lia].
Qed.

Section Steps.

Variable self : t.
Hypothesis Hwf : well_formed self.

Local Abbreviation nv := (fst (not_expr self)).
Local Abbreviation vs := (variables self).
Local Abbreviation e := (expression self).

Lemma nv_token : nv <> "NOT" /\ nv <> "(" /\ nv <> ")".
Proof. apply (variable_token self); [exact Hwf|apply (wf_not self Hwf)]. Qed.

(** [push_not] writes ["NOT"] and ["("] right before the variable. *)
Lemma push_not_spec :
  vars_of vs e = vs -> Forall (fun tok => ~ reserved tok) e ->
  exists a b,
    e = a ++ nv :: b /\ ~ In nv a
    /\ push_not self = OK (with_expression self (a ++ "NOT" :: "(" :: nv :: b)).
Proof.
  intros Hv He.
  assert (Hin : In nv e) by (apply (vars_of_in vs); [exact Hv|apply (wf_not self Hwf)]).
  destruct (position_split string_dec nv e _ (idx_position e nv Hin))
    as (a & b & Hab & Hlen & Ha).
  exists a, b. split; [exact Hab|]. split; [exact Ha|].
  assert (Hna : ~ In "NOT" a).
  { intros H. rewrite Forall_forall in He. apply (He "NOT").
    - rewrite Hab. apply in_or_app. now left.
    - now left. }
  unfold push_not. rewrite (index_of_idx e nv Hin). cbn [bind].
  rewrite list_insert_ins by apply idx_nonneg. rewrite <- Hlen.
  rewrite Hab. rewrite ins_app_r, Nat.sub_diag by lia.
  change (ins 0 "NOT" (nv :: b)) with ("NOT" :: nv :: b).
  rewrite index_of_idx by (apply in_or_app; right; now left).
  cbn [bind]. rewrite (idx_app a _ "NOT" Hna).
  rewrite list_insert_ins by lia.
  replace (Z.to_nat (Z.of_nat (List.length a) + 1)) with (List.length a + 1)%nat by lia.
  rewrite ins_app_r by lia.
  replace (List.length a + 1 - List.length a)%nat with 1%nat by lia.
  reflexivity.
Qed.

(** Where [close_not] puts the [")"]. *)
Lemma close_not_spec :
  vars_of vs e = vs -> shape nv e ->
  exists Q : nat,
    close_not self
    = OK (with_expression (with_parentheses self (graph (idx e) vs))
            (ins Q ")" e))
    /\ (Z.to_nat (idx e "NOT") + 3 <= Q)%nat
    /\ (snd (not_expr self) = 0 ->
        forall k, nth_error vs k = Some nv ->
        match nth_error vs (S k) with
        | Some w => Q = (Z.to_nat (idx e w) + 1)%nat
        | None => Q = List.length e
        end)
    /\ (snd (not_expr self) <> 0 -> Q = (Z.to_nat (idx e "NOT") + 3)%nat).
Proof.
  intros Hv Hs.
  destruct nv_token as (Hn1 & Hn2 & Hn3).
  destruct (shape_idx nv Hn1 Hn2 e Hs) as (Hnv & _).
  pose proof (idx_nonneg e "NOT") as Hnn.
  assert (Hlen : (Z.to_nat (idx e "NOT") + 3 <= List.length e)%nat).
  { destruct Hs as (pre & post & Hpp & Hn & _). rewrite Hpp.
    rewrite (idx_app pre _ "NOT" Hn), Nat2Z.id, length_app. simpl. lia. }
  assert (Hinc : increasing (idx e) vs).
  { apply (filter_increasing (memb vs)); [exact Hv|apply (wf_nodup self Hwf)]. }
  unfold close_not.
  rewrite (generate_indices_graph self (wf_nodup self Hwf) Hv).
  cbn [bind].
  change (snd (not_expr (with_parentheses self (graph (idx e) vs))))
    with (snd (not_expr self)).
  change (fst (not_expr (with_parentheses self (graph (idx e) vs)))) with nv.
  change (expression (with_parentheses self (graph (idx e) vs))) with e.
  destruct (snd (not_expr self) =? 0) eqn:Hprec.
  - apply Z.eqb_eq in Hprec.
    rewrite (graph_get (idx e) vs nv (wf_not self Hwf)). cbn [bind].
    unfold list_index. rewrite graph_position.
    destruct (position_in string_dec nv vs (wf_not self Hwf)) as (k & Hk).
    rewrite Hk. cbn [bind].
    pose proof (position_nth string_dec nv vs k Hk) as Hnth.
    assert (Hklen : (k < List.length vs)%nat) by (apply nth_error_Some; congruence).
    assert (Hgl : List.length (graph (idx e) vs) = List.length vs)
      by (unfold graph; apply length_map).
    rewrite Hgl.
    assert (Hkuniq : forall k', nth_error vs k' = Some nv -> k' = k).
    { intros k' Hk'. apply (position_nodup string_dec vs k' nv (wf_nodup self Hwf)) in Hk'.
      congruence. }
    destruct (Z.of_nat k =? Z.of_nat (List.length vs) - 1) eqn:Hlast.
    + apply Z.eqb_eq in Hlast. exists (List.length e).
      rewrite ins_beyond by lia. split; [reflexivity|]. split; [exact Hlen|].
      split; [|congruence].
      intros _ k' Hk'. apply Hkuniq in Hk'. subst k'.
      assert (Hnone : nth_error vs (S k) = None) by (apply nth_error_None; lia).
      now rewrite Hnone.
    + apply Z.eqb_neq in Hlast.
      destruct (nth_error vs (S k)) as [w|] eqn:Hright;
        [|apply nth_error_None in Hright; lia].
      replace (Z.of_nat k + 1) with (Z.of_nat (S k)) by lia.
      rewrite (graph_list_get (idx e) vs (S k) w Hright). cbn [bind fst].
      rewrite graph_get by (eapply nth_error_In, Hright). cbn [bind].
      pose proof (increasing_nth (idx e) vs k (S k) nv w Hinc Hnth Hright
                    (Nat.lt_succ_diag_r k)) as Hlt.
      pose proof (idx_nonneg e w) as Hrn.
      rewrite list_insert_ins by lia.
      replace (Z.to_nat (idx e w + 1)) with (Z.to_nat (idx e w) + 1)%nat
        by lia.
      exists (Z.to_nat (idx e w) + 1)%nat.
      split; [reflexivity|]. split; [lia|]. split; [|congruence].
      intros _ k' Hk'. apply Hkuniq in Hk'. subst k'. now rewrite Hright.
  - apply Z.eqb_neq in Hprec.
    assert (Hin : In "NOT" e).
    { destruct Hs as (pre & post & Hpp & _). rewrite Hpp.
      apply in_or_app. right. now left. }
    rewrite (index_of_idx e "NOT" Hin). cbn [bind].
    rewrite list_insert_ins by lia.
    replace (Z.to_nat (idx e "NOT" + 3)) with (Z.to_nat (idx e "NOT") + 3)%nat
      by lia.
    exists (Z.to_nat (idx e "NOT") + 3)%nat.
    split; [reflexivity|]. split; [lia|]. split; [congruence|reflexivity].
Qed.

End Steps.

Lemma close_balanced (a b : list string) (nv : string) (Q : nat) :
  Forall plain a -> Forall plain b -> plain nv ->
  (List.length a + 3 <= Q)%nat ->
  balanced (ins Q ")" (a ++ "NOT" :: "(" :: nv :: b)).
Proof.
  intros Ha Hb [Hv1 Hv2] HQ.
  change (a ++ "NOT" :: "(" :: nv :: b) with (a ++ ["NOT"; "("; nv] ++ b).
  rewrite app_assoc, ins_app_r by (rewrite length_app; simpl; lia).
  unfold balanced. rewrite !depth_app, (depth_plain 0 a Ha).
  apply String.eqb_neq in Hv1, Hv2. cbn [depth]. rewrite Hv1, Hv2.
  cbn [String.eqb Ascii.eqb Bool.eqb]. unfold ins. rewrite depth_app.
  destruct (forall_firstn plain (Q - List.length (a ++ ["NOT"; "("; nv])) b Hb)
    as [Hf Hs].
  rewrite (depth_plain 1 _ Hf). cbn [depth String.eqb Ascii.eqb Bool.eqb].
  apply depth_plain, Hs.
Qed.

Lemma not_reserved_plain (l : list string) :
  Forall (fun tok => ~ reserved tok) l -> Forall plain l.
Proof.
  apply Forall_impl. intros tok H. unfold reserved, plain in *. intuition.
Qed.

Lemma built_keep (self self' : t) :
  same_input self self' -> expression self' = expression self ->
  built self -> built self'.
Proof.
  intros (_ & Hv & _ & Hn) He [H1 H2 H3].
  constructor; rewrite ?Hv, ?Hn, ?He; assumption.
Qed.

(** After [push_not] and [close_not] the sequence is well built. *)
Lemma close_not_built (self : t) (a b : list string) :
  well_formed self ->
  expression self = a ++ "NOT" :: "(" :: fst (not_expr self) :: b ->
  Forall (fun tok => ~ reserved tok) a ->
  Forall (fun tok => ~ reserved tok) b ->
  ~ In (fst (not_expr self)) a ->
  vars_of (variables self) (expression self) = variables self ->
  exists self2, close_not self = OK self2 /\ built self2
                /\ same_input self self2.
Proof.
  intros Hwf He Ha Hb Hnva Hv.
  destruct (nv_token self Hwf) as (Hn1 & Hn2 & Hn3).
  assert (Hna : ~ In "NOT" a).
  { intros H. rewrite Forall_forall in Ha. apply (Ha "NOT" H). now left. }
  assert (Hnb : ~ In "NOT" b).
  { intros H. rewrite Forall_forall in Hb. apply (Hb "NOT" H). now left. }
  assert (Hs : shape (fst (not_expr self)) (expression self))
    by (exists a, b; auto).
  destruct (close_not_spec self Hwf Hv Hs) as (Q & Hc & HQ & _).
  eexists. split; [exact Hc|].
  assert (Hidx : idx (expression self) "NOT" = Z.of_nat (List.length a))
    by (rewrite He; now apply idx_app).
  split; [|now repeat split]. constructor.
  - cbn [variables expression with_expression with_parentheses].
    rewrite vars_of_ins; [exact Hv|].
    apply (reserved_not_variable self _ Hwf). right. now right.
  - cbn [expression with_expression]. rewrite He.
    apply close_balanced; try (now apply not_reserved_plain);
      [now split|]. rewrite Hidx in HQ. lia.
  - cbn [expression with_expression not_expr with_parentheses].
    apply shape_ins; try assumption; [discriminate|congruence|now right].
Qed.

Lemma choice_nth {A : Type} (r : nat) (l : list A) :
  match choice r l with
  | OK a => exists k, (k < List.length l)%nat /\ nth_error l k = Some a
  | Raise x => x = IndexError /\ l = []
  end.
Proof.
  destruct l as [|a0 l]; [now split|]. unfold choice.
  assert (Hk : (r mod List.length (a0 :: l) < List.length (a0 :: l))%nat)
    by (apply Nat.mod_upper_bound; discriminate).
  destruct (nth_error (a0 :: l) (r mod List.length (a0 :: l))) as [a|] eqn:Hn.
  - eexists. split; [exact Hk|exact Hn].
  - apply nth_error_None in Hn. lia.
Qed.

Lemma nth_error_removelast {A : Type} (l : list A) (k : nat) :
  (k < List.length (removelast l))%nat ->
  nth_error (removelast l) k = nth_error l k
  /\ (S k < List.length l)%nat.
Proof.
  rewrite removelast_firstn_len, length_firstn, nth_error_firstn.
  intros Hk. rewrite (proj2 (Nat.ltb_lt _ _)) by lia. split; [reflexivity|lia].
Qed.

Section InsertParentheses.

Variable self : t.
Variable g : string -> Z.
Variables lft rgt : string.

Local Abbreviation vs := (variables self).
Local Abbreviation nv := (fst (not_expr self)).

Hypothesis Hnd : NoDup vs.
Hypothesis Hp : parentheses self = graph g vs.
Hypothesis Hl : In lft vs.
Hypothesis Hr : In rgt vs.

Local Abbreviation g1 :=
  (if String.eqb rgt nv then upd g rgt (g rgt + 2) else g).
Local Abbreviation g2 := (upd g1 rgt (g1 rgt + 1)).

Lemma insert_parentheses_graph :
  insert_parentheses self lft rgt
  = if (g2 lft =? 0)
       && (Z.of_nat (List.length (expression self)) - 1 <=? g2 rgt)
    then OK (with_parentheses self (graph g2 vs))
    else OK (with_expression (with_parentheses self (graph g2 vs))
               (list_insert (g2 lft) "("
                  (list_insert (g2 rgt) ")" (expression self)))).
Proof.
  unfold insert_parentheses. rewrite Hp.
  assert (H1 : (if String.eqb rgt nv
                then v <- dict_get rgt (graph g vs) ;;
                     OK (dict_set rgt (v + 2) (graph g vs))
                else OK (graph g vs)) = OK (graph g1 vs)).
  { destruct (String.eqb rgt nv); [|reflexivity].
    rewrite graph_get by exact Hr. cbn [bind].
    now rewrite graph_set by assumption. }
  rewrite H1. cbn [bind].
  rewrite (graph_get g1 vs rgt Hr). cbn [bind].
  rewrite (graph_set g1 vs rgt _ Hnd Hr).
  rewrite (graph_get g2 vs lft Hl). cbn [bind].
  change (expression (with_parentheses self (graph g2 vs)))
    with (expression self).
  rewrite (graph_get g2 vs rgt Hr).
  destruct (g2 lft =? 0); cbn [bind andb].
  - destruct (Z.of_nat (List.length (expression self)) - 1 <=? g2 rgt);
      reflexivity.
  - reflexivity.
Qed.

End InsertParentheses.

(** One more group: the sequence stays well built; the turn fails only
    when there is a single variable to choose from. *)
Lemma add_group_spec (r : nat) (self : t) :
  well_formed self -> built self ->
  match add_group r self with
  | OK self' =>
      built self' /\ same_input self self'
      /\ (2 <= List.length (variables self))%nat
  | Raise x => x = IndexError /\ (List.length (variables self) <= 1)%nat
  end.
Proof.
  intros Hwf [Hv Hbal Hs].
  set (vs := variables self) in *. set (e := expression self) in *.
  set (nv := fst (not_expr self)) in *.
  pose proof (wf_nodup self Hwf) as Hnd. pose proof (wf_not self Hwf) as Hnv.
  fold vs in Hnd. fold vs nv in Hnv.
  destruct (nv_token self Hwf) as (Hn1 & Hn2 & Hn3). fold nv in Hn1, Hn2, Hn3.
  destruct (shape_idx nv Hn1 Hn2 e Hs) as (Hidx & _).
  pose proof (idx_nonneg e "NOT") as Hnn.
  assert (Hinc : increasing (idx e) vs)
    by (apply (filter_increasing (memb vs)); assumption).
  unfold add_group. rewrite (generate_indices_graph self Hnd Hv).
  cbn [bind]. fold nv vs e. rewrite (graph_get (idx e) vs nv Hnv). cbn [bind].
  rewrite (graph_set (idx e) vs nv _ Hnd Hnv).
  set (g := upd (idx e) nv (idx e nv - 2)).
  unfold generate_parentheses_positions. rewrite graph_keys.
  pose proof (choice_nth r (removelast vs)) as Hc.
  destruct (choice r (removelast vs)) as [lft|x]; cbn [bind].
  2:{ destruct Hc as (-> & Hc). split; [reflexivity|].
      rewrite removelast_firstn_len in Hc.
      apply (f_equal (@List.length string)) in Hc.
      rewrite length_firstn in Hc. simpl in Hc. lia. }
  destruct Hc as (k & Hk & Hlft).
  destruct (nth_error_removelast vs k Hk) as (Heq & Hklen).
  rewrite Heq in Hlft.
  assert (Hlin : In lft vs) by (eapply nth_error_In, Hlft).
  destruct (nth_error vs (S k)) as [rgt|] eqn:Hrgt;
    [|apply nth_error_None in Hrgt; lia].
  assert (Hrin : In rgt vs) by (eapply nth_error_In, Hrgt).
  rewrite (graph_get g vs lft Hlin). cbn [bind].
  unfold list_index. rewrite graph_position.
  rewrite (position_nodup string_dec vs k lft Hnd Hlft). cbn [bind].
  replace (Z.of_nat k + 1) with (Z.of_nat (S k)) by lia.
  rewrite (graph_list_get g vs (S k) rgt Hrgt). cbn [bind fst snd].
  assert (Hne : lft <> rgt).
  { intros ->. apply (position_nodup string_dec vs k rgt Hnd) in Hlft.
    apply (position_nodup string_dec vs (S k) rgt Hnd) in Hrgt.
    rewrite Hlft in Hrgt. injection Hrgt. lia. }
  rewrite (insert_parentheses_graph (with_parentheses self (graph g vs)) g
             lft rgt Hnd eq_refl Hlin Hrin).
  cbn [variables not_expr expression with_parentheses]. fold vs nv e.
  set (g1 := if String.eqb rgt nv then upd g rgt (g rgt + 2) else g).
  set (g2 := upd g1 rgt (g1 rgt + 1)).
  assert (Hlen2 : (2 <= List.length vs)%nat) by lia.
  destruct ((g2 lft =? 0) && (Z.of_nat (List.length e) - 1 <=? g2 rgt)).
  { split; [|split; [now repeat split|exact Hlen2]].
    apply (built_keep self); [now repeat split|reflexivity|].
    now constructor. }
  (* the values the dict holds for the two variables *)
  assert (Hg2r : g2 rgt = idx e rgt + 1).
  { unfold g2, upd at 1. rewrite String.eqb_refl. unfold g1.
    destruct (String.eqb rgt nv) eqn:Hrn.
    - apply String.eqb_eq in Hrn. unfold upd at 1. rewrite String.eqb_refl.
      unfold g, upd. rewrite Hrn, String.eqb_refl. lia.
    - unfold g, upd. rewrite String.eqb_sym, Hrn. reflexivity. }
  assert (Hg2l : g2 lft = if String.eqb nv lft then idx e "NOT" else idx e lft).
  { unfold g2, upd at 1. apply String.eqb_neq in Hne.
    rewrite String.eqb_sym, Hne. unfold g1.
    assert (Hgl : g lft = if String.eqb nv lft then idx e "NOT" else idx e lft).
    { unfold g, upd. destruct (String.eqb nv lft); [lia|reflexivity]. }
    destruct (String.eqb rgt nv); [|exact Hgl].
    unfold upd at 1. now rewrite String.eqb_sym, Hne. }
  pose proof (increasing_nth (idx e) vs k (S k) lft rgt Hinc Hlft Hrgt
                (Nat.lt_succ_diag_r k)) as Hlt.
  pose proof (idx_nonneg e lft) as Hln.
  pose proof (idx_lt_length e lft (vars_of_in vs e lft Hv Hlin)) as Hll.
  destruct (variable_token self lft Hwf Hlin) as (Hl1 & Hl2 & Hl3).
  destruct (variable_token self rgt Hwf Hrin) as (Hr1 & Hr2 & Hr3).
  assert (Hpl : 0 <= g2 lft <= idx e lft).
  { rewrite Hg2l. destruct (String.eqb nv lft) eqn:Hnl; [|lia].
    apply String.eqb_eq in Hnl. rewrite <- Hnl. lia. }
  rewrite !list_insert_ins by lia.
  set (P := Z.to_nat (g2 lft)). set (Q := Z.to_nat (g2 rgt)).
  assert (HPQ : (P <= Q)%nat) by (unfold P, Q; lia).
  assert (HPe : (P <= List.length e)%nat) by (unfold P; lia).
  assert (Hclose : ~ In ")" vs)
    by (apply (reserved_not_variable self _ Hwf); right; now right).
  assert (Hopen : ~ In "(" vs)
    by (apply (reserved_not_variable self _ Hwf); right; now left).
  (* where the two tokens go, with respect to the NOT *)
  set (N := Z.to_nat (idx e "NOT")).
  assert (HQN : (Q <= N \/ N + 3 <= Q)%nat).
  { unfold Q, N. rewrite Hg2r.
    destruct (string_dec rgt nv) as [->|Hrn]; [right; lia|].
    destruct (shape_away nv Hn1 Hn2 e rgt Hs
                (vars_of_in vs e rgt Hv Hrin) Hr1 Hr2 Hrn); [left|right]; lia. }
  destruct (shape_ins nv e ")" Q Hs) as (Hs1 & Hidx1);
    [discriminate|congruence|exact HQN|].
  fold N in Hidx1.
  assert (HPN : (P <= Z.to_nat (idx (ins Q ")" e) "NOT")
                 \/ Z.to_nat (idx (ins Q ")" e) "NOT") + 3 <= P)%nat).
  { rewrite Hidx1. unfold P. rewrite Hg2l.
    destruct (String.eqb nv lft) eqn:Hnl.
    - left. destruct (Q <=? N)%nat; lia.
    - apply String.eqb_neq in Hnl.
      destruct (shape_away nv Hn1 Hn2 e lft Hs
                  (vars_of_in vs e lft Hv Hlin) Hl1 Hl2) as [Hb|Ha];
        [congruence| |].
      + left. destruct (Q <=? N)%nat; lia.
      + right. unfold Q in *. rewrite Hg2r in *.
        rewrite (proj2 (Nat.leb_gt _ _)) by (unfold N; lia). unfold N. lia. }
  destruct (shape_ins nv (ins Q ")" e) "(" P Hs1) as (Hs2 & _);
    [discriminate|congruence|exact HPN|].
  split; [|split; [now repeat split|exact Hlen2]].
  constructor; cbn [variables expression not_expr with_expression
                    with_parentheses]; fold vs nv e.
  - now rewrite !vars_of_ins.
  - now apply balanced_wrap.
  - exact Hs2.
Qed.

Lemma add_groups_spec (rs : nat -> nat) (count : nat) :
  forall (k : nat) (self : t),
  well_formed self -> built self ->
  match add_groups rs k count self with
  | OK self' =>
      built self' /\ same_input self self'
      /\ (count = 0%nat \/ 2 <= List.length (variables self))%nat
  | Raise x =>
      x = IndexError /\ (List.length (variables self) <= 1)%nat
      /\ (0 < count)%nat
  end.
Proof.
  induction count as [|count IH]; intros k self Hwf Hb; cbn [add_groups].
  - split; [exact Hb|]. split; [apply same_input_refl|now left].
  - pose proof (add_group_spec (rs k) self Hwf Hb) as Hg.
    destruct (add_group (rs k) self) as [self1|x]; cbn [bind].
    + destruct Hg as (Hb1 & Hsame & Hlen).
      specialize (IH (S k) self1 (well_formed_same _ _ Hsame Hwf) Hb1).
      destruct (add_groups rs (S k) count self1) as [self2|x].
      * destruct IH as (Hb2 & Hsame2 & _). split; [exact Hb2|].
        split; [now apply same_input_trans with self1|now right].
      * destruct IH as (-> & Hle & _). destruct Hsame as (_ & Hvs & _).
        rewrite Hvs in Hle. lia.
    + destruct Hg as (-> & Hle). repeat split; [exact Hle|lia].
Qed.

(** The sequence after the operators, ["NOT"] and ["("] went in. *)
Lemma push_not_built (self : t) :
  well_formed self ->
  let self0 :=
    with_expression self (interleave (operators self) (variables self)) in
  exists a b,
    push_not self0
    = OK (with_expression self0 (a ++ "NOT" :: "(" :: fst (not_expr self) :: b))
    /\ Forall (fun tok => ~ reserved tok) a
    /\ Forall (fun tok => ~ reserved tok) b
    /\ ~ In (fst (not_expr self)) a
    /\ vars_of (variables self) (a ++ "NOT" :: "(" :: fst (not_expr self) :: b)
       = variables self.
Proof.
  intros Hwf self0.
  assert (Hsame0 : same_input self self0) by now repeat split.
  pose proof (well_formed_same _ _ Hsame0 Hwf) as Hwf0.
  assert (Hv0 : vars_of (variables self0) (expression self0) = variables self0).
  { cbn [variables expression self0 with_expression].
    rewrite interleave_vars, vars_of_self; [reflexivity|].
    intros o Ho. apply (operator_not_variable self o Hwf).
    pose proof (wf_operators self Hwf) as Hops. rewrite Forall_forall in Hops.
    now apply Hops. }
  assert (He0 : Forall (fun tok => ~ reserved tok) (expression self0)).
  { rewrite Forall_forall. intros tok Hin.
    cbn [expression self0 with_expression] in Hin.
    apply interleave_tokens in Hin. destruct Hin as [Hin|Hin].
    - intros Hr. now apply (reserved_not_variable self tok Hwf Hr).
    - apply operator_not_reserved.
      pose proof (wf_operators self Hwf) as Hops. rewrite Forall_forall in Hops.
      now apply Hops. }
  destruct (push_not_spec self0 Hwf0 Hv0 He0) as (a & b & Hab & Hnva & Hpush).
  exists a, b. split; [exact Hpush|].
  rewrite Hab in He0. apply Forall_app in He0 as [Ha Hb].
  apply Forall_inv_tail in Hb. repeat split; try assumption.
  change (a ++ "NOT" :: "(" :: fst (not_expr self) :: b)
    with (a ++ ["NOT"; "("] ++ fst (not_expr self0) :: b).
  change (variables self) with (variables self0).
  rewrite <- Hv0 at 2. rewrite Hab. unfold vars_of.
  rewrite !filter_app. f_equal. cbn [filter app].
  rewrite (proj2 (memb_false (variables self0) "NOT")),
          (proj2 (memb_false (variables self0) "("));
    [reflexivity| |];
    apply (reserved_not_variable self0 _ Hwf0); [right|]; now left.
Qed.

(** What [build] does on a well-formed instance. *)
Lemma build_spec (rs : nat -> nat) (self : t) :
  well_formed self ->
  match build rs self with
  | OK self' =>
      built self' /\ same_input self self'
      /\ (paren_count self <= 0 \/ (2 <= List.length (variables self))%nat)
  | Raise x =>
      x = IndexError /\ (List.length (variables self) <= 1)%nat
      /\ 0 < paren_count self
  end.
Proof.
  intros Hwf. unfold build.
  destruct (push_not_built self Hwf) as (a & b & Hpush & Ha & Hb & Hnva & Hv).
  set (self0 := with_expression self
                  (interleave (operators self) (variables self))) in *.
  rewrite Hpush. cbn [bind].
  set (self1 := with_expression self0
                  (a ++ "NOT" :: "(" :: fst (not_expr self) :: b)).
  assert (Hsame1 : same_input self self1) by now repeat split.
  destruct (close_not_built self1 a b (well_formed_same _ _ Hsame1 Hwf)
              eq_refl Ha Hb Hnva Hv) as (self2 & Hclose & Hb2 & Hsame2).
  rewrite Hclose. cbn [bind].
  assert (Hsame02 : same_input self self2)
    by now apply same_input_trans with self1.
  pose proof (add_groups_spec rs (Z.to_nat (paren_count self)) 0 self2
                (well_formed_same _ _ Hsame02 Hwf) Hb2) as Hg.
  destruct Hsame02 as (Hpc & Hvs & Hops & Hne).
  destruct (add_groups rs 0 (Z.to_nat (paren_count self)) self2) as [self3|x].
  - destruct Hg as (Hb3 & Hsame3 & Hcases). split; [exact Hb3|]. split.
    + apply same_input_trans with self2; [now repeat split|exact Hsame3].
    + rewrite Hvs in Hcases. destruct Hcases; [left; lia|now right].
  - destruct Hg as (-> & Hle & Hpos). rewrite Hvs in Hle.
    repeat split; [exact Hle|lia].
Qed.

End BuildFacts.

Module ExpressionBuilderSpec.

Import ExpressionBuilder.
Import ListFacts DictFacts PyFacts IndexFacts ShapeFacts BuildFacts.

(** What [__init__] leaves in the instance. *)
Lemma init_fields (vars ops : list string) (pc : Z) (d : draws) (b : t) :
  init vars ops pc d = OK b ->
  paren_count b = pc
  /\ List.length vars = (List.length ops + 1)%nat
  /\ Permutation vars (variables b)
  /\ Permutation ops (operators b)
  /\ In (fst (not_expr b)) (variables b)
  /\ (snd (not_expr b) = 0 \/ snd (not_expr b) = 1).
Proof.
  unfold init, generate_variables_order, generate_operator_order.
  destruct (Nat.eqb _ _) eqn:Hlen; [|discriminate].
  apply Nat.eqb_eq in Hlen.
  unfold generate_not_subexpression.
  assert (Hm : (not_precedence d mod 2 < 2)%nat)
    by (apply Nat.mod_upper_bound; discriminate).
  revert Hm. generalize (not_precedence d mod 2)%nat. intros m Hm.
  pose proof (choice_nth (not_variable d) (shuffle (variables_order d) vars)) as Hc.
  destruct (choice _ _) as [v|x]; cbn [bind]; [|discriminate].
  intros H. injection H as <-.
  cbn [paren_count variables operators not_expr fst snd].
  split; [reflexivity|]. split; [exact Hlen|]. split; [apply shuffle_perm|].
  split; [apply shuffle_perm|]. split.
  - destruct Hc as (k & _ & Hk). eapply nth_error_In, Hk.
  - lia.
Qed.

Lemma init_well_formed (vars ops : list string) (pc : Z) (d : draws) (b : t) :
  valid_input vars ops -> init vars ops pc d = OK b -> well_formed b.
Proof.
  intros (Hnd & Hvars & Hops) Hinit.
  destruct (init_fields vars ops pc d b Hinit) as (_ & _ & Hpv & Hpo & Hin & _).
  constructor.
  - now apply (Permutation_NoDup Hpv).
  - now apply (Permutation_Forall Hpv).
  - now apply (Permutation_Forall Hpo).
  - exact Hin.
Qed.

(** C7.  The constructor returns an instance when there is one operator
    less than there are variables, and raises at its [assert] otherwise;
    it is a function of its arguments and draws. *)
Theorem init_arity (vars ops : list string) (pc : Z) (d : draws) :
  (Z.of_nat (List.length ops) = Z.of_nat (List.length vars) - 1 ->
   exists b, init vars ops pc d = OK b)
  /\ (Z.of_nat (List.length ops) <> Z.of_nat (List.length vars) - 1 ->
      init vars ops pc d = Raise AssertionError).
Proof.
  unfold init, generate_variables_order. split; intros Hlen.
  - rewrite (proj2 (Nat.eqb_eq _ _)) by lia.
    unfold generate_not_subexpression.
    pose proof (choice_nth (not_variable d) (shuffle (variables_order d) vars)) as Hc.
    destruct (choice _ _) as [v|x]; cbn [bind]; [eexists; reflexivity|].
    destruct Hc as (_ & Hnil). exfalso.
    pose proof (Permutation_length (shuffle_perm (variables_order d) vars)) as Hl.
    rewrite Hnil in Hl. simpl in Hl. lia.
  - rewrite (proj2 (Nat.eqb_neq _ _)) by lia. reflexivity.
Qed.

Lemma valid_abc : valid_input ["A"; "B"; "C"] ["AND"; "OR"].
Proof.
  split; [|split].
  - repeat (apply NoDup_cons; [simpl; intuition discriminate|]).
    apply NoDup_nil.
  - repeat (apply Forall_cons;
            [split; unfold reserved, is_operator; intuition discriminate|]).
    apply Forall_nil.
  - repeat (apply Forall_cons; [unfold is_operator; auto|]). apply Forall_nil.
Qed.

(** With at least two variables, or no extra group asked for, [build]
    returns and the parentheses of the sequence are balanced. *)
Theorem build_balanced (vars ops : list string) (pc : Z) (d : draws)
  (rs : nat -> nat) (b : t) :
  valid_input vars ops -> init vars ops pc d = OK b ->
  (2 <= List.length vars)%nat \/ pc <= 0 ->
  exists b', build rs b = OK b' /\ balanced (expression b').
Proof.
  intros Hvalid Hinit Hsize.
  pose proof (init_well_formed vars ops pc d b Hvalid Hinit) as Hwf.
  destruct (init_fields vars ops pc d b Hinit) as (Hpc & _ & Hpv & _).
  pose proof (build_spec rs b Hwf) as Hb.
  destruct (build rs b) as [b'|x].
  - exists b'. split; [reflexivity|]. destruct Hb as (Hbuilt & _).
    apply (built_balanced b' Hbuilt).
  - exfalso. destruct Hb as (_ & Hle & Hpos).
    rewrite <- (Permutation_length Hpv) in Hle. lia.
Qed.

(** The instance of [main]. *)
Lemma build_balanced_witness :
  valid_input ["A"; "B"; "C"] ["AND"; "OR"]
  /\ init ["A"; "B"; "C"] ["AND"; "OR"] 2 (first_draws 2 1) = OK (abc 2 "C" 1)
  /\ ((2 <= List.length ["A"; "B"; "C"])%nat \/ 2 <= 0)
  /\ exists b', build (fun k => k) (abc 2 "C" 1) = OK b'
                /\ balanced (expression b').
Proof.
  split; [exact valid_abc|]. split; [reflexivity|].
  assert (H : (2 <= List.length ["A"; "B"; "C"])%nat \/ 2 <= 0)
    by (left; simpl; lia).
  split; [exact H|].
  exact (build_balanced ["A"; "B"; "C"] ["AND"; "OR"] 2 (first_draws 2 1)
           (fun k => k) (abc 2 "C" 1) valid_abc eq_refl H).
Defined.

(** The two ways [build] can end on an instance the constructor made from
    valid arguments. *)
Theorem build_outcome (vars ops : list string) (pc : Z) (d : draws)
  (rs : nat -> nat) (b : t) :
  valid_input vars ops -> init vars ops pc d = OK b ->
  match build rs b with
  | OK b' =>
      balanced (expression b')
      /\ ((2 <= List.length vars)%nat \/ pc <= 0)
  | Raise x => x = IndexError /\ List.length vars = 1%nat /\ 0 < pc
  end.
Proof.
  intros Hvalid Hinit.
  pose proof (init_well_formed vars ops pc d b Hvalid Hinit) as Hwf.
  destruct (init_fields vars ops pc d b Hinit) as (Hpc & Hlen & Hpv & _).
  pose proof (build_spec rs b Hwf) as Hb.
  rewrite <- (Permutation_length Hpv), Hpc in Hb.
  destruct (build rs b) as [b'|x].
  - destruct Hb as (Hbuilt & _ & Hcases). split.
    + apply (built_balanced b' Hbuilt).
    + destruct Hcases; [now right|now left].
  - destruct Hb as (-> & Hle & Hpos). repeat split; [lia|exact Hpos].
Qed.

(** C1, at the failing input.  One variable, no operator and the default
    [paren_count] of 1: [random.choice] is given an empty list and [build]
    raises [IndexError]. *)
Lemma single_variable_build_raises :
  init ["A"] [] 1 (first_draws 0 1)
  = OK {| paren_count := 1;
          variables := ["A"];
          operators := [];
          not_expr := ("A", 1);
          parentheses := [];
          expression := [] |}
  /\ build (fun _ => 0%nat)
       {| paren_count := 1;
          variables := ["A"];
          operators := [];
          not_expr := ("A", 1);
          parentheses := [];
          expression := [] |}
     = Raise IndexError.
Proof. split; reflexivity. Qed.

(** C2, at the failing input.  [A AND B OR C], the NOT on [B] with low
    precedence and one extra group drawn on [A] and [B]: the ["("] at index
    0 is closed by the [")"] at the last index. *)
Lemma group_spans_whole_sequence :
  init ["A"; "B"; "C"] ["AND"; "OR"] 1 (first_draws 1 0) = OK (abc 1 "B" 0)
  /\ exists b',
       build (fun _ => 0%nat) (abc 1 "B" 0) = OK b'
       /\ expression b'
          = ["("; "A"; "AND"; "NOT"; "("; "B"; ")"; "OR"; "C"; ")"]
       /\ closing 0 1 (tl (expression b'))
          = Some (List.length (expression b') - 1)%nat
       /\ group_spans_all (expression b') = true.
Proof.
  split; [reflexivity|]. eexists. split; [reflexivity|].
  split; [reflexivity|]. split; reflexivity.
Qed.

(** The same with the high precedence and two groups that overlap, as
    [main] can draw them. *)
Lemma overlapping_groups_span_whole_sequence :
  exists b',
    build (fun k => k) (abc 2 "C" 1) = OK b'
    /\ expression b'
       = ["("; "A"; "AND"; "("; "B"; ")"; "OR"; "NOT"; "("; "C"; ")"; ")"]
    /\ group_spans_all (expression b') = true.
Proof. eexists. split; [reflexivity|]. split; reflexivity. Qed.

(** C6.  In every sequence [build] returns the token ["NOT"] occurs
    once, and the token after it is ["("]. *)
Theorem one_not (vars ops : list string) (pc : Z) (d : draws)
  (rs : nat -> nat) (b b' : t) :
  valid_input vars ops -> init vars ops pc d = OK b -> build rs b = OK b' ->
  count_occ string_dec (expression b') "NOT" = 1%nat
  /\ exists i, nth_error (expression b') i = Some "NOT"
               /\ nth_error (expression b') (S i) = Some "(".
Proof.
  intros Hvalid Hinit Hbuild.
  pose proof (init_well_formed vars ops pc d b Hvalid Hinit) as Hwf.
  pose proof (build_spec rs b Hwf) as Hb. rewrite Hbuild in Hb.
  destruct Hb as (Hbuilt & Hsame & _).
  pose proof (built_shape b' Hbuilt) as Hs.
  destruct (nv_token b' (well_formed_same _ _ Hsame Hwf)) as (Hn1 & Hn2 & _).
  split; [now apply (shape_not_once _ Hn1)|].
  destruct (shape_idx _ Hn1 Hn2 _ Hs) as (_ & H0 & H1 & _).
  exists (Z.to_nat (idx (expression b') "NOT")).
  split; [exact H0|]. now rewrite <- Nat.add_1_r.
Qed.

(** The instance of [main] with two extra groups. *)
Lemma one_not_witness :
  valid_input ["A"; "B"; "C"] ["AND"; "OR"]
  /\ init ["A"; "B"; "C"] ["AND"; "OR"] 2 (first_draws 2 1) = OK (abc 2 "C" 1)
  /\ build (fun k => k) (abc 2 "C" 1)
     = OK {| paren_count := 2;
             variables := ["A"; "B"; "C"];
             operators := ["AND"; "OR"];
             not_expr := ("C", 1);
             parentheses := [("A", 1); ("B", 3); ("C", 9)];
             expression := ["("; "A"; "AND"; "("; "B"; ")"; "OR"; "NOT"; "(";
                            "C"; ")"; ")"] |}
  /\ count_occ string_dec
       ["("; "A"; "AND"; "("; "B"; ")"; "OR"; "NOT"; "("; "C"; ")"; ")"] "NOT"
     = 1%nat
  /\ exists i,
       nth_error
         ["("; "A"; "AND"; "("; "B"; ")"; "OR"; "NOT"; "("; "C"; ")"; ")"] i
       = Some "NOT"
       /\ nth_error
            ["("; "A"; "AND"; "("; "B"; ")"; "OR"; "NOT"; "("; "C"; ")"; ")"]
            (S i)
          = Some "(".
Proof.
  split; [exact valid_abc|]. split; [reflexivity|]. split; [reflexivity|].
  exact (one_not ["A"; "B"; "C"] ["AND"; "OR"] 2 (first_draws 2 1)
           (fun k => k) (abc 2 "C" 1) _ valid_abc eq_refl eq_refl).
Defined.

(** C4, as amended.  With the low precedence the [")"] of the NOT goes
    right after the variable that follows the negated one, and at the very
    end when the negated variable is the last one. *)
Theorem low_precedence_closing (rs : nat -> nat) (self : t)
  (l1 l2 : list string) :
  well_formed self -> snd (not_expr self) = 0 ->
  variables self = l1 ++ fst (not_expr self) :: l2 ->
  exists self1 self2,
    push_not (with_expression self
                (interleave (operators self) (variables self))) = OK self1
    /\ close_not self1 = OK self2
    /\ build rs self = add_groups rs 0 (Z.to_nat (paren_count self)) self2
    /\ match l2 with
       | [] => expression self2 = expression self1 ++ [")"]
       | w :: _ =>
           exists a b,
             expression self1 = a ++ w :: b /\ ~ In w a
             /\ expression self2 = a ++ w :: ")" :: b
       end.
Proof.
  intros Hwf Hprec Hvars.
  destruct (push_not_built self Hwf) as (a & b & Hpush & Ha & Hb & Hnva & Hv).
  set (self0 := with_expression self
                  (interleave (operators self) (variables self))) in *.
  set (self1 := with_expression self0
                  (a ++ "NOT" :: "(" :: fst (not_expr self) :: b)) in *.
  assert (Hsame1 : same_input self self1) by now repeat split.
  pose proof (well_formed_same _ _ Hsame1 Hwf) as Hwf1.
  assert (Hs : shape (fst (not_expr self1)) (expression self1)).
  { exists a, b. repeat split; [| exact Hnva |].
    - intros H. rewrite Forall_forall in Ha. apply (Ha "NOT" H). now left.
    - intros H. rewrite Forall_forall in Hb. apply (Hb "NOT" H). now left. }
  destruct (close_not_spec self1 Hwf1 Hv Hs) as (Q & Hclose & _ & Hlow & _).
  exists self1. eexists. split; [exact Hpush|]. split; [exact Hclose|].
  split.
  { unfold build. fold self0. rewrite Hpush. cbn [bind]. fold self1.
    now rewrite Hclose. }
  specialize (Hlow Hprec (List.length l1)).
  cbn [variables self1 self0 with_expression not_expr] in Hlow.
  rewrite Hvars in Hlow.
  rewrite nth_error_app2, Nat.sub_diag in Hlow by lia.
  specialize (Hlow eq_refl).
  change (S (List.length l1)) with (1 + List.length l1)%nat in Hlow.
  rewrite nth_error_app2 in Hlow by lia.
  replace (1 + List.length l1 - List.length l1)%nat with 1%nat in Hlow by lia.
  cbn [expression with_expression with_parentheses].
  destruct l2 as [|w l2]; cbn [nth_error] in Hlow.
  - rewrite Hlow. apply ins_beyond. cbn [expression self1 with_expression]. lia.
  - assert (Hw : In w (expression self1)).
    { apply (vars_of_in (variables self1)); [exact Hv|].
      cbn [variables self1 self0 with_expression]. rewrite Hvars.
      apply in_or_app. right. right. now left. }
    destruct (position_split string_dec w _ _ (idx_position _ w Hw))
      as (a' & b' & Hab & Hlen & Hna).
    exists a', b'. split; [exact Hab|]. split; [exact Hna|].
    rewrite Hlow, <- Hlen.
    cbn [expression self1 with_expression] in Hab |- *. rewrite Hab.
    rewrite ins_app_r by lia.
    replace (List.length a' + 1 - List.length a')%nat with 1%nat by lia.
    reflexivity.
Qed.

Lemma abc_well_formed (pc : Z) (prec : Z) : well_formed (abc pc "A" prec).
Proof.
  destruct valid_abc as (H1 & H2 & H3). constructor; try assumption.
  now left.
Qed.

(** [A AND B OR C] with the NOT on [A]. *)
Lemma low_precedence_closing_witness :
  well_formed (abc 0 "A" 0) /\ snd (not_expr (abc 0 "A" 0)) = 0
  /\ variables (abc 0 "A" 0) = [] ++ fst (not_expr (abc 0 "A" 0)) :: ["B"; "C"]
  /\ exists self1 self2,
       push_not (with_expression (abc 0 "A" 0)
                   (interleave (operators (abc 0 "A" 0))
                      (variables (abc 0 "A" 0)))) = OK self1
       /\ close_not self1 = OK self2
       /\ build (fun _ => 0%nat) (abc 0 "A" 0)
          = add_groups (fun _ => 0%nat) 0
              (Z.to_nat (paren_count (abc 0 "A" 0))) self2
       /\ exists a b,
            expression self1 = a ++ "B" :: b /\ ~ In "B" a
            /\ expression self2 = a ++ "B" :: ")" :: b.
Proof.
  split; [apply abc_well_formed|]. split; [reflexivity|]. split; [reflexivity|].
  exact (low_precedence_closing (fun _ => 0%nat) (abc 0 "A" 0) [] ["B"; "C"]
           (abc_well_formed 0 0) eq_refl eq_refl).
Defined.

(** C4, counterexample.  In [NOT ( A AND B OR C] the next variable [B] is
    at index 4; the [")"] ends up after [B], not before it. *)
Lemma low_precedence_closes_after_next :
  exists self1 self2,
    push_not (with_expression (abc 0 "A" 0)
                (interleave (operators (abc 0 "A" 0))
                   (variables (abc 0 "A" 0)))) = OK self1
    /\ close_not self1 = OK self2
    /\ expression self1 = ["NOT"; "("; "A"; "AND"; "B"; "OR"; "C"]
    /\ index_of "B" (expression self1) = OK 4
    /\ expression self2 = ["NOT"; "("; "A"; "AND"; "B"; ")"; "OR"; "C"]
    /\ list_insert 4 ")" (expression self1)
       = ["NOT"; "("; "A"; "AND"; ")"; "B"; "OR"; "C"]
    /\ expression self2 <> list_insert 4 ")" (expression self1).
Proof.
  do 2 eexists. split; [reflexivity|]. split; [reflexivity|].
  repeat split; try reflexivity. discriminate.
Qed.

End ExpressionBuilderSpec.

(** ** More on the expression builder *)

Module BuilderFacts.

Import ExpressionBuilder Tokens.
Import ListFacts DictFacts PyFacts IndexFacts ShapeFacts BuildFacts.

Lemma list_insert_as_ins {A : Type} (i : Z) (x : A) (l : list A) :
  exists k, list_insert i x l = ins k x l.
Proof. eexists. reflexivity. Qed.

Lemma position_none {A : Type} (eq_dec : forall x y : A, {x = y} + {x <> y})
  (x : A) (l : list A) :
  position eq_dec x l = None -> ~ In x l.
Proof.
  induction l as [|y l IH]; simpl; [auto|].
  destruct (eq_dec y x) as [Heq|Hne]; [discriminate|].
  destruct (position eq_dec x l); [discriminate|].
  intros _ [H|H]; [contradiction|now apply IH].
Qed.

(** The pairs [(var, index)], or the variable that is not there. *)
Lemma index_pairs_outcome (vs e : list string) :
  match index_pairs vs e with
  | OK pairs => pairs = graph (idx e) vs /\ (forall v, In v vs -> In v e)
  | Raise x => x = ValueError /\ exists v, In v vs /\ ~ In v e
  end.
Proof.
  induction vs as [|v vs IH]; cbn [index_pairs].
  - split; [reflexivity|intros v []].
  - unfold index_of, list_index.
    destruct (position string_dec v e) as [k|] eqn:Hk; cbn [bind].
    + destruct (index_pairs vs e) as [pairs|x]; cbn [bind].
      * destruct IH as (-> & Hin). split.
        -- change (graph (idx e) (v :: vs))
             with ((v, idx e v) :: graph (idx e) vs).
           do 2 f_equal. unfold idx. now rewrite Hk.
        -- intros w [<-|Hw]; [|now apply Hin].
           apply (position_nth string_dec) in Hk. eapply nth_error_In, Hk.
      * destruct IH as (-> & w & Hw & Hne). split; [reflexivity|].
        exists w. split; [now right|exact Hne].
    + split; [reflexivity|]. exists v. split; [now left|].
      now apply (position_none string_dec).
Qed.

Lemma dict_as_graph (p : dict Z) :
  NoDup (dict_keys p) ->
  p = graph (fun k => match dict_find k p with Some v => v | None => 0 end)
        (dict_keys p).
Proof.
  induction p as [|[k v] p IH]; intros Hnd; [reflexivity|].
  cbn [dict_keys map fst] in Hnd. apply NoDup_cons_iff in Hnd as [Hk Hnd].
  cbn [dict_keys map fst graph dict_find]. rewrite String.eqb_refl. f_equal.
  rewrite (IH Hnd) at 1. apply graph_ext. intros w Hw.
  destruct (String.eqb k w) eqn:Hkw; [|reflexivity].
  apply String.eqb_eq in Hkw. subst w. contradiction.
Qed.

Lemma strongly_sorted_strict {A : Type} (R R' : A -> A -> Prop) (l : list A) :
  NoDup l ->
  (forall a b, In a l -> In b l -> a <> b -> R a b -> R' a b) ->
  StronglySorted R l -> StronglySorted R' l.
Proof.
  intros Hnd Himp Hs. induction Hs as [|a l Hs IH Hall]; constructor.
  - apply IH; [now apply NoDup_cons_iff in Hnd|].
    intros x y Hx Hy. apply Himp; now right.
  - apply NoDup_cons_iff in Hnd as [Ha _]. rewrite Forall_forall in *.
    intros b Hb. apply Himp; [now left|now right| |now apply Hall].
    intros ->. contradiction.
Qed.

(** What [__generate_indices_of_variables] returns, or why it raises. *)
Lemma generate_indices_outcome (self : t) :
  NoDup (variables self) ->
  match generate_indices_of_variables self with
  | OK p =>
      Permutation (dict_keys p) (variables self)
      /\ StronglySorted (fun a b : string * Z => snd a < snd b) p
      /\ Forall (fun kv : string * Z =>
                   0 <= snd kv
                   /\ nth_error (expression self) (Z.to_nat (snd kv))
                      = Some (fst kv)
                   /\ ~ In (fst kv)
                        (firstn (Z.to_nat (snd kv)) (expression self))) p
  | Raise x =>
      x = ValueError
      /\ exists v, In v (variables self) /\ ~ In v (expression self)
  end.
Proof.
  intros Hnd. unfold generate_indices_of_variables.
  pose proof (index_pairs_outcome (variables self) (expression self)) as Hp.
  destruct (index_pairs (variables self) (expression self)) as [pairs|x];
    cbn [bind]; [|exact Hp].
  destruct Hp as (-> & Hin).
  set (vs := variables self) in *. set (e := expression self) in *.
  set (S := sorted_by_key snd (graph (idx e) vs)).
  assert (Hperm : Permutation (graph (idx e) vs) S) by apply sorted_perm.
  assert (Hkeys : Permutation (dict_keys S) vs).
  { transitivity (dict_keys (graph (idx e) vs)); [|now rewrite graph_keys].
    unfold dict_keys. apply Permutation_map. now symmetry. }
  assert (HndS : NoDup (map fst S))
    by (apply (Permutation_NoDup (Permutation_sym Hkeys)), Hnd).
  rewrite (dict_of_pairs_nodup S HndS).
  assert (Hmem : forall kv, In kv S ->
                   In (fst kv) vs /\ snd kv = idx e (fst kv)).
  { intros kv Hkv. apply (Permutation_in _ (Permutation_sym Hperm)) in Hkv.
    unfold graph in Hkv. apply in_map_iff in Hkv.
    destruct Hkv as (v & <- & Hv). now split. }
  split; [exact Hkeys|]. split.
  - apply (strongly_sorted_strict
             (fun a b : string * Z => (snd a <=? snd b) = true)).
    + now apply NoDup_map_inv in HndS.
    + intros a b Ha Hb Hab Hle. apply Z.leb_le in Hle.
      destruct (Hmem a Ha) as (Hva & Hia). destruct (Hmem b Hb) as (Hvb & Hib).
      destruct (Z.eq_dec (snd a) (snd b)) as [Heq|Hne]; [|lia].
      exfalso. apply Hab.
      pose proof (idx_nth e (fst a) (Hin _ Hva)) as Hna.
      pose proof (idx_nth e (fst b) (Hin _ Hvb)) as Hnb.
      rewrite <- Hia in Hna. rewrite <- Hib, <- Heq, Hna in Hnb.
      destruct a, b. simpl in *. congruence.
    + apply sorted_strongly.
      * intros a b. destruct (Z.leb_spec (snd a) (snd b)); [now left|].
        right. apply Z.leb_le. lia.
      * intros a b c Hab Hbc. apply Z.leb_le in Hab, Hbc. apply Z.leb_le. lia.
  - rewrite Forall_forall. intros kv Hkv. destruct (Hmem kv Hkv) as (Hv & Hi).
    rewrite Hi. split; [apply idx_nonneg|].
    split; [apply idx_nth; now apply Hin|].
    destruct (position_split string_dec (fst kv) e _
                (idx_position e (fst kv) (Hin _ Hv)))
      as (l1 & l2 & He & Hlen & Hnot).
    rewrite <- Hlen. rewrite He.
    now rewrite firstn_app, Nat.sub_diag, firstn_all, firstn_O, app_nil_r.
Qed.

End BuilderFacts.

Module BuilderSpec.

Import ExpressionBuilder Tokens.
Import ListFacts DictFacts PyFacts IndexFacts ShapeFacts BuildFacts.
Import BuilderFacts.

(** X1.  The constructor keeps what it was given: the instance holds the
    variables and the operators in some order, negates one of the
    variables, with a precedence of 0 or 1, and starts with no token and no
    recorded index. *)
Theorem init_keeps_arguments (vars ops : list string) (pc : Z) (d : draws)
  (b : t) :
  init vars ops pc d = OK b ->
  paren_count b = pc
  /\ Permutation vars (variables b)
  /\ Permutation ops (operators b)
  /\ In (fst (not_expr b)) vars
  /\ (snd (not_expr b) = 0 \/ snd (not_expr b) = 1)
  /\ expression b = [] /\ parentheses b = [].
Proof.
  intros Hinit.
  destruct (ExpressionBuilderSpec.init_fields vars ops pc d b Hinit)
    as (Hpc & _ & Hpv & Hpo & Hin & Hprec).
  repeat split; try assumption.
  - apply (Permutation_in _ (Permutation_sym Hpv) Hin).
  - revert Hinit. unfold init. destruct (Nat.eqb _ _); [|discriminate].
    destruct (generate_not_subexpression d _); cbn [bind]; [|discriminate].
    now intros [= <-].
  - revert Hinit. unfold init. destruct (Nat.eqb _ _); [|discriminate].
    destruct (generate_not_subexpression d _); cbn [bind]; [|discriminate].
    now intros [= <-].
Qed.

Lemma init_keeps_arguments_witness :
  init ["A"; "B"; "C"] ["AND"; "OR"] 2
    {| variables_order := fun k => k;
       operators_order := fun _ => 1%nat;
       not_variable := 4;
       not_precedence := 3 |}
  = OK {| paren_count := 2;
          variables := ["C"; "B"; "A"];
          operators := ["OR"; "AND"];
          not_expr := ("B", 1);
          parentheses := [];
          expression := [] |}
  /\ (2 = 2
      /\ Permutation ["A"; "B"; "C"] ["C"; "B"; "A"]
      /\ Permutation ["AND"; "OR"] ["OR"; "AND"]
      /\ In "B" ["A"; "B"; "C"]
      /\ (1 = 0 \/ 1 = 1)
      /\ @nil string = [] /\ @nil (string * Z) = []).
Proof.
  split; [reflexivity|].
  exact (init_keeps_arguments ["A"; "B"; "C"] ["AND"; "OR"] 2
           {| variables_order := fun k => k;
              operators_order := fun _ => 1%nat;
              not_variable := 4;
              not_precedence := 3 |} _ eq_refl).
Defined.

(** X2.  For distinct variables, [__generate_indices_of_variables] raises
    [ValueError] exactly when a variable is not in the token sequence;
    otherwise its dict has the variables as keys, in the order of their
    first occurrence, each with the index of that occurrence. *)
Theorem indices_of_variables (self : t) :
  NoDup (variables self) ->
  match generate_indices_of_variables self with
  | OK p =>
      Permutation (dict_keys p) (variables self)
      /\ StronglySorted (fun a b : string * Z => snd a < snd b) p
      /\ Forall (fun kv : string * Z =>
                   0 <= snd kv
                   /\ nth_error (expression self) (Z.to_nat (snd kv))
                      = Some (fst kv)
                   /\ ~ In (fst kv)
                        (firstn (Z.to_nat (snd kv)) (expression self))) p
  | Raise x =>
      x = ValueError
      /\ exists v, In v (variables self) /\ ~ In v (expression self)
  end.
Proof. apply generate_indices_outcome. Qed.

Lemma indices_of_variables_witness :
  NoDup ["C"; "A"]
  /\ Permutation (dict_keys [("A", 2); ("C", 5)]) ["C"; "A"]
  /\ StronglySorted (fun a b : string * Z => snd a < snd b)
       [("A", 2); ("C", 5)]
  /\ Forall (fun kv : string * Z =>
               0 <= snd kv
               /\ nth_error ["NOT"; "("; "A"; ")"; "AND"; "C"]
                    (Z.to_nat (snd kv)) = Some (fst kv)
               /\ ~ In (fst kv)
                    (firstn (Z.to_nat (snd kv))
                       ["NOT"; "("; "A"; ")"; "AND"; "C"]))
       [("A", 2); ("C", 5)].
Proof.
  assert (Hnd : NoDup ["C"; "A"]).
  { repeat (apply NoDup_cons; [simpl; intuition discriminate|]).
    apply NoDup_nil. }
  split; [exact Hnd|].
  exact (indices_of_variables
           {| paren_count := 1;
              variables := ["C"; "A"];
              operators := ["AND"];
              not_expr := ("A", 1);
              parentheses := [];
              expression := ["NOT"; "("; "A"; ")"; "AND"; "C"] |} Hnd).
Defined.

(** X3.  On a dict with at least two keys
    [__generate_parentheses_positions] returns two keys that are
    neighbours in the order of the dict, the left one first, so the last
    key is never the left one; on a dict with fewer keys it raises
    [IndexError]. *)
Theorem parentheses_positions (r : nat) (p : dict Z) :
  NoDup (dict_keys p) ->
  match generate_parentheses_positions r p with
  | OK lr =>
      exists k,
        nth_error (dict_keys p) k = Some (fst lr)
        /\ nth_error (dict_keys p) (S k) = Some (snd lr)
  | Raise x => x = IndexError /\ (List.length p <= 1)%nat
  end.
Proof.
  intros Hnd. rewrite (dict_as_graph p Hnd).
  set (g := fun k => match dict_find k p with Some v => v | None => 0 end).
  set (vs := dict_keys p) in *.
  assert (Hlen : List.length (graph g vs) = List.length vs)
    by (unfold graph; apply length_map).
  unfold generate_parentheses_positions. rewrite graph_keys.
  pose proof (choice_nth r (removelast vs)) as Hc.
  destruct (choice r (removelast vs)) as [lft|x]; cbn [bind].
  2:{ destruct Hc as (-> & Hc). split; [reflexivity|]. rewrite Hlen.
      rewrite removelast_firstn_len in Hc.
      apply (f_equal (@List.length string)) in Hc.
      rewrite length_firstn in Hc. simpl in Hc. lia. }
  destruct Hc as (k & Hk & Hlft).
  destruct (nth_error_removelast vs k Hk) as (Heq & Hklen).
  rewrite Heq in Hlft.
  assert (Hlin : In lft vs) by (eapply nth_error_In, Hlft).
  destruct (nth_error vs (S k)) as [rgt|] eqn:Hrgt;
    [|apply nth_error_None in Hrgt; lia].
  rewrite (graph_get g vs lft Hlin). cbn [bind].
  unfold list_index. rewrite graph_position.
  rewrite (position_nodup string_dec vs k lft Hnd Hlft). cbn [bind].
  replace (Z.of_nat k + 1) with (Z.of_nat (S k)) by lia.
  rewrite (graph_list_get g vs (S k) rgt Hrgt). cbn [bind fst snd].
  exists k. now split.
Qed.

Lemma parentheses_positions_witness :
  NoDup (dict_keys [("A", 0); ("B", 2); ("C", 6)])
  /\ exists k,
       nth_error (dict_keys [("A", 0); ("B", 2); ("C", 6)]) k = Some "B"
       /\ nth_error (dict_keys [("A", 0); ("B", 2); ("C", 6)]) (S k)
          = Some "C".
Proof.
  assert (Hnd : NoDup (dict_keys [("A", 0); ("B", 2); ("C", 6)])).
  { repeat (apply NoDup_cons; [simpl; intuition discriminate|]).
    apply NoDup_nil. }
  split; [exact Hnd|].
  exact (parentheses_positions 5 [("A", 0); ("B", 2); ("C", 6)] Hnd).
Defined.

End BuilderSpec.

Module TokenFacts.

Import ExpressionBuilder Tokens.
Import ListFacts DictFacts PyFacts IndexFacts ShapeFacts BuildFacts.
Import BuilderFacts.

Lemma count_ins (k : nat) (x y : string) (l : list string) :
  count_occ string_dec (ins k x l) y
  = (count_occ string_dec l y + if string_dec x y then 1 else 0)%nat.
Proof.
  assert (Hl : count_occ string_dec l y
               = (count_occ string_dec (firstn k l) y
                  + count_occ string_dec (skipn k l) y)%nat)
    by now rewrite <- count_occ_app, firstn_skipn.
  unfold ins. rewrite count_occ_app, Hl. cbn [count_occ].
  destruct (string_dec x y); lia.
Qed.

Lemma strip_ins (k : nat) (x : string) (l : list string) :
  reservedb x = true -> strip (ins k x l) = strip l.
Proof. intros H. apply filter_ins. now rewrite H. Qed.

(** One pair of parentheses more. *)
Lemma pair_added (P Q : nat) (e : list string) :
  pairs_added 1 e (ins P "(" (ins Q ")" e)).
Proof.
  repeat split.
  - rewrite !ins_length. lia.
  - now rewrite !strip_ins.
  - rewrite !count_ins. simpl. lia.
  - rewrite !count_ins. simpl. lia.
Qed.

Lemma pairs_added_refl (e : list string) : pairs_added 0 e e.
Proof. repeat split; lia. Qed.

Lemma pairs_added_trans (j k : nat) (e1 e2 e3 : list string) :
  pairs_added j e1 e2 -> pairs_added k e2 e3 -> pairs_added (j + k) e1 e3.
Proof.
  intros (H1 & H2 & H3 & H4) (K1 & K2 & K3 & K4).
  repeat split; [lia|congruence|lia|lia].
Qed.

Lemma push_not_tokens (self self' : t) :
  push_not self = OK self' ->
  same_input self self'
  /\ exists i j, expression self' = ins j "(" (ins i "NOT" (expression self)).
Proof.
  unfold push_not. intros H.
  destruct (index_of (fst (not_expr self)) (expression self)) as [i|];
    cbn [bind] in H; [|discriminate].
  destruct (index_of "NOT" _) as [j|]; cbn [bind] in H; [|discriminate].
  injection H as <-. split; [now repeat split|].
  eexists _, _. reflexivity.
Qed.

Lemma close_not_tokens (self self' : t) :
  close_not self = OK self' ->
  same_input self self'
  /\ exists k, expression self' = ins k ")" (expression self).
Proof.
  unfold close_not. intros H.
  destruct (generate_indices_of_variables self) as [p|]; cbn [bind] in H;
    [|discriminate].
  cbn [not_expr expression with_parentheses] in H.
  destruct (snd (not_expr self) =? 0).
  - destruct (dict_get _ p) as [v|]; cbn [bind] in H; [|discriminate].
    destruct (list_index pair_dec _ p) as [pos|]; cbn [bind] in H;
      [|discriminate].
    destruct (pos =? _).
    + injection H as <-. split; [now repeat split|].
      exists (List.length (expression self)).
      cbn [expression with_expression]. now rewrite ins_beyond.
    + destruct (list_get p _) as [nxt|]; cbn [bind] in H; [|discriminate].
      destruct (dict_get _ p) as [ri|]; cbn [bind] in H; [|discriminate].
      injection H as <-. split; [now repeat split|].
      eexists. reflexivity.
  - destruct (index_of "NOT" _) as [j|]; cbn [bind] in H; [|discriminate].
    injection H as <-. split; [now repeat split|].
    eexists. reflexivity.
Qed.

Lemma insert_parentheses_tokens (self self' : t) (lft rgt : string) :
  insert_parentheses self lft rgt = OK self' ->
  same_input self self'
  /\ (expression self' = expression self
      \/ exists P Q,
           expression self' = ins P "(" (ins Q ")" (expression self))).
Proof.
  unfold insert_parentheses. intros H.
  destruct (if String.eqb rgt (fst (not_expr self))
            then v <- dict_get rgt (parentheses self) ;;
                 OK (dict_set rgt (v + 2) (parentheses self))
            else OK (parentheses self)) as [p|]; cbn [bind] in H;
    [|discriminate].
  destruct (dict_get rgt p) as [v|]; cbn [bind] in H; [|discriminate].
  destruct (dict_get lft _) as [lv|]; cbn [bind] in H; [|discriminate].
  destruct (if lv =? 0 then _ else _) as [[|]|]; cbn [bind] in H;
    [| |discriminate].
  - injection H as <-. split; [now repeat split|now left].
  - destruct (dict_get rgt _) as [rv|]; cbn [bind] in H; [|discriminate].
    injection H as <-. split; [now repeat split|]. right.
    eexists _, _. reflexivity.
Qed.

Lemma add_group_tokens (r : nat) (self self' : t) :
  add_group r self = OK self' ->
  same_input self self'
  /\ exists k, (k <= 1)%nat
               /\ pairs_added k (expression self) (expression self').
Proof.
  unfold add_group. intros H.
  destruct (generate_indices_of_variables self) as [p|]; cbn [bind] in H;
    [|discriminate].
  destruct (dict_get _ p) as [v|]; cbn [bind] in H; [|discriminate].
  destruct (generate_parentheses_positions r _) as [lr|]; cbn [bind] in H;
    [|discriminate].
  apply insert_parentheses_tokens in H. destruct H as (Hsame & He).
  split; [exact Hsame|].
  cbn [expression with_parentheses] in He.
  destruct He as [->|(P & Q & ->)].
  - exists 0%nat. split; [lia|apply pairs_added_refl].
  - exists 1%nat. split; [lia|apply pair_added].
Qed.

Lemma add_groups_tokens (rs : nat -> nat) (count : nat) :
  forall (k0 : nat) (self self' : t),
  add_groups rs k0 count self = OK self' ->
  same_input self self'
  /\ exists k, (k <= count)%nat
               /\ pairs_added k (expression self) (expression self').
Proof.
  induction count as [|count IH]; intros k0 self self' H; cbn [add_groups] in H.
  - injection H as <-. split; [apply same_input_refl|].
    exists 0%nat. split; [lia|apply pairs_added_refl].
  - destruct (add_group (rs k0) self) as [self1|] eqn:H1; cbn [bind] in H;
      [|discriminate].
    apply add_group_tokens in H1. destruct H1 as (Hs1 & j & Hj & Hp1).
    apply IH in H. destruct H as (Hs2 & k & Hk & Hp2).
    split; [now apply same_input_trans with self1|].
    exists (j + k)%nat. split; [lia|].
    now apply pairs_added_trans with (expression self1).
Qed.

Lemma interleave_length (ops e : list string) :
  List.length (interleave ops e) = (List.length e + List.length ops)%nat.
Proof.
  unfold interleave.
  assert (H : forall (ios : list (nat * string)) e,
             List.length
               (fold_left
                  (fun e io =>
                     list_insert (2 * Z.of_nat (fst io) + 1) (snd io) e)
                  ios e)
             = (List.length e + List.length ios)%nat).
  { induction ios as [|io ios IH]; intros e0; cbn [fold_left List.length];
      [lia|].
    rewrite IH. destruct (list_insert_as_ins (2 * Z.of_nat (fst io) + 1)
                            (snd io) e0) as (k & ->).
    rewrite ins_length. lia. }
  rewrite H, length_combine, length_seq. lia.
Qed.

(** With one operator less than there are variables, the first loop of
    [build] puts the operators between the variables. *)
Lemma interleave_chain (ops vs : list string) :
  List.length vs = (List.length ops + 1)%nat -> interleave ops vs = chain vs ops.
Proof.
  unfold interleave.
  assert (H : forall ops i pre rest,
             List.length pre = (2 * i)%nat ->
             List.length rest = (List.length ops + 1)%nat ->
             fold_left
               (fun e io => list_insert (2 * Z.of_nat (fst io) + 1) (snd io) e)
               (combine (seq i (List.length ops)) ops) (pre ++ rest)
             = pre ++ chain rest ops).
  { clear. induction ops as [|o ops IH]; intros i pre rest Hpre Hrest.
    - destruct rest as [|r rest]; reflexivity.
    - destruct rest as [|r rest]; [simpl in Hrest; lia|].
      cbn [List.length seq combine fold_left fst snd chain].
      rewrite list_insert_ins by lia.
      replace (Z.to_nat (2 * Z.of_nat i + 1)) with (List.length pre + 1)%nat
        by lia.
      rewrite ins_app_r by lia.
      replace (List.length pre + 1 - List.length pre)%nat with 1%nat by lia.
      change (ins 1 o (r :: rest)) with ([r; o] ++ rest).
      rewrite app_assoc. rewrite (IH (S i) (pre ++ [r; o]) rest).
      + now rewrite <- app_assoc.
      + rewrite length_app. simpl. lia.
      + simpl in Hrest. lia. }
  intros Hlen. apply (H ops 0%nat [] vs); [reflexivity|exact Hlen].
Qed.

Lemma strip_plain (l : list string) :
  Forall (fun tok => ~ reserved tok) l -> strip l = l.
Proof.
  intros H. unfold strip. apply forallb_filter_id. apply forallb_forall.
  rewrite Forall_forall in H. intros tok Hin. specialize (H tok Hin).
  unfold reservedb, reserved in *.
  destruct (String.eqb_spec tok "NOT"); [tauto|].
  destruct (String.eqb_spec tok "("); [tauto|].
  destruct (String.eqb_spec tok ")"); [tauto|]. reflexivity.
Qed.

(** What [build] adds to the chain: ["NOT"], its two parentheses and some
    pairs of parentheses, no more of them than [paren_count]. *)
Lemma build_tokens (rs : nat -> nat) (self self' : t) :
  build rs self = OK self' ->
  same_input self self'
  /\ exists i j c k,
       (k <= Z.to_nat (paren_count self))%nat
       /\ pairs_added k
            (ins c ")"
               (ins j "(" (ins i "NOT"
                             (interleave (operators self) (variables self)))))
            (expression self').
Proof.
  unfold build. intros H.
  destruct (push_not _) as [self1|] eqn:H1; cbn [bind] in H; [|discriminate].
  destruct (close_not self1) as [self2|] eqn:H2; cbn [bind] in H;
    [|discriminate].
  apply push_not_tokens in H1. destruct H1 as (Hs1 & i & j & He1).
  apply close_not_tokens in H2. destruct H2 as (Hs2 & c & He2).
  apply add_groups_tokens in H. destruct H as (Hs3 & k & Hk & Hp).
  cbn [expression with_expression] in He1. rewrite He1 in He2.
  rewrite He2 in Hp. split.
  - apply same_input_trans with self2; [|exact Hs3].
    apply same_input_trans with self1; [|exact Hs2].
    apply same_input_trans with
      (with_expression self (interleave (operators self) (variables self)));
      [now repeat split|exact Hs1].
  - exists i, j, c, k. split; [exact Hk|exact Hp].
Qed.

End TokenFacts.

Module TokenSpec.

Import ExpressionBuilder Tokens.
Import ListFacts DictFacts PyFacts IndexFacts ShapeFacts BuildFacts.
Import BuilderFacts TokenFacts.

(** X4.  [build] only adds ["NOT"] and parentheses: without them, the
    sequence it returns is the variables and the operators in turns, in
    the orders the instance holds them. *)
Theorem build_keeps_chain (rs : nat -> nat) (self self' : t) :
  List.length (variables self) = (List.length (operators self) + 1)%nat ->
  Forall (fun tok => ~ reserved tok) (variables self) ->
  Forall (fun tok => ~ reserved tok) (operators self) ->
  build rs self = OK self' ->
  strip (expression self') = chain (variables self) (operators self).
Proof.
  intros Hlen Hv Ho H.
  destruct (build_tokens rs self self' H)
    as (_ & i & j & c & k & _ & _ & Hstrip & _).
  rewrite Hstrip, !strip_ins by reflexivity.
  rewrite (interleave_chain _ _ Hlen). apply strip_plain.
  rewrite <- (interleave_chain _ _ Hlen). rewrite Forall_forall in *.
  intros tok Hin. apply interleave_tokens in Hin. destruct Hin; auto.
Qed.

Lemma build_keeps_chain_witness :
  List.length (variables (abc 2 "C" 1))
  = (List.length (operators (abc 2 "C" 1)) + 1)%nat
  /\ Forall (fun tok => ~ reserved tok) (variables (abc 2 "C" 1))
  /\ Forall (fun tok => ~ reserved tok) (operators (abc 2 "C" 1))
  /\ build (fun k => k) (abc 2 "C" 1)
     = OK {| paren_count := 2;
             variables := ["A"; "B"; "C"];
             operators := ["AND"; "OR"];
             not_expr := ("C", 1);
             parentheses := [("A", 1); ("B", 3); ("C", 9)];
             expression := ["("; "A"; "AND"; "("; "B"; ")"; "OR"; "NOT"; "(";
                            "C"; ")"; ")"] |}
  /\ strip ["("; "A"; "AND"; "("; "B"; ")"; "OR"; "NOT"; "("; "C"; ")"; ")"]
     = chain ["A"; "B"; "C"] ["AND"; "OR"].
Proof.
  assert (Hv : Forall (fun tok => ~ reserved tok) (variables (abc 2 "C" 1))).
  { repeat (apply Forall_cons;
            [unfold reserved; intuition discriminate|]).
    apply Forall_nil. }
  assert (Ho : Forall (fun tok => ~ reserved tok) (operators (abc 2 "C" 1))).
  { repeat (apply Forall_cons;
            [unfold reserved; intuition discriminate|]).
    apply Forall_nil. }
  split; [reflexivity|]. split; [exact Hv|]. split; [exact Ho|].
  split; [reflexivity|].
  exact (build_keeps_chain (fun k => k) (abc 2 "C" 1) _ eq_refl Hv Ho eq_refl).
Defined.

(** X5.  [paren_count] is an upper bound: the sequence [build] returns has
    the tokens of the chain, ["NOT"], and [1 + k] parentheses of each kind,
    for some [k] that is at most [paren_count]. *)
Theorem build_counts (rs : nat -> nat) (self self' : t) :
  Forall plain (variables self) -> Forall plain (operators self) ->
  build rs self = OK self' ->
  exists k,
    (k <= Z.to_nat (paren_count self))%nat
    /\ List.length (expression self')
       = (List.length (variables self) + List.length (operators self)
          + 3 + 2 * k)%nat
    /\ count_occ string_dec (expression self') "(" = (1 + k)%nat
    /\ count_occ string_dec (expression self') ")" = (1 + k)%nat.
Proof.
  intros Hv Ho H.
  destruct (build_tokens rs self self' H)
    as (_ & i & j & c & k & Hk & Hlen & _ & Hopen & Hclose).
  exists k. split; [exact Hk|].
  assert (Hnone : forall tok, tok = "(" \/ tok = ")" ->
            count_occ string_dec
              (interleave (operators self) (variables self)) tok = 0%nat).
  { intros tok Htok. apply count_occ_not_In. intros Hin.
    apply interleave_tokens in Hin. rewrite Forall_forall in Hv, Ho.
    destruct Hin as [Hin|Hin]; [apply Hv in Hin|apply Ho in Hin];
      destruct Hin as [H1 H2]; destruct Htok; contradiction. }
  rewrite Hlen, Hopen, Hclose, !ins_length, !count_ins, interleave_length.
  rewrite !Hnone by auto. simpl. repeat split; lia.
Qed.

Lemma build_counts_witness :
  Forall plain (variables (abc 2 "B" 0))
  /\ Forall plain (operators (abc 2 "B" 0))
  /\ build (fun _ => 0%nat) (abc 2 "B" 0)
     = OK {| paren_count := 2;
             variables := ["A"; "B"; "C"];
             operators := ["AND"; "OR"];
             not_expr := ("B", 0);
             parentheses := [("A", 1); ("B", 6); ("C", 8)];
             expression := ["("; "("; "A"; "AND"; "NOT"; "("; "B"; ")"; ")";
                            "OR"; "C"; ")"] |}
  /\ exists k,
       (k <= Z.to_nat 2)%nat
       /\ List.length ["("; "("; "A"; "AND"; "NOT"; "("; "B"; ")"; ")";
                       "OR"; "C"; ")"]
          = (3 + 2 + 3 + 2 * k)%nat
       /\ count_occ string_dec
            ["("; "("; "A"; "AND"; "NOT"; "("; "B"; ")"; ")"; "OR"; "C"; ")"]
            "(" = (1 + k)%nat
       /\ count_occ string_dec
            ["("; "("; "A"; "AND"; "NOT"; "("; "B"; ")"; ")"; "OR"; "C"; ")"]
            ")" = (1 + k)%nat.
Proof.
  assert (Hv : Forall plain (variables (abc 2 "B" 0))).
  { repeat (apply Forall_cons; [split; discriminate|]). apply Forall_nil. }
  assert (Ho : Forall plain (operators (abc 2 "B" 0))).
  { repeat (apply Forall_cons; [split; discriminate|]). apply Forall_nil. }
  split; [exact Hv|]. split; [exact Ho|]. split; [reflexivity|].
  exact (build_counts (fun _ => 0%nat) (abc 2 "B" 0) _ Hv Ho eq_refl).
Defined.

End TokenSpec.

Module TwoVariables.

Import ExpressionBuilder Tokens.
Import ListFacts DictFacts PyFacts IndexFacts ShapeFacts BuildFacts.
Import BuilderFacts TokenFacts.

Lemma idx_head (x : string) (l : list string) : idx (x :: l) x = 0.
Proof. apply (idx_app [] l x). intros []. Qed.

(** With two variables the group asked for goes from the first token to
    the last variable: the turn leaves the sequence as it is. *)
Lemma add_group_two (r : nat) (self : t) (v0 v1 : string) :
  well_formed self -> built self -> variables self = [v0; v1] ->
  (if String.eqb (fst (not_expr self)) v0
   then idx (expression self) "NOT" else idx (expression self) v0) = 0 ->
  Z.of_nat (List.length (expression self)) - 2 <= idx (expression self) v1 ->
  exists p, add_group r self = OK (with_parentheses self p).
Proof.
  intros Hwf [Hv Hbal Hs] Hvars HP HQ.
  set (vs := variables self) in *. set (e := expression self) in *.
  set (nv := fst (not_expr self)) in *.
  pose proof (wf_nodup self Hwf) as Hnd. pose proof (wf_not self Hwf) as Hnv.
  fold vs in Hnd. fold vs nv in Hnv.
  destruct (nv_token self Hwf) as (Hn1 & Hn2 & Hn3). fold nv in Hn1, Hn2, Hn3.
  destruct (shape_idx nv Hn1 Hn2 e Hs) as (Hidx & _).
  assert (Hne : v0 <> v1).
  { rewrite Hvars in Hnd. apply NoDup_cons_iff in Hnd as [H _].
    intros ->. apply H. now left. }
  assert (H0in : In v0 vs) by (rewrite Hvars; now left).
  assert (H1in : In v1 vs) by (rewrite Hvars; right; now left).
  unfold add_group. rewrite (generate_indices_graph self Hnd Hv).
  cbn [bind]. fold nv vs e. rewrite (graph_get (idx e) vs nv Hnv). cbn [bind].
  rewrite (graph_set (idx e) vs nv _ Hnd Hnv).
  set (g := upd (idx e) nv (idx e nv - 2)).
  unfold generate_parentheses_positions. rewrite graph_keys.
  assert (Hc : choice r (removelast vs) = OK v0).
  { rewrite Hvars. cbn [removelast]. unfold choice. cbn [List.length].
    now rewrite Nat.mod_1_r. }
  rewrite Hc. cbn [bind]. rewrite (graph_get g vs v0 H0in). cbn [bind].
  unfold list_index. rewrite graph_position.
  assert (Hk0 : nth_error vs 0 = Some v0) by now rewrite Hvars.
  assert (Hk1 : nth_error vs 1 = Some v1) by now rewrite Hvars.
  rewrite (position_nodup string_dec vs 0 v0 Hnd Hk0). cbn [bind].
  change (Z.of_nat 0 + 1) with (Z.of_nat 1).
  rewrite (graph_list_get g vs 1 v1 Hk1). cbn [bind fst snd].
  rewrite (insert_parentheses_graph (with_parentheses self (graph g vs)) g
             v0 v1 Hnd eq_refl H0in H1in).
  cbn [variables not_expr expression with_parentheses]. fold vs nv e.
  set (g1 := if String.eqb v1 nv then upd g v1 (g v1 + 2) else g).
  set (g2 := upd g1 v1 (g1 v1 + 1)).
  assert (Hg2r : g2 v1 = idx e v1 + 1).
  { unfold g2, upd at 1. rewrite String.eqb_refl. unfold g1.
    destruct (String.eqb v1 nv) eqn:Hrn.
    - apply String.eqb_eq in Hrn. unfold upd at 1. rewrite String.eqb_refl.
      unfold g, upd. rewrite Hrn, String.eqb_refl. lia.
    - unfold g, upd. rewrite String.eqb_sym, Hrn. reflexivity. }
  assert (Hg2l : g2 v0 = if String.eqb nv v0 then idx e "NOT" else idx e v0).
  { unfold g2, upd at 1. apply String.eqb_neq in Hne.
    rewrite String.eqb_sym, Hne. unfold g1.
    assert (Hgl : g v0 = if String.eqb nv v0 then idx e "NOT" else idx e v0).
    { unfold g, upd. destruct (String.eqb nv v0); [lia|reflexivity]. }
    destruct (String.eqb v1 nv); [|exact Hgl].
    unfold upd at 1. now rewrite String.eqb_sym, Hne. }
  rewrite Hg2l, HP, Hg2r. cbn [Z.eqb andb].
  rewrite (proj2 (Z.leb_le _ _)) by lia.
  eexists. reflexivity.
Qed.

Lemma add_groups_two (rs : nat -> nat) (v0 v1 : string) (count : nat) :
  forall (k : nat) (self : t),
  well_formed self -> built self -> variables self = [v0; v1] ->
  (if String.eqb (fst (not_expr self)) v0
   then idx (expression self) "NOT" else idx (expression self) v0) = 0 ->
  Z.of_nat (List.length (expression self)) - 2 <= idx (expression self) v1 ->
  exists self',
    add_groups rs k count self = OK self'
    /\ expression self' = expression self.
Proof.
  induction count as [|count IH]; intros k self Hwf Hb Hvars HP HQ;
    cbn [add_groups].
  - now exists self.
  - destruct (add_group_two (rs k) self v0 v1 Hwf Hb Hvars HP HQ) as (p & ->).
    cbn [bind].
    assert (Hsame : same_input self (with_parentheses self p))
      by now repeat split.
    destruct (IH (S k) (with_parentheses self p)) as (self' & Hg & He).
    + now apply (well_formed_same self).
    + now apply (built_keep self).
    + exact Hvars.
    + exact HP.
    + exact HQ.
    + exists self'. split; [exact Hg|exact He].
Qed.

End TwoVariables.

Module TwoVariablesSpec.

Import ExpressionBuilder Tokens.
Import ListFacts DictFacts PyFacts IndexFacts ShapeFacts BuildFacts.
Import BuilderFacts TokenFacts TwoVariables.

(** X6.  With two variables no extra group is ever inserted: whatever
    [paren_count] and the draws, [build] returns [NOT ( v0 op v1 )] or
    [NOT ( v0 ) op v1] when the first variable is negated, and
    [v0 op NOT ( v1 )] when the second one is. *)
Theorem two_variables (rs : nat -> nat) (self : t) (v0 v1 op : string) :
  well_formed self -> variables self = [v0; v1] -> operators self = [op] ->
  exists self',
    build rs self = OK self'
    /\ expression self'
       = if String.eqb (fst (not_expr self)) v0
         then if snd (not_expr self) =? 0
              then ["NOT"; "("; v0; op; v1; ")"]
              else ["NOT"; "("; v0; ")"; op; v1]
         else [v0; op; "NOT"; "("; v1; ")"].
Proof.
  intros Hwf Hvars Hops.
  pose proof (wf_nodup self Hwf) as Hnd. rewrite Hvars in Hnd.
  assert (Hne : v0 <> v1).
  { apply NoDup_cons_iff in Hnd as [H _]. intros ->. apply H. now left. }
  assert (H0in : In v0 (variables self)) by (rewrite Hvars; now left).
  assert (H1in : In v1 (variables self)) by (rewrite Hvars; right; now left).
  destruct (variable_token self v0 Hwf H0in) as (H01 & H02 & H03).
  destruct (variable_token self v1 Hwf H1in) as (H11 & H12 & H13).
  assert (Hop : is_operator op).
  { pose proof (wf_operators self Hwf) as H. rewrite Hops in H.
    now apply Forall_inv in H. }
  pose proof (operator_not_reserved op Hop) as Hopr.
  assert (Hop0 : op <> v0)
    by (intros ->; now apply (operator_not_variable self v0 Hwf Hop)).
  assert (Hop1 : op <> v1)
    by (intros ->; now apply (operator_not_variable self v1 Hwf Hop)).
  assert (Hopn : op <> "NOT" /\ op <> "(" /\ op <> ")")
    by (unfold reserved in Hopr; tauto).
  destruct Hopn as (Hopn1 & Hopn2 & Hopn3).
  unfold build.
  set (self0 := with_expression self
                  (interleave (operators self) (variables self))).
  assert (He0 : expression self0 = [v0; op; v1]).
  { cbn [expression self0 with_expression]. now rewrite Hvars, Hops. }
  assert (Hsame0 : same_input self self0) by now repeat split.
  pose proof (well_formed_same _ _ Hsame0 Hwf) as Hwf0.
  assert (Hmemb : forall tok, memb (variables self) tok
                              = (String.eqb tok v0 || String.eqb tok v1)%bool).
  { intros tok. rewrite Hvars. unfold memb.
    destruct (in_dec string_dec tok [v0; v1]) as [Hin|Hout].
    - destruct Hin as [<-|[<-|[]]]; rewrite String.eqb_refl;
        [reflexivity|now rewrite orb_true_r].
    - symmetry. apply orb_false_iff. split; apply String.eqb_neq;
        intros ->; apply Hout; [now left|right; now left]. }
  assert (Hv0 : vars_of (variables self0) (expression self0) = variables self0).
  { rewrite He0. cbn [variables self0 with_expression]. unfold vars_of.
    cbn [filter]. rewrite !Hmemb, !String.eqb_refl.
    rewrite (proj2 (String.eqb_neq op v0) Hop0),
            (proj2 (String.eqb_neq op v1) Hop1),
            (proj2 (String.eqb_neq v1 v0) (not_eq_sym Hne)).
    now rewrite Hvars. }
  assert (Hres0 : Forall (fun tok => ~ reserved tok) (expression self0)).
  { rewrite He0. repeat (apply Forall_cons; [|]); try apply Forall_nil;
      unfold reserved; tauto. }
  destruct (push_not_spec self0 Hwf0 Hv0 Hres0) as (a & b & Hab & Hnva & Hpush).
  rewrite Hpush. cbn [bind]. change (not_expr self0) with (not_expr self) in *.
  set (nv := fst (not_expr self)) in *.
  set (self1 := with_expression self0 (a ++ "NOT" :: "(" :: nv :: b)).
  assert (Hsame1 : same_input self self1) by now repeat split.
  pose proof (well_formed_same _ _ Hsame1 Hwf) as Hwf1.
  rewrite He0 in Hab.
  assert (Hcase : (nv = v0 /\ a = [] /\ b = [op; v1])
                  \/ (nv = v1 /\ a = [v0; op] /\ b = [])).
  { destruct a as [|a0 a].
    - injection Hab as <- <-. now left.
    - injection Hab as <- Hab. destruct a as [|a1 a].
      + injection Hab as Heq _. subst op. exfalso.
        pose proof (wf_not self Hwf) as Hin. fold nv in Hin.
        now apply (operator_not_variable self nv Hwf Hop).
      + injection Hab as <- Hab. destruct a as [|a2 a].
        * injection Hab as <- <-. now right.
        * injection Hab as _ Hab. destruct a; discriminate. }
  assert (Hv1 : vars_of (variables self1) (expression self1) = variables self1).
  { cbn [variables expression self1 self0 with_expression]. unfold vars_of.
    destruct Hcase as [(-> & -> & ->)|(-> & -> & ->)]; cbn [app filter];
      rewrite !Hmemb, ?String.eqb_refl, ?orb_true_r;
      rewrite ?(proj2 (String.eqb_neq op v0) Hop0),
              ?(proj2 (String.eqb_neq op v1) Hop1),
              ?(proj2 (String.eqb_neq v1 v0) (not_eq_sym Hne)),
              ?(proj2 (String.eqb_neq v0 v1) Hne),
              ?(proj2 (String.eqb_neq "NOT" v0) (not_eq_sym H01)),
              ?(proj2 (String.eqb_neq "NOT" v1) (not_eq_sym H11)),
              ?(proj2 (String.eqb_neq "(" v0) (not_eq_sym H02)),
              ?(proj2 (String.eqb_neq "(" v1) (not_eq_sym H12));
      cbn [orb]; now rewrite Hvars. }
  assert (Hs1 : shape (fst (not_expr self1)) (expression self1)).
  { exists a, b. repeat split; [|exact Hnva|];
      destruct Hcase as [(_ & -> & ->)|(_ & -> & ->)]; simpl; intuition. }
  destruct (close_not_spec self1 Hwf1 Hv1 Hs1)
    as (Q & Hclose & HQ & Hlow & Hhigh).
  rewrite Hclose. cbn [bind].
  set (self2 := with_expression
                  (with_parentheses self1
                     (graph (idx (expression self1)) (variables self1)))
                  (ins Q ")" (expression self1))) in *.
  assert (Hsame2 : same_input self self2) by now repeat split.
  pose proof (well_formed_same _ _ Hsame2 Hwf) as Hwf2.
  assert (Hb2 : built self2).
  { destruct (nv_token self Hwf) as (Hn1 & Hn2 & Hn3). fold nv in Hn1, Hn2, Hn3.
    assert (Hidx : idx (expression self1) "NOT" = Z.of_nat (List.length a)).
    { cbn [expression self1 with_expression]. apply idx_app.
      destruct Hcase as [(_ & -> & _)|(_ & -> & _)]; simpl; intuition. }
    constructor.
    - cbn [variables expression self2 with_expression with_parentheses].
      rewrite vars_of_ins; [exact Hv1|].
      apply (reserved_not_variable self1 _ Hwf1). right. now right.
    - cbn [expression self2 self1 with_expression].
      apply close_balanced.
      + destruct Hcase as [(_ & -> & _)|(_ & -> & _)];
          repeat (apply Forall_cons; [split; assumption|]); apply Forall_nil.
      + destruct Hcase as [(_ & _ & ->)|(_ & _ & ->)];
          repeat (apply Forall_cons; [split; assumption|]); apply Forall_nil.
      + now split.
      + rewrite Hidx in HQ. lia.
    - cbn [expression not_expr self2 with_expression with_parentheses].
      apply shape_ins; [exact Hs1|discriminate| |now right].
      intros Heq. apply Hn3. symmetry. exact Heq. }
  (* the sequence after the NOT was closed, case by case *)
  assert (He2 : expression self2
                = if String.eqb nv v0
                  then if snd (not_expr self) =? 0
                       then ["NOT"; "("; v0; op; v1; ")"]
                       else ["NOT"; "("; v0; ")"; op; v1]
                  else [v0; op; "NOT"; "("; v1; ")"]).
  { cbn [expression self2 with_expression].
    cbn [expression self1 self0 with_expression variables not_expr
         with_parentheses] in Hlow, Hhigh |- *.
    fold nv in Hlow. rewrite Hvars in Hlow.
    destruct Hcase as [(Hnv0 & -> & ->)|(Hnv1 & -> & ->)].
    - rewrite Hnv0 in *. rewrite String.eqb_refl. cbn [app] in *.
      destruct (snd (not_expr self) =? 0) eqn:Hprec.
      + apply Z.eqb_eq in Hprec. specialize (Hlow Hprec 0%nat eq_refl).
        cbn [nth_error] in Hlow.
        change ["NOT"; "("; v0; op; v1] with (["NOT"; "("; v0; op] ++ [v1])
          in Hlow.
        rewrite idx_app in Hlow by (simpl; intuition).
        rewrite Hlow. reflexivity.
      + apply Z.eqb_neq in Hprec. specialize (Hhigh Hprec).
        rewrite idx_head in Hhigh. rewrite Hhigh. reflexivity.
    - rewrite Hnv1 in *.
      rewrite (proj2 (String.eqb_neq v1 v0) (not_eq_sym Hne)). cbn [app] in *.
      destruct (snd (not_expr self) =? 0) eqn:Hprec.
      + apply Z.eqb_eq in Hprec. specialize (Hlow Hprec 1%nat eq_refl).
        cbn [nth_error] in Hlow. rewrite Hlow. reflexivity.
      + apply Z.eqb_neq in Hprec. specialize (Hhigh Hprec).
        change [v0; op; "NOT"; "("; v1] with ([v0; op] ++ "NOT" :: ["("; v1])
          in Hhigh.
        rewrite idx_app in Hhigh by (simpl; intuition).
        rewrite Hhigh. reflexivity. }
  destruct (add_groups_two rs v0 v1 (Z.to_nat (paren_count self)) 0 self2
              Hwf2 Hb2 Hvars) as (self' & Hg & He).
  - change (fst (not_expr self2)) with nv. rewrite He2.
    destruct (String.eqb nv v0); [|apply idx_head].
    destruct (snd (not_expr self) =? 0); apply idx_head.
  - rewrite He2.
    destruct (String.eqb nv v0); [destruct (snd (not_expr self) =? 0)|].
    + change ["NOT"; "("; v0; op; v1; ")"]
        with (["NOT"; "("; v0; op] ++ v1 :: [")"]).
      rewrite idx_app by (simpl; intuition). simpl. lia.
    + change ["NOT"; "("; v0; ")"; op; v1]
        with (["NOT"; "("; v0; ")"; op] ++ [v1]).
      rewrite idx_app by (simpl; intuition). simpl. lia.
    + change [v0; op; "NOT"; "("; v1; ")"]
        with ([v0; op; "NOT"; "("] ++ v1 :: [")"]).
      rewrite idx_app by (simpl; intuition). simpl. lia.
  - exists self'. split; [exact Hg|]. now rewrite He, He2.
Qed.

Lemma two_variables_witness :
  well_formed {| paren_count := 5;
                 variables := ["P"; "Q"];
                 operators := ["OR"];
                 not_expr := ("Q", 0);
                 parentheses := [];
                 expression := [] |}
  /\ exists self',
       build (fun k => k)
         {| paren_count := 5;
            variables := ["P"; "Q"];
            operators := ["OR"];
            not_expr := ("Q", 0);
            parentheses := [];
            expression := [] |} = OK self'
       /\ expression self' = ["P"; "OR"; "NOT"; "("; "Q"; ")"].
Proof.
  assert (Hwf : well_formed {| paren_count := 5;
                               variables := ["P"; "Q"];
                               operators := ["OR"];
                               not_expr := ("Q", 0);
                               parentheses := [];
                               expression := [] |}).
  { constructor; cbn [variables operators not_expr fst].
    - repeat (apply NoDup_cons; [simpl; intuition discriminate|]).
      apply NoDup_nil.
    - repeat (apply Forall_cons;
              [split; unfold reserved, is_operator; intuition discriminate|]).
      apply Forall_nil.
    - repeat (apply Forall_cons; [unfold is_operator; auto|]). apply Forall_nil.
    - right. now left. }
  split; [exact Hwf|].
  exact (two_variables (fun k => k) _ "P" "Q" "OR" Hwf eq_refl eq_refl).
Defined.

End TwoVariablesSpec.

(** ** More on the evaluator *)

Module RowFacts.

Import Evaluator PyFacts ReplaceFacts DictFacts EvaluatorFacts.

Lemma occurs_tail (k : string) (c : ascii) (s : string) :
  occurs k s -> occurs k (String c s).
Proof. intros (a & b & ->). now exists (String c a), b. Qed.

(** A text in which [old] does not occur is left as it is. *)
Lemma replace_absent (old new s : string) :
  ~ occurs old s -> replace old new s = s.
Proof.
  induction s as [|c s IH]; intros Hno; [reflexivity|].
  rewrite replace_cons.
  destruct (String.prefix old (String c s)) eqn:Hp.
  - exfalso. apply Hno. now apply prefix_occurs.
  - f_equal. apply IH. intros H. apply Hno. now apply occurs_tail.
Qed.

(** The bits of row [i], one for each variable. *)
Lemma assignment_from_cells (i n : nat) (vars : list string) :
  forall (j : nat) (d : dict cell),
  NoDup vars -> (forall v, In v vars -> ~ In v (dict_keys d)) ->
  exists cells,
    assignment_from i n j vars d = d ++ combine vars cells
    /\ List.length cells = List.length vars
    /\ Forall (fun c => c = CInt 0 \/ c = CInt 1) cells.
Proof.
  induction vars as [|v vars IH]; intros j d Hnd Hfresh.
  - exists []. cbn [assignment_from combine]. now rewrite app_nil_r.
  - apply NoDup_cons_iff in Hnd as [Hv Hnd]. cbn [assignment_from].
    rewrite dict_set_fresh by (apply Hfresh; now left).
    destruct (IH (S j) (d ++ [(v, CInt (bit_value i n j))]) Hnd)
      as (cells & Heq & Hlen & Hall).
    + intros w Hw Hin. unfold dict_keys in Hin. rewrite map_app in Hin.
      apply in_app_or in Hin. destruct Hin as [Hin|[<-|[]]].
      * apply (Hfresh w); [now right|exact Hin].
      * contradiction.
    + exists (CInt (bit_value i n j) :: cells). split; [|split].
      * rewrite Heq, <- app_assoc. reflexivity.
      * simpl. now rewrite Hlen.
      * constructor; [|exact Hall]. unfold bit_value.
        destruct (Z.land _ _ =? 0); auto.
Qed.

(** A finished row: the bits of the variables, then the result. *)
Lemma row_done_cells (H : Host) (self : t) (i : nat) (row : dict cell) :
  NoDup (variables self) -> ~ In " " (variables self) ->
  row_done H self i row ->
  exists cells r shown,
    row = combine (variables self) cells ++ [(" ", CStr shown)]
    /\ List.length cells = List.length (variables self)
    /\ Forall (fun c => c = CInt 0 \/ c = CInt 1) cells
    /\ assignment (variables self) i = combine (variables self) cells
    /\ host_eval H (py_expression self) (globals (variables self) i) = OK r
    /\ host_format H (String.length (expression self)) r = OK shown.
Proof.
  intros Hnd Hsp (r & shown & Hev & Hfmt & ->).
  destruct (assignment_from_cells i (List.length (variables self))
              (variables self) 0 [] Hnd) as (cells & Heq & Hlen & Hall).
  { intros v _ []. }
  cbn [app] in Heq. exists cells, r, shown.
  unfold assignment. rewrite Heq. repeat split; try assumption.
  apply dict_set_fresh. unfold dict_keys.
  intros Hin. apply in_map_iff in Hin. destruct Hin as ([k c] & Hk & Hin).
  simpl in Hk. subst k. apply in_combine_l in Hin. contradiction.
Qed.

Lemma list_get_nth {A : Type} (l : list A) (k : nat) (a : A) :
  nth_error l k = Some a -> list_get l (Z.of_nat k) = OK a.
Proof.
  intros Hk. unfold list_get.
  assert (Hlen : (k < List.length l)%nat) by (apply nth_error_Some; congruence).
  rewrite !(proj2 (Z.ltb_ge (Z.of_nat k) 0)) by lia.
  rewrite (proj2 (Z.leb_gt _ _)) by lia. simpl.
  now rewrite Nat2Z.id, Hk.
Qed.

End RowFacts.

Module RowSpec.

Import Evaluator PyFacts ReplaceFacts DictFacts EvaluatorFacts RowFacts.

(** X7.  An expression text that holds none of [OR], [NOT], [AND] is
    handed to the host as it is. *)
Theorem lowercase_unchanged (e : string) (vs : list string) :
  ~ occurs "OR" e -> ~ occurs "NOT" e -> ~ occurs "AND" e ->
  py_expression (init e vs) = e.
Proof.
  intros Hor Hnot Hand. cbn [py_expression init].
  rewrite (replace_absent "OR" "or" e Hor).
  rewrite (replace_absent "NOT" "not" e Hnot).
  apply (replace_absent "AND" "and" e Hand).
Qed.

Lemma not_occurs_by_prefix (k s : string) :
  (forall n, (n <= String.length s)%nat ->
             String.prefix k (drop n s) = false) ->
  ~ occurs k s.
Proof.
  intros H (a & b & ->).
  specialize (H (String.length a)).
  rewrite drop_append, prefix_append in H.
  assert (Hlen : (String.length a
                  <= String.length (String.append a (String.append k b)))%nat).
  { clear. induction a as [|c a IH]; simpl; lia. }
  specialize (H Hlen). discriminate.
Qed.

Lemma lowercase_unchanged_witness :
  ~ occurs "OR" "a or not ( b )" /\ ~ occurs "NOT" "a or not ( b )"
  /\ ~ occurs "AND" "a or not ( b )"
  /\ py_expression (init "a or not ( b )" ["a"; "b"]) = "a or not ( b )".
Proof.
  assert (H : forall k, k = "OR" \/ k = "NOT" \/ k = "AND" ->
                        ~ occurs k "a or not ( b )").
  { intros k Hk. apply not_occurs_by_prefix. intros n Hn.
    simpl in Hn.
    do 15 (destruct n as [|n]; [destruct Hk as [-> | [-> | ->]]; reflexivity|]).
    lia. }
  assert (Hor := H "OR" (or_introl eq_refl)).
  assert (Hnot := H "NOT" (or_intror (or_introl eq_refl))).
  assert (Hand := H "AND" (or_intror (or_intror eq_refl))).
  split; [exact Hor|]. split; [exact Hnot|]. split; [exact Hand|].
  exact (lowercase_unchanged "a or not ( b )" ["a"; "b"] Hor Hnot Hand).
Defined.



End RowSpec.

(** ** Iteration and the table *)

Module TableFacts.

Import Evaluator Iteration TruthTable.
Import PyFacts ReplaceFacts DictFacts EvaluatorFacts RowFacts.

Lemma next_row (ev : Evaluator.t) (k : nat) (row : dict cell) :
  nth_error (lines ev) k = Some row ->
  next {| self := ev; n := Some (Z.of_nat k) |}
  = (Yield (row_text row), {| self := ev; n := Some (Z.of_nat (S k)) |}).
Proof.
  intros Hk. unfold next. cbn [n self].
  assert (Hlen : (k < List.length (lines ev))%nat)
    by (apply nth_error_Some; congruence).
  rewrite (proj2 (Z.ltb_lt _ _)) by lia.
  rewrite (list_get_nth _ _ _ Hk). do 3 f_equal. lia.
Qed.

Lemma next_stop (ev : Evaluator.t) (k : nat) :
  (List.length (lines ev) <= k)%nat ->
  next {| self := ev; n := Some (Z.of_nat k) |}
  = (StopIteration, {| self := ev; n := Some (Z.of_nat k) |}).
Proof.
  intros Hk. unfold next. cbn [n self].
  now rewrite (proj2 (Z.ltb_ge _ _)) by lia.
Qed.

Lemma skipn_nth {A : Type} (l : list A) (k : nat) (a : A) :
  nth_error l k = Some a -> skipn k l = a :: skipn (S k) l.
Proof.
  revert k. induction l as [|x l IH]; intros [|k] H; try discriminate.
  - now injection H as ->.
  - simpl in H. cbn [skipn]. now apply IH.
Qed.

(** From row [k] on, with fuel for the rows that are left and the last
    turn. *)
Lemma drain_from (ev : Evaluator.t) (m : nat) :
  forall k fuel,
  (k + m = List.length (lines ev))%nat -> (m < fuel)%nat ->
  drain fuel {| self := ev; n := Some (Z.of_nat k) |}
  = (inl (map row_text (skipn k (lines ev))),
     {| self := ev; n := Some (Z.of_nat (List.length (lines ev))) |}).
Proof.
  induction m as [|m IH]; intros k fuel Hk Hfuel;
    (destruct fuel as [|fuel]; [lia|]); cbn [drain].
  - rewrite next_stop by lia. rewrite skipn_all2 by lia.
    replace k with (List.length (lines ev)) by lia. reflexivity.
  - destruct (nth_error (lines ev) k) as [row|] eqn:Hrow;
      [|apply nth_error_None in Hrow; lia].
    rewrite (next_row ev k row Hrow).
    rewrite (IH (S k) fuel) by lia.
    now rewrite (skipn_nth _ _ _ Hrow).
Qed.

(** [iter] then [next] to the end: every row, and [n] at the end. *)
Lemma collect_all (o : instance) :
  collect o
  = (inl (map row_text (lines (self o))),
     {| self := self o;
        n := Some (Z.of_nat (List.length (lines (self o)))) |}).
Proof.
  unfold collect, iter.
  rewrite (drain_from (self o) (List.length (lines (self o))) 0) by lia.
  reflexivity.
Qed.

Lemma length_append (a b : string) :
  String.length (String.append a b) = (String.length a + String.length b)%nat.
Proof. induction a as [|c a IH]; simpl; [reflexivity|now rewrite IH]. Qed.

Lemma length_of_list_ascii (l : list ascii) :
  String.length (string_of_list_ascii l) = List.length l.
Proof. induction l as [|c l IH]; simpl; [reflexivity|now rewrite IH]. Qed.

Lemma length_spaces (k : nat) : String.length (PyBool.spaces k) = k.
Proof. unfold PyBool.spaces. now rewrite length_of_list_ascii, repeat_length. Qed.

Lemma length_center (w : nat) (s : string) :
  String.length (PyBool.center w s) = Nat.max w (String.length s).
Proof.
  unfold PyBool.center. rewrite !length_append, !length_spaces.
  pose proof (Nat.Div0.div_le_upper_bound (w - String.length s) 2
                (w - String.length s)).
  assert ((w - String.length s) / 2 <= w - String.length s)%nat
    by (apply Nat.Div0.div_le_upper_bound; lia).
  lia.
Qed.

(** The length of [sep.join(l)], counted with one separator more. *)
Lemma length_concat (sep : string) (l : list string) :
  l <> [] ->
  (String.length (String.concat sep l) + String.length sep)%nat
  = list_sum (map (fun x => (String.length x + String.length sep)%nat) l).
Proof.
  induction l as [|x l IH]; intros Hne; [congruence|].
  destruct l as [|y l].
  - simpl. lia.
  - cbn [String.concat map list_sum fold_right] in *.
    rewrite !length_append.
    specialize (IH ltac:(discriminate)). cbn [list_sum fold_right] in IH. lia.
Qed.

Lemma sum_constant {A : Type} (f : A -> nat) (c : nat) (l : list A) :
  Forall (fun x => f x = c) l -> list_sum (map f l) = (c * List.length l)%nat.
Proof.
  induction 1 as [|x l Hx Hl IH]; simpl; [lia|].
  cbn [list_sum fold_right] in *. rewrite Hx.
  change (fold_right Nat.add 0%nat (map f l)) with (list_sum (map f l)).
  rewrite IH. lia.
Qed.

(** With 0, 1 and [None] for globals, [not], [and] and [or] give 0, 1, a
    [bool] or [None]. *)
Lemma run_bit_like (g : dict cell) (a : PyBool.ast) (v : PyBool.value) :
  (forall k c, dict_find k g = Some c ->
               c = CInt 0 \/ c = CInt 1 \/ c = CNone) ->
  PyBool.run g a = OK v -> bit_like v.
Proof.
  intros Hg. revert v.
  induction a as [s|a IH|a IHa b IHb|a IHa b IHb]; intros v Hv;
    cbn [PyBool.run] in Hv.
  - destruct (dict_find s g) as [c|] eqn:Hc.
    + injection Hv as <-. destruct (Hg s c Hc) as [-> | [-> | ->]];
        unfold bit_like; simpl; auto.
    + unfold PyBool.missing_name in Hv.
      destruct (dict_find "__builtins__" g) as [[| |]|]; discriminate.
  - destruct (PyBool.run g a) as [w|]; cbn [bind] in Hv; [|discriminate].
    injection Hv as <-. right. right. left. eauto.
  - destruct (PyBool.run g a) as [w|]; cbn [bind] in Hv; [|discriminate].
    destruct (PyBool.truthy w); [now apply IHb|].
    injection Hv as <-. now apply IHa.
  - destruct (PyBool.run g a) as [w|]; cbn [bind] in Hv; [|discriminate].
    destruct (PyBool.truthy w); [|now apply IHb].
    injection Hv as <-. now apply IHa.
Qed.

Lemma dict_find_in {V : Type} (k : string) (d : dict V) (c : V) :
  dict_find k d = Some c -> In (k, c) d.
Proof.
  induction d as [|[k' v] d IH]; simpl; [discriminate|].
  destruct (String.eqb k' k) eqn:Hk.
  - apply String.eqb_eq in Hk. subst. intros [= <-]. now left.
  - intros H. right. now apply IH.
Qed.

(** What the evaluator shows for a value: a 0 or a 1 in the middle of the
    width of the expression text. *)
Lemma shown_length (g : dict cell) (source : string) (w : nat)
  (v : PyBool.value) (shown : string) :
  (forall k c, dict_find k g = Some c ->
               c = CInt 0 \/ c = CInt 1 \/ c = CNone) ->
  PyBool.py_eval source g = OK v -> PyBool.py_format w v = OK shown ->
  String.length shown = Nat.max w 1.
Proof.
  intros Hg Hev Hfmt. unfold PyBool.py_eval in Hev.
  destruct (PyBool.lex [] source) as [ts|]; cbn [bind] in Hev; [|discriminate].
  destruct (PyBool.parse ts) as [a|]; cbn [bind] in Hev; [|discriminate].
  destruct (run_bit_like g a v Hg Hev) as [-> | [-> | [(b & ->) | ->]]];
    cbn [PyBool.py_format] in Hfmt; try discriminate;
    injection Hfmt as <-; rewrite length_center; try reflexivity.
  now destruct b.
Qed.

End TableFacts.

Module TableSpec.

Import Evaluator Iteration TruthTable.
Import PyFacts ReplaceFacts DictFacts EvaluatorFacts RowFacts TableFacts.

(** X9.  Going through an evaluator gives the text of each row, in the
    order of the rows, whatever [n] was before: [__iter__] starts again
    from the first row.  At the end [__next__] raises [StopIteration] and
    leaves the object as it is; before any [__iter__] it raises
    [AttributeError]. *)
Theorem iteration_protocol (o : instance) :
  let done :=
    {| self := self o;
       n := Some (Z.of_nat (List.length (lines (self o)))) |} in
  collect o = (inl (map row_text (lines (self o))), done)
  /\ next done = (StopIteration, done)
  /\ next (fresh (self o)) = (Fail AttributeError, fresh (self o)).
Proof.
  cbn zeta. split; [|split].
  - apply collect_all.
  - now apply next_stop.
  - reflexivity.
Qed.

(** X10.  With the boolean fragment for host, one-letter variable names
    and at least one variable, the table [__str__] returns is the header,
    the rule and one line for each of the [2 ^ n] rows; every row line is
    as long as the header, so the columns line up, and the rule is
    [5 - n] characters longer than the header. *)
Theorem table_layout (e : string) (vs : list string) (ev : Evaluator.t) :
  NoDup vs -> ~ In " " vs -> vs <> [] ->
  Forall (fun v => String.length v = 1%nat) vs ->
  eval PyBool.host (Evaluator.init e vs) = OK ev ->
  exists rows,
    to_string (TruthTable.init (fresh ev))
    = (inl (String.append (header ev)
              (String.append newline
                 (String.append (rule ev)
                    (String.append newline (String.concat newline rows))))),
       {| evaluator :=
            {| self := ev;
               n := Some (Z.of_nat (List.length (lines ev))) |} |})
    /\ List.length rows = (2 ^ List.length vs)%nat
    /\ Forall (fun line => String.length line = String.length (header ev))
         rows
    /\ (String.length (rule ev) + List.length vs
        = String.length (header ev) + 5)%nat.
Proof.
  intros Hnd Hsp Hne Hone Hev.
  set (self0 := Evaluator.init e vs) in *.
  assert (Hperm : Permutation vs (variables self0)) by apply sorted_perm.
  assert (Hnd' : NoDup (variables self0))
    by now apply (Permutation_NoDup Hperm).
  assert (Hsp' : ~ In " " (variables self0)).
  { intros Hin. apply Hsp. now apply (Permutation_in _ (Permutation_sym Hperm)). }
  assert (Hone' : Forall (fun v => String.length v = 1%nat) (variables self0))
    by now apply (Permutation_Forall Hperm).
  assert (Hn : List.length (variables self0) = List.length vs)
    by (symmetry; now apply Permutation_length).
  assert (Hne' : variables self0 <> []).
  { intros H0. rewrite H0 in Hn. destruct vs; [congruence|discriminate]. }
  pose proof (eval_outcome PyBool.host self0) as Ho. rewrite Hev in Ho.
  destruct Ho as (Hself & Hlen & Hrow).
  assert (Hvars : variables ev = variables self0) by now rewrite Hself.
  assert (Hexp : expression ev = e) by now rewrite Hself.
  (* the expression text is not empty: the host took it *)
  assert (HL : (1 <= String.length e)%nat).
  { destruct e as [|c e']; [|simpl; lia]. exfalso.
    destruct (Hrow 0%nat) as (row & _ & r & shown & Hr & _).
    - apply Nat.neq_0_lt_0. apply Nat.pow_nonzero. discriminate.
    - discriminate Hr. }
  (* the header *)
  assert (Hhead : String.length (header ev)
                  = (4 * List.length vs + String.length e)%nat).
  { unfold header. rewrite !length_append, Hvars, Hexp.
    pose proof (length_concat " | " (variables self0) Hne') as Hc.
    rewrite (sum_constant _ 4) in Hc.
    - change (String.length " | ") with 3%nat in *. lia.
    - eapply Forall_impl; [|exact Hone']. intros v Hv. simpl. rewrite Hv.
      reflexivity. }
  exists (map row_text (lines ev)).
  split; [|split; [|split]].
  - unfold to_string. cbn [evaluator TruthTable.init].
    pose proof (collect_all (fresh ev)) as Hc.
    cbn [self fresh] in Hc. rewrite Hc. reflexivity.
  - rewrite length_map, Hlen. now rewrite Hn.
  - rewrite Forall_forall. intros line Hin.
    apply in_map_iff in Hin. destruct Hin as (row & <- & Hin).
    apply In_nth_error in Hin. destruct Hin as (i & Hi).
    assert (Hilt : (i < 2 ^ List.length (variables self0))%nat).
    { rewrite <- Hlen. apply nth_error_Some. congruence. }
    destruct (Hrow i Hilt) as (row' & Hi' & Hdone).
    rewrite Hi in Hi'. injection Hi' as <-.
    destruct (row_done_cells PyBool.host self0 i row Hnd' Hsp' Hdone)
      as (cells & r & shown & -> & Hcl & Hbits & Hasg & Hr & Hfmt).
    assert (Hshown : String.length shown = String.length e).
    { assert (Hg : forall k c,
                dict_find k (globals (variables self0) i) = Some c ->
                c = CInt 0 \/ c = CInt 1 \/ c = CNone).
      { intros k c Hk. unfold globals in Hk. rewrite dict_find_set in Hk.
        destruct (String.eqb "__builtins__" k).
        - injection Hk as <-. auto.
        - rewrite Hasg in Hk. apply dict_find_in in Hk.
          apply in_combine_r in Hk. rewrite Forall_forall in Hbits.
          destruct (Hbits c Hk); auto. }
      rewrite (shown_length _ _ _ _ _ Hg Hr Hfmt).
      cbn [expression self0 Evaluator.init]. lia. }
    unfold row_text. rewrite map_app. cbn [map snd cell_str].
    rewrite Hhead.
    pose proof (length_concat " | "
                  (map (fun kv => cell_str (snd kv))
                     (combine (variables self0) cells) ++ [shown])) as Hc.
    rewrite map_app, list_sum_app in Hc.
    rewrite (sum_constant _ 4) in Hc.
    + rewrite length_map, length_combine, Hcl, Nat.min_id, Hn in Hc.
      cbn [map list_sum fold_right] in Hc.
      change (String.length " | ") with 3%nat in Hc.
      specialize (Hc ltac:(now destruct (map _ _))). lia.
    + rewrite Forall_forall. intros x Hx. apply in_map_iff in Hx.
      destruct Hx as ([k c] & <- & Hkc). apply in_combine_r in Hkc.
      rewrite Forall_forall in Hbits.
      destruct (Hbits c Hkc) as [-> | ->]; reflexivity.
  - rewrite Hhead. unfold rule, dashes.
    rewrite length_of_list_ascii, repeat_length, Hvars, Hn, Hexp. lia.
Qed.

Lemma table_layout_witness :
  NoDup ["A"] /\ ~ In " " ["A"] /\ ["A"] <> []
  /\ Forall (fun v => String.length v = 1%nat) ["A"]
  /\ eval PyBool.host (Evaluator.init "NOT ( A )" ["A"])
     = OK {| expression := "NOT ( A )";
             py_expression := "not ( A )";
             variables := ["A"];
             lines := [[("A", CInt 0); (" ", CStr "    1    ")];
                       [("A", CInt 1); (" ", CStr "    0    ")]] |}
  /\ exists rows,
       to_string
         (TruthTable.init
            (fresh {| expression := "NOT ( A )";
                      py_expression := "not ( A )";
                      variables := ["A"];
                      lines := [[("A", CInt 0); (" ", CStr "    1    ")];
                                [("A", CInt 1); (" ", CStr "    0    ")]] |}))
       = (inl (String.append "A | NOT ( A )"
                 (String.append newline
                    (String.append "-----------------"
                       (String.append newline
                          (String.concat newline rows))))),
          {| evaluator :=
               {| self :=
                    {| expression := "NOT ( A )";
                       py_expression := "not ( A )";
                       variables := ["A"];
                       lines := [[("A", CInt 0); (" ", CStr "    1    ")];
                                 [("A", CInt 1); (" ", CStr "    0    ")]] |};
                  n := Some 2 |} |})
       /\ List.length rows = 2%nat
       /\ Forall (fun line => String.length line = 13%nat) rows
       /\ (17 + 1 = 13 + 5)%nat.
Proof.
  assert (Hnd : NoDup ["A"]) by (constructor; [intros []|constructor]).
  assert (Hsp : ~ In " " ["A"]) by (intros [H|[]]; discriminate).
  assert (Hne : ["A"] <> []) by discriminate.
  assert (Hone : Forall (fun v => String.length v = 1%nat) ["A"])
    by (constructor; [reflexivity|constructor]).
  split; [exact Hnd|]. split; [exact Hsp|]. split; [exact Hne|].
  split; [exact Hone|]. split; [reflexivity|].
  exact (table_layout "NOT ( A )" ["A"] _ Hnd Hsp Hne Hone eq_refl).
Defined.

End TableSpec.

(** ** The program *)

Module MainFacts.

Import ExpressionBuilder Main.
Import BuildFacts BuilderFacts TokenFacts.

(** Only the draw modulo the length of the sequence matters. *)
Lemma choice_mod {A : Type} (r : nat) (l : list A) :
  choice r l = choice (r mod List.length l) l.
Proof.
  destruct l as [|a l]; [reflexivity|]. unfold choice.
  now rewrite Nat.Div0.mod_mod.
Qed.

Lemma dict_keys_set {V : Type} (k : string) (v v' : V) (d : dict V) :
  dict_get k d = OK v -> dict_keys (dict_set k v' d) = dict_keys d.
Proof.
  unfold dict_get, dict_keys.
  induction d as [|[k0 v0] d IH]; cbn [dict_find dict_set map fst];
    [discriminate|].
  destruct (String.eqb k0 k) eqn:Hk; intros H.
  - apply String.eqb_eq in Hk. now subst.
  - cbn [map fst]. f_equal. now apply IH.
Qed.

(** With three variables a turn of the last loop of [build] chooses between
    two left ends. *)
Lemma add_group_draw (r : nat) (self : t) :
  NoDup (variables self) -> List.length (variables self) = 3%nat ->
  add_group r self = add_group (r mod 2) self.
Proof.
  intros Hnd Hlen. unfold add_group.
  pose proof (generate_indices_outcome self Hnd) as Hp.
  destruct (generate_indices_of_variables self) as [p|x]; cbn [bind];
    [|reflexivity].
  destruct Hp as (Hperm & _).
  destruct (dict_get (fst (not_expr self)) p) as [v|x] eqn:Hv; cbn [bind];
    [|reflexivity].
  assert (Hg : generate_parentheses_positions r
                 (dict_set (fst (not_expr self)) (v - 2) p)
               = generate_parentheses_positions (r mod 2)
                   (dict_set (fst (not_expr self)) (v - 2) p)).
  { unfold generate_parentheses_positions.
    rewrite (dict_keys_set _ _ (v - 2) _ Hv).
    apply Permutation_length in Hperm. rewrite Hlen in Hperm.
    destruct (dict_keys p) as [|a [|b [|c [|c' ks]]]]; try discriminate Hperm.
    change (removelast [a; b; c]) with [a; b].
    rewrite (choice_mod r), (choice_mod (r mod 2)).
    change (List.length [a; b]) with 2%nat.
    now rewrite Nat.Div0.mod_mod. }
  now rewrite Hg.
Qed.

Lemma add_groups_draw (rs rs' : nat -> nat) (count : nat) :
  forall (k0 : nat) (self : t),
  NoDup (variables self) -> List.length (variables self) = 3%nat ->
  (forall k, (k0 <= k < k0 + count)%nat -> (rs k mod 2 = rs' k mod 2)%nat) ->
  add_groups rs k0 count self = add_groups rs' k0 count self.
Proof.
  induction count as [|count IH]; intros k0 self Hnd Hlen Hrs;
    cbn [add_groups]; [reflexivity|].
  rewrite (add_group_draw (rs k0) self Hnd Hlen),
          (add_group_draw (rs' k0) self Hnd Hlen), (Hrs k0) by lia.
  destruct (add_group (rs' k0 mod 2) self) as [self'|x] eqn:Hg; cbn [bind];
    [|reflexivity].
  apply add_group_tokens in Hg. destruct Hg as ((_ & Hv & _) & _).
  apply IH.
  - now rewrite Hv.
  - now rewrite Hv.
  - intros k Hk. apply Hrs. lia.
Qed.

Lemma build_draw (rs rs' : nat -> nat) (self : t) :
  NoDup (variables self) -> List.length (variables self) = 3%nat ->
  (forall k, (k < Z.to_nat (paren_count self))%nat ->
             (rs k mod 2 = rs' k mod 2)%nat) ->
  build rs self = build rs' self.
Proof.
  intros Hnd Hlen Hrs. unfold build.
  destruct (push_not _) as [self1|x] eqn:H1; cbn [bind]; [|reflexivity].
  destruct (close_not self1) as [self2|x] eqn:H2; cbn [bind]; [|reflexivity].
  apply push_not_tokens in H1. destruct H1 as ((_ & Hv1 & _) & _).
  apply close_not_tokens in H2. destruct H2 as ((_ & Hv2 & _) & _).
  cbn [variables with_expression] in Hv1.
  apply add_groups_draw.
  - now rewrite Hv2, Hv1.
  - now rewrite Hv2, Hv1.
  - intros k Hk. apply Hrs. lia.
Qed.

Lemma shuffle_fuel_step {A : Type} (fuel : nat) (rs : nat -> nat) (a : A)
  (l : list A) :
  shuffle_fuel (S fuel) rs (a :: l)
  = nth (rs fuel mod List.length (a :: l)) (a :: l) a
      :: shuffle_fuel fuel rs
           (remove_nth (rs fuel mod List.length (a :: l)) (a :: l)).
Proof. reflexivity. Qed.

(** The orders [random.shuffle] can leave two and three elements in. *)
Lemma shuffle_one {A : Type} (rs : nat -> nat) (a : A) :
  shuffle_fuel 1 rs [a] = [a].
Proof.
  rewrite shuffle_fuel_step.
  assert (H0 : (rs 0%nat mod List.length [a] < 1)%nat)
    by (apply Nat.mod_upper_bound; discriminate).
  destruct (rs 0%nat mod List.length [a])%nat as [|k0]; [reflexivity|lia].
Qed.

Lemma shuffle_two {A : Type} (rs : nat -> nat) (a b : A) :
  In (shuffle rs [a; b]) [[a; b]; [b; a]].
Proof.
  unfold shuffle. change (List.length [a; b]) with 2%nat.
  rewrite shuffle_fuel_step.
  assert (H1 : (rs 1%nat mod List.length [a; b] < 2)%nat)
    by (apply Nat.mod_upper_bound; discriminate).
  destruct (rs 1%nat mod List.length [a; b])%nat as [|[|k1]]; [| |lia];
    cbn [nth remove_nth]; rewrite shuffle_one; cbn [In]; auto.
Qed.

Lemma shuffle_three {A : Type} (rs : nat -> nat) (a b c : A) :
  In (shuffle rs [a; b; c])
     [[a; b; c]; [a; c; b]; [b; a; c]; [b; c; a]; [c; a; b]; [c; b; a]].
Proof.
  unfold shuffle. change (List.length [a; b; c]) with 3%nat.
  rewrite shuffle_fuel_step.
  assert (H2 : (rs 2%nat mod List.length [a; b; c] < 3)%nat)
    by (apply Nat.mod_upper_bound; discriminate).
  destruct (rs 2%nat mod List.length [a; b; c])%nat as [|[|[|k2]]];
    [| | |lia]; cbn [nth remove_nth].
  - pose proof (shuffle_two rs b c) as H.
    unfold shuffle in H. change (List.length [b; c]) with 2%nat in H.
    destruct H as [H|[H|[]]]; rewrite <- H; cbn [In]; auto 7.
  - pose proof (shuffle_two rs a c) as H.
    unfold shuffle in H. change (List.length [a; c]) with 2%nat in H.
    destruct H as [H|[H|[]]]; rewrite <- H; cbn [In]; auto 7.
  - pose proof (shuffle_two rs a b) as H.
    unfold shuffle in H. change (List.length [a; b]) with 2%nat in H.
    destruct H as [H|[H|[]]]; rewrite <- H; cbn [In]; auto 7.
Qed.

(** The instances the constructor call of [main] can return. *)
Lemma main_init (d : draws) :
  exists vs os nv prec,
    init ["A"; "B"; "C"] ["AND"; "OR"] 2 d
    = OK {| paren_count := 2; variables := vs; operators := os;
            not_expr := (nv, prec); parentheses := []; expression := [] |}
    /\ In vs [["A"; "B"; "C"]; ["A"; "C"; "B"]; ["B"; "A"; "C"];
              ["B"; "C"; "A"]; ["C"; "A"; "B"]; ["C"; "B"; "A"]]
    /\ In os [["AND"; "OR"]; ["OR"; "AND"]]
    /\ In nv ["A"; "B"; "C"]
    /\ In prec [0; 1].
Proof.
  unfold init. change (Nat.eqb _ _) with true. cbv iota.
  unfold generate_variables_order, generate_operator_order,
    generate_not_subexpression.
  pose proof (shuffle_three (variables_order d) "A" "B" "C") as Hvs.
  pose proof (shuffle_two (operators_order d) "AND" "OR") as Hos.
  set (vs := shuffle (variables_order d) ["A"; "B"; "C"]) in *.
  set (os := shuffle (operators_order d) ["AND"; "OR"]) in *.
  pose proof (choice_nth (not_variable d) vs) as Hc.
  destruct (choice (not_variable d) vs) as [nv|x]; cbn [bind].
  - destruct Hc as (k & _ & Hk). apply nth_error_In in Hk.
    assert (Hm : (not_precedence d mod 2 < 2)%nat)
      by (apply Nat.mod_upper_bound; discriminate).
    exists vs, os, nv, (Z.of_nat (not_precedence d mod 2)).
    split; [reflexivity|]. split; [exact Hvs|]. split; [exact Hos|]. split.
    + cbn [In] in Hvs.
      destruct Hvs as [H|[H|[H|[H|[H|[H|[]]]]]]]; rewrite <- H in Hk;
        cbn [In] in Hk |- *; tauto.
    + destruct (not_precedence d mod 2)%nat as [|[|m]]; cbn [In];
        [now left|right; now left|lia].
  - destruct Hc as (_ & Hc). exfalso.
    cbn [In] in Hvs.
    destruct Hvs as [H|[H|[H|[H|[H|[H|[]]]]]]]; rewrite Hc in H;
      discriminate H.
Qed.

(** Every instance of [main_init] and every choice of the two extra groups
    gives a table. *)
Lemma main_turns_checked :
  forallb (fun vs => forallb (fun os => forallb (fun nv => forallb (fun prec =>
    forallb (fun x0 => forallb (fun x1 =>
      match
        turn_from PyBool.host (fun k => nth k [x0; x1] 0%nat)
          {| paren_count := 2; variables := vs; operators := os;
             not_expr := (nv, prec); parentheses := []; expression := [] |}
      with
      | inl _ => true
      | inr _ => false
      end) [0; 1]%nat) [0; 1]%nat) [0; 1]) ["A"; "B"; "C"])
    [["AND"; "OR"]; ["OR"; "AND"]])
    [["A"; "B"; "C"]; ["A"; "C"; "B"]; ["B"; "A"; "C"];
     ["B"; "C"; "A"]; ["C"; "A"; "B"]; ["C"; "B"; "A"]]
  = true.
Proof. vm_compute. reflexivity. Qed.

Lemma turn_returns (d : draws) (rs : nat -> nat) :
  exists text, turn PyBool.host d rs = inl text.
Proof.
  unfold turn.
  destruct (main_init d) as (vs & os & nv & prec & -> & Hvs & Hos & Hnv & Hp).
  set (b := {| paren_count := 2; variables := vs; operators := os;
               not_expr := (nv, prec); parentheses := [];
               expression := [] |}).
  set (x0 := (rs 0%nat mod 2)%nat). set (x1 := (rs 1%nat mod 2)%nat).
  assert (H0 : In x0 [0; 1]%nat).
  { assert (x0 < 2)%nat by (apply Nat.mod_upper_bound; discriminate).
    destruct x0 as [|[|m]]; cbn [In]; [now left|right; now left|lia]. }
  assert (H1 : In x1 [0; 1]%nat).
  { assert (x1 < 2)%nat by (apply Nat.mod_upper_bound; discriminate).
    destruct x1 as [|[|m]]; cbn [In]; [now left|right; now left|lia]. }
  assert (Hb : build rs b = build (fun k => nth k [x0; x1] 0%nat) b).
  { apply build_draw.
    - cbn [variables b]. cbn [In] in Hvs.
      destruct Hvs as [H|[H|[H|[H|[H|[H|[]]]]]]]; rewrite <- H;
        repeat constructor; cbn [In]; intuition discriminate.
    - cbn [variables b]. cbn [In] in Hvs.
      destruct Hvs as [H|[H|[H|[H|[H|[H|[]]]]]]]; now rewrite <- H.
    - cbn [paren_count b]. change (Z.to_nat 2) with 2%nat.
      intros [|[|k]] Hk; [| |lia]; cbn [nth]; subst x0 x1;
        now rewrite Nat.Div0.mod_mod. }
  pose proof main_turns_checked as Hall.
  rewrite forallb_forall in Hall. specialize (Hall vs Hvs).
  rewrite forallb_forall in Hall. specialize (Hall os Hos).
  rewrite forallb_forall in Hall. specialize (Hall nv Hnv).
  rewrite forallb_forall in Hall. specialize (Hall prec Hp).
  rewrite forallb_forall in Hall. specialize (Hall x0 H0).
  rewrite forallb_forall in Hall. specialize (Hall x1 H1).
  cbv beta in Hall. fold b in Hall.
  assert (Ht : turn_from PyBool.host rs b
               = turn_from PyBool.host (fun k => nth k [x0; x1] 0%nat) b)
    by (unfold turn_from; now rewrite Hb).
  rewrite Ht.
  destruct (turn_from PyBool.host (fun k => nth k [x0; x1] 0%nat) b)
    as [text|f]; [|discriminate Hall].
  now exists text.
Qed.

Lemma turns_return
  (draws : nat -> ExpressionBuilder.draws * (nat -> nat)) (count : nat) :
  forall k, exists texts,
    turns PyBool.host draws k count = inl texts
    /\ List.length texts = count.
Proof.
  induction count as [|count IH]; intros k; cbn [turns].
  - now exists [].
  - destruct (turn_returns (fst (draws k)) (snd (draws k))) as (text & ->).
    destruct (IH (S k)) as (rest & -> & Hl). exists (text :: rest).
    split; [reflexivity|]. cbn [List.length]. now rewrite Hl.
Qed.

End MainFacts.

Module MainSpec.

Import ExpressionBuilder Main MainFacts.

(** X11.  [main] with Python's evaluation of not/and/or: whatever the
    random draws, none of the ten turns raises, and ten tables are
    printed. *)
Theorem main_prints_ten_tables
  (draws : nat -> ExpressionBuilder.draws * (nat -> nat)) :
  exists texts,
    main PyBool.host draws = inl texts /\ List.length texts = 10%nat.
Proof. apply turns_return. Qed.

End MainSpec.
